(** * GooglePlaces-MCP: the place-data adapter, its HTTP router and its
      tool-protocol dispatcher, embedded in Rocq.

    Sources embedded here:
    - [services/placesService] (lazily initialised, field-mask revision):
      [searchPlaces], [getPlaceDetails], [findNearbyPlaces],
      [formatSearchResults], [formatPlaceDetails];
    - the earlier eager revision of the same service, where it differs;
    - [middleware/validation.ts]: [validateSearchParams],
      [validateLocationParams], [isValidLocation];
    - [routes/places]: the four routes of [placesRouter], in registration order;
    - [middleware/errorHandler.ts]: [errorHandler];
    - [server.ts]: the application stack;
    - [mcp-server]: the [CallToolRequestSchema] handler and its four handlers.

    Client input ([req.body], tool [arguments]) is untyped JSON and is kept
    dynamic ([JS.value]); provider responses follow the schema of the provider
    client and are records whose fields are all optional. *)

From Stdlib Require Import String Ascii List Bool ZArith QArith Lia.
Import ListNotations.

Set Warnings "-register-all".

Open Scope list_scope.
Open Scope string_scope.

(* ------------------------------------------------------------------------- *)
(** ** JavaScript values and the string operations the code uses *)
(* ------------------------------------------------------------------------- *)

Module JS.

(** JSON data as the handlers see it; [VUndefined] is an absent property.
    A number is the exact rational it denotes (JSON has no NaN/Infinity). *)
Inductive value : Type :=
| VUndefined
| VNull
| VBool (b : bool)
| VNum (q : Q)
| VStr (s : string)
| VArr (items : list value)
| VObj (fields : list (string * value)).

Inductive js_type := TUndefined | TObject | TBoolean | TNumber | TString.

(** [typeof v]: null and arrays are ["object"]. *)
Definition typeof (v : value) : js_type :=
  match v with
  | VUndefined => TUndefined
  | VNull => TObject
  | VBool _ => TBoolean
  | VNum _ => TNumber
  | VStr _ => TString
  | VArr _ => TObject
  | VObj _ => TObject
  end.

Definition is_number (v : value) : bool :=
  match v with VNum _ => true | _ => false end.

Definition is_string (v : value) : bool :=
  match v with VStr _ => true | _ => false end.

Definition is_object (v : value) : bool :=
  match typeof v with TObject => true | _ => false end.

Definition nullish (v : value) : bool :=
  match v with VUndefined | VNull => true | _ => false end.

Definition truthy_str (s : string) : bool := negb (s =? "").
Definition truthy_num (q : Q) : bool := negb (Qeq_bool q 0).

(** ToBoolean. *)
Definition truthy (v : value) : bool :=
  match v with
  | VUndefined | VNull => false
  | VBool b => b
  | VNum q => truthy_num q
  | VStr s => truthy_str s
  | VArr _ | VObj _ => true
  end.

Fixpoint assoc (k : string) (fields : list (string * value)) : value :=
  match fields with
  | [] => VUndefined
  | (k', v) :: rest => if k' =? k then v else assoc k rest
  end.

(** [v.k] for a [v] that is neither null nor undefined: own data property
    of a JSON object, [undefined] on anything else. *)
Definition get (v : value) (k : string) : value :=
  match v with
  | VObj fields => assoc k fields
  | _ => VUndefined
  end.

(** [a || b] *)
Definition or (a b : value) : value := if truthy a then a else b.

(** [a || b] and [a?.f] on optional typed fields ([None] is null/undefined). *)
Definition or_else {A} (tr : A -> bool) (a b : option A) : option A :=
  match a with
  | Some x => if tr x then a else b
  | None => b
  end.

Definition or_default {A} (tr : A -> bool) (a : option A) (d : A) : A :=
  match a with
  | Some x => if tr x then x else d
  | None => d
  end.

Definition opt_chain {A B} (a : option A) (f : A -> option B) : option B :=
  match a with
  | Some x => f x
  | None => None
  end.

Definition always {A} (_ : A) : bool := true.

(** ToString of an optional string inside a template literal. *)
Definition show (s : option string) : string :=
  match s with Some x => x | None => "undefined" end.

(** [s.includes(needle)] *)
Fixpoint includes (s needle : string) : bool :=
  String.prefix needle s
  || match s with
     | EmptyString => false
     | String _ rest => includes rest needle
     end.

(** [s.split(sep)] for a one-character separator. *)
Fixpoint split (sep : ascii) (s : string) : list string :=
  match s with
  | EmptyString => [""]
  | String c rest =>
      if Ascii.eqb c sep then "" :: split sep rest
      else match split sep rest with
           | piece :: pieces => String c piece :: pieces
           | [] => [String c ""]
           end
  end.

(** [arr.pop()] as an expression: the last element, if any. *)
Fixpoint pop {A} (l : list A) : option A :=
  match l with
  | [] => None
  | [x] => Some x
  | _ :: rest => pop rest
  end.

(** [arr.slice(0, n)] *)
Definition slice0 {A} (n : nat) (l : list A) : list A := firstn n l.

(** A string is kept as the bytes of its UTF-8 encoding, so a character
    beyond ASCII takes two to four bytes. [s.trim()] strips white space and
    line terminators. Those of one byte: TAB, LF, VT, FF, CR and the space. *)
Definition is_ws (c : ascii) : bool :=
  let n := nat_of_ascii c in
  ((9 <=? n) && (n <=? 13) || (n =? 32))%nat.

(** Of two bytes: U+00A0. *)
Definition is_ws2 (a b : ascii) : bool :=
  ((nat_of_ascii a =? 194) && (nat_of_ascii b =? 160))%nat.

(** Of three bytes: U+1680; U+2000 to U+200A, U+2028, U+2029 and U+202F;
    U+205F; U+3000; U+FEFF. *)
Definition is_ws3 (a b c : ascii) : bool :=
  let x := nat_of_ascii a in
  let y := nat_of_ascii b in
  let z := nat_of_ascii c in
  ((x =? 225) && (y =? 154) && (z =? 128)
   || (x =? 226) && (y =? 128)
      && ((128 <=? z) && (z <=? 138) || (z =? 168) || (z =? 169) || (z =? 175))
   || (x =? 226) && (y =? 129) && (z =? 159)
   || (x =? 227) && (y =? 128) && (z =? 128)
   || (x =? 239) && (y =? 187) && (z =? 191))%nat.

(** What follows the white-space character at the head of [s], if there
    is one. *)
Definition after_white (s : string) : option string :=
  match s with
  | EmptyString => None
  | String a r1 =>
      if is_ws a then Some r1
      else match r1 with
           | EmptyString => None
           | String b r2 =>
               if is_ws2 a b then Some r2
               else match r2 with
                    | EmptyString => None
                    | String c r3 => if is_ws3 a b c then Some r3 else None
                    end
           end
  end.

(** [s] holds nothing but white space. *)
Fixpoint blank (s : string) : bool :=
  match s with
  | EmptyString => true
  | String a r1 =>
      if is_ws a then blank r1
      else match r1 with
           | EmptyString => false
           | String b r2 =>
               if is_ws2 a b then blank r2
               else match r2 with
                    | EmptyString => false
                    | String c r3 => if is_ws3 a b c then blank r3 else false
                    end
           end
  end.

Fixpoint ltrim (s : string) : string :=
  match s with
  | EmptyString => EmptyString
  | String a r1 =>
      if is_ws a then ltrim r1
      else match r1 with
           | EmptyString => s
           | String b r2 =>
               if is_ws2 a b then ltrim r2
               else match r2 with
                    | EmptyString => s
                    | String c r3 => if is_ws3 a b c then ltrim r3 else s
                    end
           end
  end.

(** The end of the result is where what follows is blank. *)
Fixpoint rtrim (s : string) : string :=
  match s with
  | EmptyString => EmptyString
  | String c rest => if blank s then EmptyString else String c (rtrim rest)
  end.

(** [s.trim()] *)
Definition trim (s : string) : string := rtrim (ltrim s).

Definition lower_ascii (c : ascii) : ascii :=
  let n := nat_of_ascii c in
  if ((65 <=? n) && (n <=? 90))%nat then ascii_of_nat (n + 32) else c.

Fixpoint lower (s : string) : string :=
  match s with
  | EmptyString => EmptyString
  | String c rest => String (lower_ascii c) (lower rest)
  end.

(** A thrown [Error] object: [name], [message] and the optional [code]
    some provider errors carry. *)
Record error := mkError {
  err_name : string;
  err_message : string;
  err_code : option string
}.

(** [new Error(msg)] *)
Definition Error (msg : string) : error := mkError "Error" msg None.
Definition TypeError (msg : string) : error := mkError "TypeError" msg None.
Definition URIError (msg : string) : error := mkError "URIError" msg None.

(** Completion of an evaluation: a value, or a thrown error. Every [throw]
    in the sources throws an [Error] instance. *)
Inductive outcome (A : Type) : Type :=
| Return (a : A)
| Throw (e : error).
Arguments Return {A} a.
Arguments Throw {A} e.

Definition has_key (k : string) (fields : list (string * value)) : bool :=
  existsb (fun kv => fst kv =? k) fields.

(** ToString, as applied by template literals. [num] is the host's
    Number::toString. A JSON object prints through
    [Object.prototype.toString] unless an own ["toString"] data property
    shadows it, in which case no primitive can be produced. *)
Fixpoint ToString (num : Q -> string) (v : value) : outcome string :=
  match v with
  | VUndefined => Return "undefined"
  | VNull => Return "null"
  | VBool b => Return (if b then "true" else "false")
  | VNum q => Return (num q)
  | VStr s => Return s
  | VArr items =>
      (fix join (l : list value) : outcome string :=
         match l with
         | [] => Return ""
         | x :: rest =>
             match (if nullish x then Return "" else ToString num x) with
             | Throw e => Throw e
             | Return s =>
                 match rest with
                 | [] => Return s
                 | _ => match join rest with
                        | Throw e => Throw e
                        | Return r => Return (s ++ "," ++ r)
                        end
                 end
             end
         end) items
  | VObj fields =>
      if has_key "toString" fields
      then Throw (TypeError "Cannot convert object to primitive value")
      else Return "[object Object]"
  end.

(** [v.k] where [v] may be null or undefined. *)
Definition get_strict (v : value) (k : string) : outcome value :=
  match v with
  | VUndefined =>
      Throw (TypeError ("Cannot read properties of undefined (reading '" ++ k ++ "')"))
  | VNull =>
      Throw (TypeError ("Cannot read properties of null (reading '" ++ k ++ "')"))
  | _ => Return (get v k)
  end.

Definition is_undefined (v : value) : bool :=
  match v with VUndefined => true | _ => false end.

(** The number a value holds; read only behind a [typeof v === 'number']
    test. *)
Definition num_of (v : value) : Q :=
  match v with VNum q => q | _ => 0 end.

(** [v.trim().length]; read only behind a [typeof v === 'string'] test. *)
Definition trim_length (v : value) : nat :=
  match v with VStr s => String.length (trim s) | _ => O end.

Definition dquote : string := String (ascii_of_nat 34) EmptyString.

Definition hex_digit (c : ascii) : option nat :=
  let n := nat_of_ascii c in
  if ((48 <=? n) && (n <=? 57))%nat then Some (n - 48)%nat
  else if ((65 <=? n) && (n <=? 70))%nat then Some (n - 55)%nat
  else if ((97 <=? n) && (n <=? 102))%nat then Some (n - 87)%nat
  else None.

(** A URI component read from left to right: a character standing for
    itself, or the octet of an escape [%XY]. *)
Inductive uri_unit := Raw (c : ascii) | Octet (n : nat).

(** The units of [s]; none when a [%] is not followed by two hexadecimal
    digits. *)
Fixpoint escapes (s : string) : option (list uri_unit) :=
  match s with
  | EmptyString => Some []
  | String c rest =>
      if Ascii.eqb c "%"%char then
        match rest with
        | String h (String l rest') =>
            match hex_digit h, hex_digit l, escapes rest' with
            | Some a, Some b, Some units => Some (Octet (16 * a + b) :: units)
            | _, _, _ => None
            end
        | _ => None
        end
      else option_map (cons (Raw c)) (escapes rest)
  end.

Definition within (lo hi n : nat) : bool := ((lo <=? n) && (n <=? hi))%nat.

(** The second octet a leading octet of a three- or four-octet sequence
    allows: no overlong form, no surrogate, nothing above U+10FFFF. *)
Definition second_of_three (b c1 : nat) : bool :=
  if (b =? 224)%nat then within 160 191 c1
  else if (b =? 237)%nat then within 128 159 c1
  else within 128 191 c1.

Definition second_of_four (b c1 : nat) : bool :=
  if (b =? 240)%nat then within 144 191 c1
  else if (b =? 244)%nat then within 128 143 c1
  else within 128 191 c1.

Definition octet_char (n : nat) : ascii := ascii_of_nat n.

(** The decoded text of a list of units. An escaped octet below 128 is its
    character; one from 194 on opens a sequence of two, three or four
    escaped octets that must encode one character in UTF-8; any other
    escaped octet, or a sequence cut short, has no decoding. *)
Fixpoint unescape (units : list uri_unit) : option string :=
  match units with
  | [] => Some EmptyString
  | Raw c :: rest => option_map (String c) (unescape rest)
  | Octet b :: rest =>
      if (b <? 128)%nat then option_map (String (octet_char b)) (unescape rest)
      else if within 194 223 b then
        match rest with
        | Octet c1 :: rest1 =>
            if within 128 191 c1
            then option_map (fun r => String (octet_char b) (String (octet_char c1) r))
                   (unescape rest1)
            else None
        | _ => None
        end
      else if within 224 239 b then
        match rest with
        | Octet c1 :: Octet c2 :: rest2 =>
            if second_of_three b c1 && within 128 191 c2
            then option_map
                   (fun r => String (octet_char b) (String (octet_char c1) (String (octet_char c2) r)))
                   (unescape rest2)
            else None
        | _ => None
        end
      else if within 240 244 b then
        match rest with
        | Octet c1 :: Octet c2 :: Octet c3 :: rest3 =>
            if second_of_four b c1 && within 128 191 c2 && within 128 191 c3
            then option_map
                   (fun r => String (octet_char b) (String (octet_char c1)
                               (String (octet_char c2) (String (octet_char c3) r))))
                   (unescape rest3)
            else None
        | _ => None
        end
      else None
  end.

(** [decodeURIComponent(s)]; [None] when it throws its [URIError]. *)
Definition decodeURIComponent (s : string) : option string :=
  opt_chain (escapes s) unescape.

End JS.
Import JS.

(* ------------------------------------------------------------------------- *)
(** ** Data model *)
(* ------------------------------------------------------------------------- *)

(** Provider-side shapes (the provider client's place schema; every field may
    be missing). *)
Module LocalizedText.
Record t := mk { text : option string }.
End LocalizedText.

Module LatLng.
Record t := mk { latitude : option Q; longitude : option Q }.
End LatLng.

Module OpeningHours.
Record t := mk { openNow : option bool; weekdayDescriptions : option (list string) }.
End OpeningHours.

Module AuthorAttribution.
Record t := mk { displayName : option string }.
End AuthorAttribution.

Module ProviderReview.
Record t := mk {
  rating : option Q;
  text : option LocalizedText.t;
  authorAttribution : option AuthorAttribution.t;
  publishTime : option string
}.
End ProviderReview.

Module ProviderPhoto.
Record t := mk { name : option string; photoReference : option string }.
End ProviderPhoto.

Module ProviderPlace.
Record t := mk {
  id : option string;
  name : option string;
  displayName : option LocalizedText.t;
  formattedAddress : option string;
  location : option LatLng.t;
  rating : option Q;
  priceLevel : option Q;
  types : option (list string);
  currentOpeningHours : option OpeningHours.t;
  nationalPhoneNumber : option string;
  websiteUri : option string;
  reviews : option (list ProviderReview.t);
  photos : option (list ProviderPhoto.t)
}.

(** A place for which the provider sent no field at all. *)
Definition empty : t :=
  mk None None None None None None None None None None None None None.
End ProviderPlace.

(** Internal shapes: [PlaceSearchResult], [PlaceDetails] and the review
    shape. An optional member ([?:]) is an [option]; [id] is declared
    [string] but is computed by an expression that can yield [undefined]. *)
Module Location.
Record t := mk { lat : Q; lng : Q }.
End Location.

Module PlaceSearchResult.
Record t := mk {
  id : option string;
  name : string;
  address : string;
  location : Location.t;
  rating : option Q;
  priceLevel : option Q;
  types : list string;
  isOpen : option bool
}.
End PlaceSearchResult.

Module Review.
Record t := mk {
  rating : option Q;
  text : string;
  author : string;
  time : option string
}.
End Review.

Module PlaceDetails.
Record t := mk {
  id : option string;
  name : string;
  address : string;
  location : Location.t;
  rating : option Q;
  priceLevel : option Q;
  types : list string;
  isOpen : option bool;
  phoneNumber : option string;
  website : option string;
  openingHours : option (list string);
  reviews : option (list Review.t);
  photos : option (list string)
}.
End PlaceDetails.

(** [process.env] as far as the code reads it. *)
Record Env := mkEnv {
  GOOGLE_PLACES_API_KEY : option string;
  NODE_ENV : option string
}.

(* ------------------------------------------------------------------------- *)
(** ** Provider requests, the provider client and the effect of a call *)
(* ------------------------------------------------------------------------- *)

(** Outbound request objects. Their leaves are whatever the caller passed. *)
Module Center.
Record t := mk { latitude : value; longitude : value }.
End Center.

Module Circle.
Record t := mk { center : Center.t; radius : value }.
End Circle.

Module Area.
Record t := mk { circle : Circle.t }.
End Area.

Module TextSearchRequest.
Record t := mk {
  textQuery : value;
  maxResultCount : Z;
  locationBias : option Area.t;
  includedType : option value
}.
End TextSearchRequest.

Module NearbyRequest.
Record t := mk {
  includedTypes : list value;
  maxResultCount : Z;
  locationRestriction : Area.t
}.
End NearbyRequest.

Module GetPlaceRequest.
Record t := mk { name : string }.
End GetPlaceRequest.

(** [response[0]] of a search call. *)
Module SearchResponse.
Record t := mk { places : option (list ProviderPlace.t) }.
End SearchResponse.

(** One outbound provider call: the request and the [X-Goog-FieldMask]
    header passed with it, if any. *)
Inductive Call :=
| SearchText (request : TextSearchRequest.t) (header : option string)
| SearchNearby (request : NearbyRequest.t) (header : option string)
| GetPlace (request : GetPlaceRequest.t) (header : option string).

(** The provider client: an opaque capability that answers or throws. *)
Module PlacesClient.
Record t := mk {
  searchText : TextSearchRequest.t -> option string -> outcome SearchResponse.t;
  searchNearby : NearbyRequest.t -> option string -> outcome SearchResponse.t;
  getPlace : GetPlaceRequest.t -> option string -> outcome ProviderPlace.t
}.
End PlacesClient.

(** What a run depends on besides its input: the environment, the client
    that [new PlacesClient({apiKey})] yields, and the host's number printer. *)
Record World := mkWorld {
  env : Env;
  client : PlacesClient.t;
  Number_toString : Q -> string
}.

(** Computations that log their provider calls and may throw. The
    [console.error] lines of the sources write to no value and are left out. *)
Definition M (A : Type) : Type := list Call -> list Call * outcome A.

Definition ret {A} (a : A) : M A := fun log => (log, Return a).

Definition throw {A} (e : error) : M A := fun log => (log, Throw e).

Definition bind {A B} (m : M A) (k : A -> M B) : M B :=
  fun log =>
    match m log with
    | (log', Return a) => k a log'
    | (log', Throw e) => (log', Throw e)
    end.

(** [try { m } catch (error) { h error }] *)
Definition try_catch {A} (m : M A) (h : error -> M A) : M A :=
  fun log =>
    match m log with
    | (log', Return a) => (log', Return a)
    | (log', Throw e) => h e log'
    end.

Definition lift {A} (o : outcome A) : M A := fun log => (log, o).

(** [await client.method(request, ...)]: the call is logged, then answered. *)
Definition perform {A} (c : Call) (answer : outcome A) : M A :=
  fun log => ((log ++ [c])%list, answer).

Definition run {A} (m : M A) : list Call * outcome A := m [].

Notation "x <- m ;; k" := (bind m (fun x => k))
  (at level 61, m at next level, right associativity).

(* ------------------------------------------------------------------------- *)
(** ** The adapter: [PlacesService] *)
(* ------------------------------------------------------------------------- *)

Module PlacesService.

(** The arrow function mapped over the places by [formatSearchResults]. *)
Definition formatSearchResult (place : ProviderPlace.t) : PlaceSearchResult.t :=
  {| PlaceSearchResult.id :=
       or_else truthy_str (ProviderPlace.id place)
         (opt_chain (ProviderPlace.name place) (fun n => pop (split "/" n)));
     PlaceSearchResult.name :=
       or_default truthy_str
         (opt_chain (ProviderPlace.displayName place) LocalizedText.text) "Unknown";
     PlaceSearchResult.address :=
       or_default truthy_str (ProviderPlace.formattedAddress place)
         "Address not available";
     PlaceSearchResult.location :=
       {| Location.lat :=
            or_default truthy_num
              (opt_chain (ProviderPlace.location place) LatLng.latitude) 0;
          Location.lng :=
            or_default truthy_num
              (opt_chain (ProviderPlace.location place) LatLng.longitude) 0 |};
     PlaceSearchResult.rating := ProviderPlace.rating place;
     PlaceSearchResult.priceLevel := ProviderPlace.priceLevel place;
     PlaceSearchResult.types := or_default always (ProviderPlace.types place) [];
     PlaceSearchResult.isOpen :=
       opt_chain (ProviderPlace.currentOpeningHours place) OpeningHours.openNow |}.

Definition formatSearchResults (places : list ProviderPlace.t)
  : list PlaceSearchResult.t :=
  map formatSearchResult places.

(** The callback mapped over the kept reviews. *)
Definition formatReview (review : ProviderReview.t) : Review.t :=
  {| Review.rating := ProviderReview.rating review;
     Review.text :=
       or_default truthy_str
         (opt_chain (ProviderReview.text review) LocalizedText.text) "";
     Review.author :=
       or_default truthy_str
         (opt_chain (ProviderReview.authorAttribution review)
            AuthorAttribution.displayName) "Anonymous";
     Review.time := ProviderReview.publishTime review |}.

Definition mediaUrl (env : Env) (photoName : option string) : string :=
  "https://places.googleapis.com/v1/" ++ show photoName
    ++ "/media?maxHeightPx=400&maxWidthPx=400&key="
    ++ show (GOOGLE_PLACES_API_KEY env).

(** The callback mapped over the kept photos. *)
Definition formatPhoto (env : Env) (photo : ProviderPhoto.t) : string :=
  let photoName :=
    or_else truthy_str (ProviderPhoto.name photo)
      (ProviderPhoto.photoReference photo) in
  mediaUrl env photoName.

Definition formatPlaceDetails (env : Env) (place : ProviderPlace.t)
  : PlaceDetails.t :=
  (* [formatSearchResults([place])[0]]: the list has exactly one element. *)
  let baseInfo :=
    nth 0 (formatSearchResults [place]) (formatSearchResult place) in
  {| PlaceDetails.id := PlaceSearchResult.id baseInfo;
     PlaceDetails.name := PlaceSearchResult.name baseInfo;
     PlaceDetails.address := PlaceSearchResult.address baseInfo;
     PlaceDetails.location := PlaceSearchResult.location baseInfo;
     PlaceDetails.rating := PlaceSearchResult.rating baseInfo;
     PlaceDetails.priceLevel := PlaceSearchResult.priceLevel baseInfo;
     PlaceDetails.types := PlaceSearchResult.types baseInfo;
     PlaceDetails.isOpen := PlaceSearchResult.isOpen baseInfo;
     PlaceDetails.phoneNumber := ProviderPlace.nationalPhoneNumber place;
     PlaceDetails.website := ProviderPlace.websiteUri place;
     PlaceDetails.openingHours :=
       or_else always
         (opt_chain (ProviderPlace.currentOpeningHours place)
            OpeningHours.weekdayDescriptions)
         (Some []);
     PlaceDetails.reviews :=
       or_else always
         (opt_chain (ProviderPlace.reviews place)
            (fun reviews => Some (map formatReview (slice0 5 reviews))))
         (Some []);
     PlaceDetails.photos :=
       or_else always
         (opt_chain (ProviderPlace.photos place)
            (fun photos => Some (map (formatPhoto env) (slice0 5 photos))))
         (Some []) |}.

(** The instance state: the client built by the constructor. *)
Record t := mk { placesClient : PlacesClient.t }.

Definition constructor (w : World) : outcome t :=
  match GOOGLE_PLACES_API_KEY (env w) with
  | Some apiKey =>
      if truthy_str apiKey then Return (mk (client w))
      else Throw (Error "GOOGLE_PLACES_API_KEY environment variable is required")
  | None => Throw (Error "GOOGLE_PLACES_API_KEY environment variable is required")
  end.

Definition searchFieldMask : string :=
  String.concat ","
    [ "places.id"; "places.displayName"; "places.formattedAddress";
      "places.location"; "places.rating"; "places.priceLevel";
      "places.types"; "places.currentOpeningHours.openNow" ].

Definition detailsFieldMask : string :=
  String.concat ","
    [ "id"; "displayName"; "formattedAddress"; "location"; "rating";
      "priceLevel"; "types"; "currentOpeningHours"; "nationalPhoneNumber";
      "websiteUri"; "reviews"; "photos" ].

(** [param = 5000]: the default applies to [undefined] only. *)
Definition default_5000 (radius : value) : value :=
  if is_undefined radius then VNum 5000 else radius.

(** The [request] object [searchPlaces] has built when it calls the
    provider, from the destructured [params]. *)
Definition textSearchRequest (params : value) : TextSearchRequest.t :=
  let query := get params "query" in
  let location := get params "location" in
  let radius := default_5000 (get params "radius") in
  let type := get params "type" in
  {| TextSearchRequest.textQuery := query;
     TextSearchRequest.maxResultCount := 10;
     TextSearchRequest.locationBias :=
       if truthy location then
         Some {| Area.circle :=
                   {| Circle.center :=
                        {| Center.latitude := get location "lat";
                           Center.longitude := get location "lng" |};
                      Circle.radius := radius |} |}
       else None;
     TextSearchRequest.includedType :=
       if truthy type then Some type else None |}.

Definition searchPlaces (this : t) (params : value)
  : M (list PlaceSearchResult.t) :=
  try_catch
    (_ <- lift (get_strict params "query") ;;
     let request := textSearchRequest params in
     response <- perform (SearchText request (Some searchFieldMask))
                   (PlacesClient.searchText (placesClient this) request
                      (Some searchFieldMask)) ;;
     ret (formatSearchResults
            (or_default always (SearchResponse.places response) [])))
    (* The handler reads [params.query] and [params.location] for its log
       line before it throws. *)
    (fun error =>
       _ <- lift (get_strict params "query") ;;
       _ <- lift (get_strict params "location") ;;
       throw (Error "Failed to search places")).

Definition getPlaceDetails (w : World) (this : t) (placeId : value)
  : M PlaceDetails.t :=
  try_catch
    (id <- lift (ToString (Number_toString w) placeId) ;;
     let request :=
       {| GetPlaceRequest.name := "places/" ++ id |} in
     place <- perform (GetPlace request (Some detailsFieldMask))
                (PlacesClient.getPlace (placesClient this) request
                   (Some detailsFieldMask)) ;;
     ret (formatPlaceDetails (env w) place))
    (fun error => throw (Error "Failed to get place details")).

(** The [request] object of [findNearbyPlaces]; [location.lat] throws on a
    null or undefined [location]. *)
Definition nearbyRequest (location type radius : value)
  : outcome NearbyRequest.t :=
  match get_strict location "lat", get_strict location "lng" with
  | Return lat, Return lng =>
      Return
        {| NearbyRequest.includedTypes := [type];
           NearbyRequest.maxResultCount := 10;
           NearbyRequest.locationRestriction :=
             {| Area.circle :=
                  {| Circle.center :=
                       {| Center.latitude := lat; Center.longitude := lng |};
                     Circle.radius := radius |} |} |}
  | Throw e, _ => Throw e
  | _, Throw e => Throw e
  end.

Definition findNearbyPlaces (this : t) (location type radius : value)
  : M (list PlaceSearchResult.t) :=
  let radius := default_5000 radius in
  try_catch
    (request <- lift (nearbyRequest location type radius) ;;
     response <- perform (SearchNearby request (Some searchFieldMask))
                   (PlacesClient.searchNearby (placesClient this) request
                      (Some searchFieldMask)) ;;
     ret (formatSearchResults
            (or_default always (SearchResponse.places response) [])))
    (fun error => throw (Error "Failed to find nearby places")).

End PlacesService.

(** The exported [placesService]: every method goes through the lazily
    created instance. The environment does not change during a run, so
    creating the instance again gives the instance created first. *)
Module placesService.

Definition instance (w : World) : M PlacesService.t :=
  lift (PlacesService.constructor w).

Definition searchPlaces (w : World) (params : value)
  : M (list PlaceSearchResult.t) :=
  this <- instance w ;;
  PlacesService.searchPlaces this params.

Definition getPlaceDetails (w : World) (placeId : value)
  : M PlaceDetails.t :=
  this <- instance w ;;
  PlacesService.getPlaceDetails w this placeId.

Definition findNearbyPlaces (w : World) (location type radius : value)
  : M (list PlaceSearchResult.t) :=
  let radius := PlacesService.default_5000 radius in
  this <- instance w ;;
  PlacesService.findNearbyPlaces this location type radius.

End placesService.

(** The earlier revision of the service, where the claims reach it: no
    field-mask header on the search call, a [catch] that logs the error
    alone, and the photo URL taken from [photo.name] alone.
    [formatSearchResults], the review callback and the search request object
    are those of the later revision. *)
Module EagerPlacesService.

Definition formatPhoto (env : Env) (photo : ProviderPhoto.t) : string :=
  PlacesService.mediaUrl env (ProviderPhoto.name photo).

Definition formatPlaceDetails (env : Env) (place : ProviderPlace.t)
  : PlaceDetails.t :=
  let baseInfo :=
    nth 0 (PlacesService.formatSearchResults [place])
      (PlacesService.formatSearchResult place) in
  {| PlaceDetails.id := PlaceSearchResult.id baseInfo;
     PlaceDetails.name := PlaceSearchResult.name baseInfo;
     PlaceDetails.address := PlaceSearchResult.address baseInfo;
     PlaceDetails.location := PlaceSearchResult.location baseInfo;
     PlaceDetails.rating := PlaceSearchResult.rating baseInfo;
     PlaceDetails.priceLevel := PlaceSearchResult.priceLevel baseInfo;
     PlaceDetails.types := PlaceSearchResult.types baseInfo;
     PlaceDetails.isOpen := PlaceSearchResult.isOpen baseInfo;
     PlaceDetails.phoneNumber := ProviderPlace.nationalPhoneNumber place;
     PlaceDetails.website := ProviderPlace.websiteUri place;
     PlaceDetails.openingHours :=
       or_else always
         (opt_chain (ProviderPlace.currentOpeningHours place)
            OpeningHours.weekdayDescriptions)
         (Some []);
     PlaceDetails.reviews :=
       or_else always
         (opt_chain (ProviderPlace.reviews place)
            (fun reviews =>
               Some (map PlacesService.formatReview (slice0 5 reviews))))
         (Some []);
     PlaceDetails.photos :=
       or_else always
         (opt_chain (ProviderPlace.photos place)
            (fun photos => Some (map (formatPhoto env) (slice0 5 photos))))
         (Some []) |}.

Definition searchPlaces (this : PlacesService.t) (params : value)
  : M (list PlaceSearchResult.t) :=
  try_catch
    (_ <- lift (get_strict params "query") ;;
     let request := PlacesService.textSearchRequest params in
     response <- perform (SearchText request None)
                   (PlacesClient.searchText (PlacesService.placesClient this)
                      request None) ;;
     ret (PlacesService.formatSearchResults
            (or_default always (SearchResponse.places response) [])))
    (fun error => throw (Error "Failed to search places")).

End EagerPlacesService.

(* ------------------------------------------------------------------------- *)
(** ** The HTTP shell: validators, routes, error handler, application *)
(* ------------------------------------------------------------------------- *)

Inductive Method := GET | POST.

Definition Method_eqb (a b : Method) : bool :=
  match a, b with
  | GET, GET | POST, POST => true
  | _, _ => false
  end.

(** A request after [express.json()]: [body] is the parsed JSON, [{}] when
    the request has none. [path] is the path of the URL as it was sent,
    escapes included. *)
Record Request := mkRequest {
  method : Method;
  path : string;
  body : value
}.

Inductive payload :=
| PlaceList (results : list PlaceSearchResult.t)
| Details (placeDetails : PlaceDetails.t)
| TypeList (types : list string).

(** The JSON envelope of a response; an absent key is [None]. *)
Record envelope := mkEnvelope {
  success : bool;
  data : option payload;
  count : option nat;
  message : option string;
  error : option string;
  code : option string;
  details : option string
}.

Inductive ResponseBody :=
| Json (e : envelope)
| Health
| NotFound.

Record Response := mkResponse {
  status : nat;
  json : ResponseBody
}.

(** [res.status(s).json({success: false, error, code?, details?})] *)
Definition failure (s : nat) (msg : string) (c d : option string) : Response :=
  {| status := s;
     json := Json {| success := false; data := None; count := None;
                     message := None; error := Some msg; code := c;
                     details := d |} |}.

(** [res.json({success: true, data, count?, message})] *)
Definition ok (d : payload) (n : option nat) (msg : string) : Response :=
  {| status := 200;
     json := Json {| success := true; data := Some d; count := n;
                     message := Some msg; error := None; code := None;
                     details := None |} |}.

Definition isValidLocation (location : value) : bool :=
  truthy location
  && is_object location
  && is_number (get location "lat")
  && is_number (get location "lng")
  && Qle_bool (-90) (num_of (get location "lat"))
  && Qle_bool (num_of (get location "lat")) 90
  && Qle_bool (-180) (num_of (get location "lng"))
  && Qle_bool (num_of (get location "lng")) 180.

(** [typeof radius !== 'number' || radius <= 0 || radius > 50000] *)
Definition bad_radius (radius : value) : bool :=
  negb (is_number radius)
  || Qle_bool (num_of radius) 0
  || negb (Qle_bool (num_of radius) 50000).

(** [!v || typeof v !== 'string' || v.trim().length === 0] *)
Definition not_a_filled_string (v : value) : bool :=
  negb (truthy v) || negb (is_string v) || (trim_length v =? 0)%nat.

(** A validator answers with [Some] response, or passes on ([next()]). *)
Definition validateSearchParams (body : value) : option Response :=
  let query := get body "query" in
  let location := get body "location" in
  let radius := get body "radius" in
  let type := get body "type" in
  if not_a_filled_string query then
    Some (failure 400 "Query parameter is required and must be a non-empty string"
            None None)
  else if truthy location && negb (isValidLocation location) then
    Some (failure 400 "Location must have valid lat and lng properties" None None)
  else if negb (is_undefined radius) && bad_radius radius then
    Some (failure 400 "Radius must be a number between 1 and 50000 meters" None None)
  else if negb (is_undefined type)
          && (negb (is_string type) || (trim_length type =? 0)%nat) then
    Some (failure 400 "Type must be a non-empty string if provided" None None)
  else None.

Definition validateLocationParams (body : value) : option Response :=
  let location := get body "location" in
  let type := get body "type" in
  let radius := get body "radius" in
  if negb (truthy location) || negb (isValidLocation location) then
    Some (failure 400 "Valid location with lat and lng properties is required"
            None None)
  else if not_a_filled_string type then
    Some (failure 400 "Type parameter is required and must be a non-empty string"
            None None)
  else if negb (is_undefined radius) && bad_radius radius then
    Some (failure 400 "Radius must be a number between 1 and 50000 meters" None None)
  else None.

Definition commonTypes : list string :=
  [ "restaurant"; "gas_station"; "hospital"; "pharmacy"; "bank"; "atm";
    "shopping_mall"; "grocery_store"; "hotel"; "tourist_attraction"; "park";
    "school"; "university"; "gym"; "movie_theater"; "library"; "church";
    "mosque"; "synagogue"; "police"; "fire_station"; "post_office";
    "car_rental"; "car_repair"; "beauty_salon"; "hair_care"; "dentist";
    "doctor"; "veterinary_care" ].

(** [`${xs.length}`] *)
Definition show_length {A} (w : World) (xs : list A) : string :=
  Number_toString w (inject_Z (Z.of_nat (List.length xs))).

(** Route handlers. A handler answers, or throws: its [catch] hands the
    error to [next]. *)
Module Routes.

Definition search (w : World) (req : Request) : M Response :=
  match validateSearchParams (body req) with
  | Some rejected => ret rejected
  | None =>
      let searchParams := body req in
      results <- placesService.searchPlaces w searchParams ;;
      query <- lift (ToString (Number_toString w) (get searchParams "query")) ;;
      ret (ok (PlaceList results) (Some (List.length results))
             ("Found " ++ show_length w results ++ " places for "
                ++ dquote ++ query ++ dquote))
  end.

Definition placeById (w : World) (placeId : string) : M Response :=
  if negb (truthy_str placeId) then
    ret (failure 400 "Place ID is required" None None)
  else
    placeDetails <- placesService.getPlaceDetails w (VStr placeId) ;;
    ret (ok (Details placeDetails) None
           ("Details for " ++ PlaceDetails.name placeDetails)).

Definition nearby (w : World) (req : Request) : M Response :=
  match validateLocationParams (body req) with
  | Some rejected => ret rejected
  | None =>
      let location := get (body req) "location" in
      let type := get (body req) "type" in
      let radius := PlacesService.default_5000 (get (body req) "radius") in
      results <- placesService.findNearbyPlaces w location type radius ;;
      type_s <- lift (ToString (Number_toString w) type) ;;
      ret (ok (PlaceList results) (Some (List.length results))
             ("Found " ++ show_length w results ++ " " ++ type_s
                ++ " places nearby"))
  end.

Definition types : M Response :=
  ret (ok (TypeList commonTypes) None "Available place types for search").

End Routes.

(** Route paths, segment by segment. *)
Inductive segment := Lit (s : string) | Param (name : string).

(** The segments of a URL path: ["/a/b"] is [["a"; "b"]], ["/a/"] is
    [["a"; ""]]. *)
Definition segments (p : string) : list string :=
  match split "/" p with
  | "" :: rest => rest
  | pieces => pieces
  end.

(** What matching a route path against a request path gives: the
    parameters it binds, no match, or the error the layer throws when the
    path matches and a parameter does not decode. *)
Inductive matching :=
| Matches (params : list (string * string))
| Differs
| Undecodable (e : JS.error).

(** [decode_param(val)] of the router, on a segment that is not empty. *)
Definition decode_param (val : string) : outcome string :=
  match decodeURIComponent val with
  | Some v => Return v
  | None => Throw (URIError ("Failed to decode param '" ++ val ++ "'"))
  end.

(** Literals compare without case, a parameter takes one non-empty
    segment, and one trailing slash is allowed. The parameters of a path
    that matches are decoded from left to right. *)
Fixpoint match_path (pat : list segment) (segs : list string) : matching :=
  match pat, segs with
  | [], [] => Matches []
  | [], [""] => Matches []
  | Lit s :: pat', seg :: segs' =>
      if lower seg =? lower s then match_path pat' segs' else Differs
  | Param k :: pat', seg :: segs' =>
      if seg =? "" then Differs
      else match match_path pat' segs' with
           | Differs => Differs
           | later =>
               match decode_param seg with
               | Throw e => Undecodable e
               | Return v =>
                   match later with
                   | Matches params => Matches ((k, v) :: params)
                   | _ => later
                   end
               end
           end
  | _, _ => Differs
  end.

Fixpoint param (k : string) (params : list (string * string)) : string :=
  match params with
  | [] => ""
  | (k', v) :: rest => if k' =? k then v else param k rest
  end.

Record Route := mkRoute {
  route_method : Method;
  route_path : list segment;
  route_handler : World -> list (string * string) -> Request -> M Response
}.

(** [placesRouter]: the routes in the order the module registers them. *)
Definition placesRouter : list Route :=
  [ mkRoute POST [Lit "search"] (fun w _ req => Routes.search w req);
    mkRoute GET [Param "placeId"]
      (fun w params _ => Routes.placeById w (param "placeId" params));
    mkRoute POST [Lit "nearby"] (fun w _ req => Routes.nearby w req);
    mkRoute GET [Lit "types"] (fun _ _ _ => Routes.types) ].

(** The router takes the routes in the order of their registration. The
    path is matched first, then the method; no handler above calls [next()]
    once its route has matched. When matching a layer throws, no later route
    is taken and the router ends with [next(error)]: the result is then the
    computation that throws that error. *)
Fixpoint dispatch (routes : list Route) (w : World) (req : Request)
  (segs : list string) : option (M Response) :=
  match routes with
  | [] => None
  | r :: rest =>
      match match_path (route_path r) segs with
      | Matches params =>
          if Method_eqb (route_method r) (method req)
          then Some (route_handler r w params req)
          else dispatch rest w req segs
      | Differs => dispatch rest w req segs
      | Undecodable e => Some (throw e)
      end
  end.

Definition errorHandler (w : World) (error : JS.error) : Response :=
  if includes (err_message error) "quota"
     || match err_code error with
        | Some c => c =? "OVER_QUERY_LIMIT"
        | None => false
        end
  then failure 429 "API quota exceeded. Please try again later."
         (Some "QUOTA_EXCEEDED") None
  else if includes (err_message error) "API key"
          || match err_code error with
             | Some c => c =? "REQUEST_DENIED"
             | None => false
             end
  then failure 401 "Invalid API key configuration." (Some "INVALID_API_KEY") None
  else if err_name error =? "ValidationError"
  then failure 400 (err_message error) (Some "VALIDATION_ERROR") None
  else failure 500 "Internal server error occurred." (Some "INTERNAL_ERROR")
         (match NODE_ENV (env w) with
          | Some mode =>
              if mode =? "development" then Some (err_message error) else None
          | None => None
          end).

(** [app.use('/api/places', placesRouter)]: the path under the mount
    point. The mount path is compared without case; the slash after it is
    stripped with it when another slash follows, so [/api/places//search] is
    [/search] to the router. *)
Definition under_mount (segs : list string) : option (list string) :=
  match segs with
  | a :: b :: rest =>
      if (lower a =? "api") && (lower b =? "places")
      then Some (match rest with
                 | "" :: (_ :: _) as inner => inner
                 | _ => rest
                 end)
      else None
  | _ => None
  end.

(** A matched route runs to its end: it answers, or the error it handed to
    [next] reaches [errorHandler], the next layer of the application after
    the router; so does the error the router ends with. The result is the
    list of provider calls made and the response sent. *)
Definition serve (w : World) (handler : M Response) : list Call * Response :=
  match run handler with
  | (calls, Return response) => (calls, response)
  | (calls, Throw error) => (calls, errorHandler w error)
  end.

(** The application of [server.ts]: health check, the mounted router, the
    error handler; what nothing answers gets the framework's 404. (The
    revision that also serves the static front end differs in what such
    requests get, not in the routes below the mount point.) *)
Definition app (w : World) (req : Request) : list Call * Response :=
  let segs := segments (path req) in
  match method req, match_path [Lit "health"] segs with
  | GET, Matches _ => ([], mkResponse 200 Health)
  | _, _ =>
      match under_mount segs with
      | Some rest =>
          match dispatch placesRouter w req rest with
          | Some handler => serve w handler
          | None => ([], mkResponse 404 NotFound)
          end
      | None => ([], mkResponse 404 NotFound)
      end
  end.

(* ------------------------------------------------------------------------- *)
(** ** The tool-protocol shell *)
(* ------------------------------------------------------------------------- *)

(** [searchParams] echoed by the nearby tool. *)
Record NearbyEcho := mkNearbyEcho {
  echo_location : value;
  echo_type : value;
  echo_radius : value
}.

(** The object a handler serialises; an absent key is [None]. *)
Record ToolEnvelope := mkToolEnvelope {
  tool_success : bool;
  tool_message : string;
  tool_count : option nat;
  tool_searchParams : option NearbyEcho;
  tool_results : option (list PlaceSearchResult.t);
  tool_placeDetails : option PlaceDetails.t;
  tool_placeTypes : option (list string);
  tool_usage : option string
}.

(** The [text] of a content item: a plain string, or
    [JSON.stringify(o, null, 2)] of an envelope [o], kept as [o]. *)
Inductive Text :=
| Plain (s : string)
| Stringify (o : ToolEnvelope).

Record ContentItem := mkContentItem {
  item_type : string;
  item_text : Text
}.

(** A tool response; [isError] is absent ([None]) on the success path. *)
Record ToolResponse := mkToolResponse {
  content : list ContentItem;
  isError : option bool
}.

Definition respond (o : ToolEnvelope) : ToolResponse :=
  {| content := [ {| item_type := "text"; item_text := Stringify o |} ];
     isError := None |}.

Module TalkForceMCPServer.

(** [results.map(place => ({id: place.id, ...}))] *)
Definition copyPlace (place : PlaceSearchResult.t) : PlaceSearchResult.t :=
  {| PlaceSearchResult.id := PlaceSearchResult.id place;
     PlaceSearchResult.name := PlaceSearchResult.name place;
     PlaceSearchResult.address := PlaceSearchResult.address place;
     PlaceSearchResult.location := PlaceSearchResult.location place;
     PlaceSearchResult.rating := PlaceSearchResult.rating place;
     PlaceSearchResult.priceLevel := PlaceSearchResult.priceLevel place;
     PlaceSearchResult.types := PlaceSearchResult.types place;
     PlaceSearchResult.isOpen := PlaceSearchResult.isOpen place |}.

(** [...(v && {k: v})] *)
Definition spread_if (k : string) (v : value) : list (string * value) :=
  if truthy v then [(k, v)] else [].

Definition handleSearchPlaces (w : World) (args : value) : M ToolResponse :=
  query <- lift (get_strict args "query") ;;
  let searchParams :=
    VObj ((("query", query) :: spread_if "location" (get args "location"))
            ++ spread_if "radius" (get args "radius")
            ++ spread_if "type" (get args "type"))%list in
  results <- placesService.searchPlaces w searchParams ;;
  query_s <- lift (ToString (Number_toString w) (get args "query")) ;;
  ret (respond
         {| tool_success := true;
            tool_message :=
              "Found " ++ show_length w results ++ " places for "
                ++ dquote ++ query_s ++ dquote;
            tool_count := Some (List.length results);
            tool_searchParams := None;
            tool_results := Some (map copyPlace results);
            tool_placeDetails := None;
            tool_placeTypes := None;
            tool_usage := None |}).

Definition handleFindNearbyPlaces (w : World) (args : value) : M ToolResponse :=
  radius0 <- lift (get_strict args "radius") ;;
  let radius := or radius0 (VNum 5000) in
  results <- placesService.findNearbyPlaces w (get args "location")
               (get args "type") radius ;;
  type_s <- lift (ToString (Number_toString w) (get args "type")) ;;
  ret (respond
         {| tool_success := true;
            tool_message :=
              "Found " ++ show_length w results ++ " " ++ type_s
                ++ " places nearby";
            tool_count := Some (List.length results);
            tool_searchParams :=
              Some {| echo_location := get args "location";
                      echo_type := get args "type";
                      echo_radius := radius |};
            tool_results := Some (map copyPlace results);
            tool_placeDetails := None;
            tool_placeTypes := None;
            tool_usage := None |}).

(** The [placeDetails] object of the detail tool. *)
Definition copyDetails (placeDetails : PlaceDetails.t) : PlaceDetails.t :=
  {| PlaceDetails.id := PlaceDetails.id placeDetails;
     PlaceDetails.name := PlaceDetails.name placeDetails;
     PlaceDetails.address := PlaceDetails.address placeDetails;
     PlaceDetails.location := PlaceDetails.location placeDetails;
     PlaceDetails.rating := PlaceDetails.rating placeDetails;
     PlaceDetails.priceLevel := PlaceDetails.priceLevel placeDetails;
     PlaceDetails.types := PlaceDetails.types placeDetails;
     PlaceDetails.isOpen := PlaceDetails.isOpen placeDetails;
     PlaceDetails.phoneNumber := PlaceDetails.phoneNumber placeDetails;
     PlaceDetails.website := PlaceDetails.website placeDetails;
     PlaceDetails.openingHours := PlaceDetails.openingHours placeDetails;
     PlaceDetails.reviews :=
       opt_chain (PlaceDetails.reviews placeDetails)
         (fun reviews => Some (slice0 5 reviews));
     PlaceDetails.photos :=
       opt_chain (PlaceDetails.photos placeDetails)
         (fun photos => Some (slice0 3 photos)) |}.

Definition handleGetPlaceDetails (w : World) (args : value) : M ToolResponse :=
  placeId <- lift (get_strict args "placeId") ;;
  placeDetails <- placesService.getPlaceDetails w placeId ;;
  ret (respond
         {| tool_success := true;
            tool_message := "Details for " ++ PlaceDetails.name placeDetails;
            tool_count := None;
            tool_searchParams := None;
            tool_results := None;
            tool_placeDetails := Some (copyDetails placeDetails);
            tool_placeTypes := None;
            tool_usage := None |}).

Definition handleGetPlaceTypes : M ToolResponse :=
  ret (respond
         {| tool_success := true;
            tool_message := "Available place types for AI agent searches";
            tool_count := Some (List.length commonTypes);
            tool_searchParams := None;
            tool_results := None;
            tool_placeDetails := None;
            tool_placeTypes := Some commonTypes;
            tool_usage :=
              Some "Use these types with find_nearby_places or as type filter in search_places" |}).

(** The [switch (name)] of the call handler. *)
Definition handler (w : World) (name : string) (args : value) : M ToolResponse :=
  if name =? "search_places" then handleSearchPlaces w args
  else if name =? "find_nearby_places" then handleFindNearbyPlaces w args
  else if name =? "get_place_details" then handleGetPlaceDetails w args
  else if name =? "get_place_types" then handleGetPlaceTypes
  else throw (Error ("Unknown tool: " ++ name)).

(** The handler registered for [CallToolRequestSchema]. Every thrown value
    is an [Error] instance, so [errorMessage] is its [message]. *)
Definition callTool (w : World) (name : string) (args : value) : M ToolResponse :=
  try_catch (handler w name args)
    (fun error =>
       let errorMessage := err_message error in
       ret {| content :=
                [ {| item_type := "text";
                     item_text :=
                       Plain ("Error executing " ++ name ++ ": " ++ errorMessage) |} ];
              isError := Some true |}).

End TalkForceMCPServer.

(* ------------------------------------------------------------------------- *)
(** ** Notions the statements below use *)
(* ------------------------------------------------------------------------- *)


Definition mediaPrefix : string := "https://places.googleapis.com/v1/".
Definition mediaSuffix : string := "/media?maxHeightPx=400&maxWidthPx=400&key=".

(** The provider sent no usable text: the member is missing or empty. *)
Definition missing (s : option string) : Prop := s = None \/ s = Some "".

(** The sequence a provider response carries in an optional member: none
    when the member is missing. *)
Definition sent {A} (member : option (list A)) : list A :=
  match member with
  | Some l => l
  | None => []
  end.

(** What detail normalisation [f] must do with the reviews and the photos
    of any place, whichever of the two the provider sent: keep the first
    five of each in provider order, re-shape each kept review, and turn each
    kept photo into its media URL. *)
Definition keeps_first_five
  (f : Env -> ProviderPlace.t -> PlaceDetails.t) : Prop :=
  forall (env : Env) (place : ProviderPlace.t),
    let rs := sent (ProviderPlace.reviews place) in
    let ps := sent (ProviderPlace.photos place) in
    exists (reviews : list Review.t) (photos : list string),
      PlaceDetails.reviews (f env place) = Some reviews
      /\ PlaceDetails.photos (f env place) = Some photos
      /\ List.length reviews = Nat.min 5 (List.length rs)
      /\ List.length photos = Nat.min 5 (List.length ps)
      /\ (forall i r, (i < 5)%nat -> nth_error rs i = Some r ->
            exists o,
              nth_error reviews i = Some o
              /\ Review.rating o = ProviderReview.rating r
              /\ Review.time o = ProviderReview.publishTime r
              /\ Review.text o =
                   match opt_chain (ProviderReview.text r) LocalizedText.text with
                   | Some t => t
                   | None => ""
                   end
              /\ (forall a,
                    opt_chain (ProviderReview.authorAttribution r)
                      AuthorAttribution.displayName = Some a ->
                    a <> "" -> Review.author o = a)
              /\ (missing (opt_chain (ProviderReview.authorAttribution r)
                             AuthorAttribution.displayName) ->
                  Review.author o = "Anonymous"))
      /\ (forall i ph nm key, (i < 5)%nat -> nth_error ps i = Some ph ->
            ProviderPhoto.name ph = Some nm -> nm <> "" ->
            GOOGLE_PLACES_API_KEY env = Some key ->
            nth_error photos i = Some (mediaPrefix ++ nm ++ mediaSuffix ++ key)).

(** Sample provider data: a review by [author], a photo called [name], and a
    place with eight reviews and nine photos. *)
Definition sampleReview (author : string) : ProviderReview.t :=
  ProviderReview.mk (Some 5) None
    (Some (AuthorAttribution.mk (Some author))) (Some "2024-01-01T00:00:00Z").

Definition samplePhoto (name : string) : ProviderPhoto.t :=
  ProviderPhoto.mk (Some name) None.

Definition samplePlace : ProviderPlace.t :=
  ProviderPlace.mk (Some "ChIJ123") (Some "places/ChIJ123")
    (Some (LocalizedText.mk (Some "Cafe"))) (Some "1 Main St")
    (Some (LatLng.mk (Some 40) (Some (-74)))) (Some 4) None
    (Some ["cafe"]) None None None
    (Some (map sampleReview ["a"; "b"; "c"; "d"; "e"; "f"; "g"; "h"]))
    (Some (map samplePhoto
             ["p1"; "p2"; "p3"; "p4"; "p5"; "p6"; "p7"; "p8"; "p9"])).

(** A place of which the provider sent nine photos and no reviews. *)
Definition photosOnlyPlace : ProviderPlace.t :=
  ProviderPlace.mk (Some "ChIJ456") None None None None None None None None
    None None None
    (Some (map samplePhoto
             ["p1"; "p2"; "p3"; "p4"; "p5"; "p6"; "p7"; "p8"; "p9"])).

Definition sampleEnv : Env := mkEnv (Some "KEY") None.

(** Sample clients: one for which the provider finds nothing, one whose every
    call fails with [e], one that answers every detail lookup with [place]. *)
Definition quietClient : PlacesClient.t :=
  PlacesClient.mk
    (fun _ _ => Return (SearchResponse.mk None))
    (fun _ _ => Return (SearchResponse.mk None))
    (fun _ _ => Return ProviderPlace.empty).

Definition failingClient (e : JS.error) : PlacesClient.t :=
  PlacesClient.mk (fun _ _ => Throw e) (fun _ _ => Throw e) (fun _ _ => Throw e).

Definition detailClient (place : ProviderPlace.t) : PlacesClient.t :=
  PlacesClient.mk
    (fun _ _ => Return (SearchResponse.mk None))
    (fun _ _ => Return (SearchResponse.mk None))
    (fun _ _ => Return place).

(** The host prints no digits here: number printing is left to the host. *)
Definition sampleWorld (c : PlacesClient.t) : World :=
  mkWorld sampleEnv c (fun _ => "n").

(** The radius of the restriction circle of a nearby-search call. *)
Definition nearby_radius (c : Call) : option value :=
  match c with
  | SearchNearby request _ =>
      Some (Circle.radius (Area.circle (NearbyRequest.locationRestriction request)))
  | _ => None
  end.


(** The error variant of a tool response. *)
Definition errorResponse (name message : string) : ToolResponse :=
  {| content :=
       [ {| item_type := "text";
            item_text := Plain ("Error executing " ++ name ++ ": " ++ message) |} ];
     isError := Some true |}.

Definition known_tool (name : string) : bool :=
  (name =? "search_places") || (name =? "find_nearby_places")
  || (name =? "get_place_details") || (name =? "get_place_types").

(** The answer of the last branch of [errorHandler]. *)
Definition is_internal_error (r : Response) : Prop :=
  status r = 500%nat
  /\ exists e, json r = Json e /\ success e = false
               /\ code e = Some "INTERNAL_ERROR".

(** A provider failure carrying both quota signals. *)
Definition quotaError : JS.error :=
  mkError "Error" "Resource exhausted: quota exceeded" (Some "OVER_QUERY_LIMIT").

Definition detailPath (placeId : string) : string := "/api/places/" ++ placeId.

(** The normalised results a response of either shell delivers. *)
Definition http_places (r : Response) : option (list PlaceSearchResult.t) :=
  match json r with
  | Json e => match data e with Some (PlaceList l) => Some l | _ => None end
  | _ => None
  end.

Definition http_details (r : Response) : option PlaceDetails.t :=
  match json r with
  | Json e => match data e with Some (Details d) => Some d | _ => None end
  | _ => None
  end.

Definition tool_envelope (o : outcome ToolResponse) : option ToolEnvelope :=
  match o with
  | Return r =>
      match content r with
      | [ {| item_type := _; item_text := Stringify e |} ] => Some e
      | _ => None
      end
  | Throw _ => None
  end.

Definition tool_places (o : outcome ToolResponse)
  : option (list PlaceSearchResult.t) :=
  opt_chain (tool_envelope o) tool_results.

Definition tool_details (o : outcome ToolResponse) : option PlaceDetails.t :=
  opt_chain (tool_envelope o) tool_placeDetails.

(** The same details with the photos cut to the first three. *)
Definition first_three_photos (d : PlaceDetails.t) : PlaceDetails.t :=
  {| PlaceDetails.id := PlaceDetails.id d;
     PlaceDetails.name := PlaceDetails.name d;
     PlaceDetails.address := PlaceDetails.address d;
     PlaceDetails.location := PlaceDetails.location d;
     PlaceDetails.rating := PlaceDetails.rating d;
     PlaceDetails.priceLevel := PlaceDetails.priceLevel d;
     PlaceDetails.types := PlaceDetails.types d;
     PlaceDetails.isOpen := PlaceDetails.isOpen d;
     PlaceDetails.phoneNumber := PlaceDetails.phoneNumber d;
     PlaceDetails.website := PlaceDetails.website d;
     PlaceDetails.openingHours := PlaceDetails.openingHours d;
     PlaceDetails.reviews := PlaceDetails.reviews d;
     PlaceDetails.photos := option_map (firstn 3) (PlaceDetails.photos d) |}.

Definition detailArgs (placeId : string) : value :=
  VObj [("placeId", VStr placeId)].

Definition nearbyPath : string := "/api/places/nearby".
Definition searchPath : string := "/api/places/search".
Definition typesPath : string := "/api/places/types".

Definition nearbyBody : value :=
  VObj [ ("location", VObj [("lat", VNum 40); ("lng", VNum (-74))]);
         ("type", VStr "restaurant") ].

(** The body of the scenario: latitude 200. *)
Definition farBody : value :=
  VObj [ ("location", VObj [("lat", VNum 200); ("lng", VNum 0)]);
         ("type", VStr "restaurant") ].

(** A latitude of 200 and no longitude. *)
Definition latitudeOnlyBody : value :=
  VObj [ ("location", VObj [("lat", VNum 200)]);
         ("type", VStr "restaurant") ].

Definition pizzaParams : value :=
  VObj [ ("query", VStr "pizza");
         ("location", VObj [("lat", VNum 40); ("lng", VNum (-74))]);
         ("type", VStr "restaurant") ].

(** Detail normalisation [f] always defines the three sequences, and they
    are empty when the provider sent none. *)
Definition always_arrays
  (f : Env -> ProviderPlace.t -> PlaceDetails.t) : Prop :=
  forall (env : Env) (place : ProviderPlace.t),
    exists (hours : list string) (reviews : list Review.t) (photos : list string),
      PlaceDetails.openingHours (f env place) = Some hours
      /\ PlaceDetails.reviews (f env place) = Some reviews
      /\ PlaceDetails.photos (f env place) = Some photos
      /\ (opt_chain (ProviderPlace.currentOpeningHours place)
            OpeningHours.weekdayDescriptions = None -> hours = [])
      /\ (ProviderPlace.reviews place = None -> reviews = [])
      /\ (ProviderPlace.photos place = None -> photos = []).

(* ------------------------------------------------------------------------- *)
(** ** What the validators accept, in words *)
(* ------------------------------------------------------------------------- *)

(** A string with something else than white space in it. *)
Definition filled_string (v : value) : Prop :=
  exists s, v = VStr s /\ trim s <> "".

(** An object with a numeric [lat] within [-90, 90] and a numeric [lng]
    within [-180, 180]. *)
Definition location_in_range (v : value) : Prop :=
  exists lat lng,
    get v "lat" = VNum lat /\ get v "lng" = VNum lng
    /\ (-90 <= lat)%Q /\ (lat <= 90)%Q /\ (-180 <= lng)%Q /\ (lng <= 180)%Q.

(** No radius, or a number above 0 and at most 50000. *)
Definition radius_in_range (v : value) : Prop :=
  v = VUndefined \/ exists r, v = VNum r /\ (0 < r)%Q /\ (r <= 50000)%Q.

(** A validator's rejection: status 400, [success: false], an error text and
    no code. *)
Definition is_rejection (r : Response) : Prop :=
  exists msg, r = failure 400 msg None None.

(** The signals [errorHandler] tests for. *)
Definition quota_signal (e : JS.error) : Prop :=
  includes (err_message e) "quota" = true \/ err_code e = Some "OVER_QUERY_LIMIT".

Definition key_signal (e : JS.error) : Prop :=
  includes (err_message e) "API key" = true \/ err_code e = Some "REQUEST_DENIED".

(** The [details] member of the envelope of a response, if any. *)
Definition response_details (r : Response) : option string :=
  match json r with
  | Json e => details e
  | _ => None
  end.

Definition missingKeyMessage : string :=
  "GOOGLE_PLACES_API_KEY environment variable is required".

(** The details without their photos. *)
Definition without_photos (d : PlaceDetails.t) : PlaceDetails.t :=
  {| PlaceDetails.id := PlaceDetails.id d;
     PlaceDetails.name := PlaceDetails.name d;
     PlaceDetails.address := PlaceDetails.address d;
     PlaceDetails.location := PlaceDetails.location d;
     PlaceDetails.rating := PlaceDetails.rating d;
     PlaceDetails.priceLevel := PlaceDetails.priceLevel d;
     PlaceDetails.types := PlaceDetails.types d;
     PlaceDetails.isOpen := PlaceDetails.isOpen d;
     PlaceDetails.phoneNumber := PlaceDetails.phoneNumber d;
     PlaceDetails.website := PlaceDetails.website d;
     PlaceDetails.openingHours := PlaceDetails.openingHours d;
     PlaceDetails.reviews := PlaceDetails.reviews d;
     PlaceDetails.photos := None |}.

(** An outcome that is a value, or one of the [allowed] errors. *)
Definition throws_only {A} (allowed : list JS.error) (o : outcome A) : Prop :=
  match o with
  | Return _ => True
  | Throw e => In e allowed
  end.

(** The restriction circle a nearby search sends for [location] and
    [radius]. *)
Definition restriction (location radius : value) : Area.t :=
  Area.mk
    (Circle.mk (Center.mk (get location "lat") (get location "lng")) radius).

(* ------------------------------------------------------------------------- *)
(** ** The tool listing *)
(* ------------------------------------------------------------------------- *)

(** One entry of the answer to [ListToolsRequestSchema]; the input schema is
    the JSON object the source writes. *)
Module Tool.
Record t := mk {
  name : string;
  description : string;
  inputSchema : value
}.
End Tool.

Definition quoted (s : string) : string := dquote ++ s ++ dquote.

(** The [lat] and [lng] members of a location schema. *)
Definition coordinateSchemas : value :=
  VObj [ ("lat", VObj [ ("type", VStr "number");
                        ("description", VStr "Latitude coordinate");
                        ("minimum", VNum (-90)); ("maximum", VNum 90) ]);
         ("lng", VObj [ ("type", VStr "number");
                        ("description", VStr "Longitude coordinate");
                        ("minimum", VNum (-180)); ("maximum", VNum 180) ]) ].

Definition radiusSchema : value :=
  VObj [ ("type", VStr "number");
         ("description", VStr "Search radius in meters (default: 5000, max: 50000)");
         ("minimum", VNum 1); ("maximum", VNum 50000) ].

(** The [tools] array of the listing handler. *)
Definition listTools : list Tool.t :=
  [ Tool.mk "search_places"
      "Search for places using natural language queries with optional location bias and filtering"
      (VObj [ ("type", VStr "object");
              ("properties",
               VObj [ ("query",
                       VObj [ ("type", VStr "string");
                              ("description",
                               VStr ("Natural language search query (e.g., "
                                       ++ quoted "best pizza near me" ++ ", "
                                       ++ quoted "coffee shops in downtown" ++ ")")) ]);
                      ("location",
                       VObj [ ("type", VStr "object");
                              ("description",
                               VStr "Optional location to bias search results");
                              ("properties", coordinateSchemas);
                              ("required", VArr [VStr "lat"; VStr "lng"]) ]);
                      ("radius", radiusSchema);
                      ("type",
                       VObj [ ("type", VStr "string");
                              ("description",
                               VStr ("Optional place type filter (e.g., "
                                       ++ quoted "restaurant" ++ ", "
                                       ++ quoted "gas_station" ++ ", "
                                       ++ quoted "hospital" ++ ")")) ]) ]);
              ("required", VArr [VStr "query"]) ]);
    Tool.mk "find_nearby_places"
      "Find places of a specific type within a radius of a given location"
      (VObj [ ("type", VStr "object");
              ("properties",
               VObj [ ("location",
                       VObj [ ("type", VStr "object");
                              ("description", VStr "Center location for the search");
                              ("properties", coordinateSchemas);
                              ("required", VArr [VStr "lat"; VStr "lng"]) ]);
                      ("type",
                       VObj [ ("type", VStr "string");
                              ("description",
                               VStr ("Type of place to search for (e.g., "
                                       ++ quoted "restaurant" ++ ", "
                                       ++ quoted "gas_station" ++ ", "
                                       ++ quoted "hospital" ++ ", "
                                       ++ quoted "pharmacy" ++ ")")) ]);
                      ("radius", radiusSchema) ]);
              ("required", VArr [VStr "location"; VStr "type"]) ]);
    Tool.mk "get_place_details"
      "Get comprehensive details about a specific place including contact info, reviews, photos, and hours"
      (VObj [ ("type", VStr "object");
              ("properties",
               VObj [ ("placeId",
                       VObj [ ("type", VStr "string");
                              ("description",
                               VStr "Unique identifier for the place (obtained from search results)") ]) ]);
              ("required", VArr [VStr "placeId"]) ]);
    Tool.mk "get_place_types"
      "Get a list of all supported place types for searching"
      (VObj [ ("type", VStr "object"); ("properties", VObj []) ]) ].

(** The request object the search tool ends up sending for its arguments. *)
Definition toolSearchRequest (args : value) : TextSearchRequest.t :=
  {| TextSearchRequest.textQuery := get args "query";
     TextSearchRequest.maxResultCount := 10;
     TextSearchRequest.locationBias :=
       if truthy (get args "location")
       then Some (restriction (get args "location")
                    (or (get args "radius") (VNum 5000)))
       else None;
     TextSearchRequest.includedType :=
       if truthy (get args "type") then Some (get args "type") else None |}.

(** The envelope of the type tool. *)
Definition typesEnvelope : ToolEnvelope :=
  {| tool_success := true;
     tool_message := "Available place types for AI agent searches";
     tool_count := Some 29%nat;
     tool_searchParams := None;
     tool_results := None;
     tool_placeDetails := None;
     tool_placeTypes := Some commonTypes;
     tool_usage :=
       Some "Use these types with find_nearby_places or as type filter in search_places" |}.



(* ------------------------------------------------------------------------- *)
(** ** The browser client: type labels, form bodies, the result panes *)
(* ------------------------------------------------------------------------- *)

Module Client.

(** [\w] of a regular expression without the unicode flag. *)
Definition is_word (c : ascii) : bool :=
  let n := nat_of_ascii c in
  ((48 <=? n) && (n <=? 57) || (65 <=? n) && (n <=? 90)
   || (97 <=? n) && (n <=? 122) || (n =? 95))%nat.

(** [l.toUpperCase()] of one matched character. *)
Definition upper_ascii (c : ascii) : ascii :=
  let n := nat_of_ascii c in
  if ((97 <=? n) && (n <=? 122))%nat then ascii_of_nat (n - 32) else c.

(** [s.replace(/_/g, ' ')] *)
Fixpoint replace_underscores (s : string) : string :=
  match s with
  | EmptyString => EmptyString
  | String c rest =>
      String (if Ascii.eqb c "_" then " "%char else c) (replace_underscores rest)
  end.

(** [s.replace(/\b\w/g, l => l.toUpperCase())]: a word character is at a
    word boundary when the character before it, if any, is not a word
    character. [after_word] tells whether the previous character was one. *)
Fixpoint capitalize_words (after_word : bool) (s : string) : string :=
  match s with
  | EmptyString => EmptyString
  | String c rest =>
      String (if is_word c && negb after_word then upper_ascii c else c)
        (capitalize_words (is_word c) rest)
  end.

Definition formatPlaceType (type : string) : string :=
  capitalize_words false (replace_underscores type).

(** [parseFloat(v) || null] and [parseInt(v) || null] on the parsed number
    ([None] is NaN): NaN and 0 both give null. *)
Definition or_null (parsed : option Q) : option Q :=
  match parsed with
  | Some q => if truthy_num q then Some q else None
  | None => None
  end.

(** [handleSearch] between reading the form and sending the request: the
    body it posts to [/api/places/search], or [None] when it shows 'Please
    enter a search query' and sends nothing. Its arguments are the value of
    the query field, what [parseFloat] and [parseInt] make of the latitude,
    longitude and radius fields, and the value of the type select. *)
Definition searchBody (queryField : string)
  (latParsed lngParsed radiusParsed : option Q) (typeField : string)
  : option value :=
  let query := trim queryField in
  let lat := or_null latParsed in
  let lng := or_null lngParsed in
  let radius := or_null radiusParsed in
  if negb (truthy_str query) then None
  else
    Some (VObj
            ([("query", VStr query)]
             ++ match lat, lng with
                | Some la, Some ln =>
                    [("location", VObj [("lat", VNum la); ("lng", VNum ln)])]
                | _, _ => []
                end
             ++ match radius with
                | Some r => [("radius", VNum r)]
                | None => []
                end
             ++ (if truthy_str typeField then [("type", VStr typeField)] else []))%list).

(** [handleNearbySearch] likewise: the body it posts to
    [/api/places/nearby], or [None] when it shows an error and sends
    nothing. *)
Definition nearbyBody (latParsed lngParsed : option Q) (typeField : string)
  (radiusParsed : option Q) : option value :=
  let radius := match or_null radiusParsed with Some r => r | None => 5000 end in
  match latParsed, lngParsed with
  | Some lat, Some lng =>
      if negb (truthy_str typeField) then None
      else
        Some (VObj [ ("location", VObj [("lat", VNum lat); ("lng", VNum lng)]);
                     ("type", VStr typeField);
                     ("radius", VNum radius) ])
  | _, _ => None
  end.

(** The two panes and the toggle button. A pane is hidden when its element
    carries the class [hidden]. The markup shown in the result pane is kept
    as text, the welcome markup of [clearResults] as a token. *)
Inductive View := formatted | json.

Inductive Markup := Html (s : string) | Welcome.

Record Page := mkPage {
  currentView : View;
  resultsHidden : bool;
  rawHidden : bool;
  loadingHidden : bool;
  resultsMarkup : Markup;
  rawText : string;
  toggleLabel : string;
  toggleIcon : string
}.

Definition updateToggleButton (p : Page) : Page :=
  match currentView p with
  | formatted =>
      mkPage (currentView p) (resultsHidden p) (rawHidden p) (loadingHidden p)
        (resultsMarkup p) (rawText p) "Show Raw JSON" "fas fa-code"
  | json =>
      mkPage (currentView p) (resultsHidden p) (rawHidden p) (loadingHidden p)
        (resultsMarkup p) (rawText p) "Show Formatted" "fas fa-eye"
  end.

Definition showResults (html : string) (p : Page) : Page :=
  updateToggleButton
    (mkPage formatted (resultsHidden p) true (loadingHidden p) (Html html)
       (rawText p) (toggleLabel p) (toggleIcon p)).

Definition toggleResultView (p : Page) : Page :=
  match currentView p with
  | formatted =>
      updateToggleButton
        (mkPage json true false (loadingHidden p) (resultsMarkup p) (rawText p)
           (toggleLabel p) (toggleIcon p))
  | json =>
      updateToggleButton
        (mkPage formatted false true (loadingHidden p) (resultsMarkup p)
           (rawText p) (toggleLabel p) (toggleIcon p))
  end.

Definition clearResults (p : Page) : Page :=
  updateToggleButton
    (mkPage formatted (resultsHidden p) true (loadingHidden p) Welcome ""
       (toggleLabel p) (toggleIcon p)).

Definition showLoading (p : Page) : Page :=
  mkPage (currentView p) (resultsHidden p) (rawHidden p) false (Html "")
    (rawText p) (toggleLabel p) (toggleIcon p).

Definition hideLoading (p : Page) : Page :=
  mkPage (currentView p) (resultsHidden p) (rawHidden p) true (resultsMarkup p)
    (rawText p) (toggleLabel p) (toggleIcon p).

(** [updateRawJson(data)], with the serialised data as its argument. *)
Definition updateRawJson (text : string) (p : Page) : Page :=
  mkPage (currentView p) (resultsHidden p) (rawHidden p) (loadingHidden p)
    (resultsMarkup p) text (toggleLabel p) (toggleIcon p).

(** The page shows exactly the pane of its current view, and the button
    offers the other one. *)
Definition coherent (p : Page) : Prop :=
  match currentView p with
  | formatted =>
      resultsHidden p = false /\ rawHidden p = true
      /\ toggleLabel p = "Show Raw JSON" /\ toggleIcon p = "fas fa-code"
  | json =>
      resultsHidden p = true /\ rawHidden p = false
      /\ toggleLabel p = "Show Formatted" /\ toggleIcon p = "fas fa-eye"
  end.

(** A parsed field the forms cannot use with [|| null]: NaN, or a number
    equal to 0. *)
Definition unusable (parsed : option Q) : Prop :=
  parsed = None \/ exists q, parsed = Some q /\ (q == 0)%Q.

(** What a form handler does to the page around a request that is answered:
    [showLoading], then [handleApiResponse] ([updateRawJson] with the
    serialised answer, and [showResults] with the markup made of it, an error
    card included), then [hideLoading]. *)
Definition requestCycle (text html : string) (p : Page) : Page :=
  hideLoading (showResults html (updateRawJson text (showLoading p))).

(** A page in the JSON view, as [toggleResultView] leaves it. *)
Definition jsonPage : Page :=
  mkPage json true false true (Html "old") "{}" "Show Formatted" "fas fa-eye".

End Client.

(* ------------------------------------------------------------------------- *)
(** ** The application revision that also serves the front end *)
(* ------------------------------------------------------------------------- *)

(** What that revision can send besides API responses: a file found by
    [express.static] under [public], [public/index.html] from its last
    route, or the 400 of the framework for an error no layer handles. *)
Inductive FrontendResponse :=
| Api (r : Response)
| StaticFile (file : string)
| IndexHtml
| BadRequest.

(** The stack of that revision: [express.static] first, then the health
    check, the mounted router and the error handler, and last
    [app.get('*')]. [static] is [express.static] as an oracle: what it
    answers a [GET] of the path with, when it answers at all. The layer of
    the last route takes every path and decodes it as its one parameter,
    before the method is looked at; [errorHandler] is registered before it,
    so the error of a path that does not decode is left to the framework. *)
Definition appWithFrontend (static : string -> option string)
  (w : World) (req : Request) : list Call * FrontendResponse :=
  let segs := segments (path req) in
  match method req, static (path req) with
  | GET, Some file => ([], StaticFile file)
  | _, _ =>
      match method req, match_path [Lit "health"] segs with
      | GET, Matches _ => ([], Api (mkResponse 200 Health))
      | _, _ =>
          match opt_chain (under_mount segs) (dispatch placesRouter w req) with
          | Some handler =>
              let (calls, response) := serve w handler in (calls, Api response)
          | None =>
              match decode_param (path req), method req with
              | Throw _, _ => ([], BadRequest)
              | Return _, GET => ([], IndexHtml)
              | Return _, POST => ([], Api (mkResponse 404 NotFound))
              end
          end
      end
  end.

(** A no-break space, U+00A0. *)
Definition nbsp : string :=
  String (ascii_of_nat 194) (String (ascii_of_nat 160) EmptyString).

(** A search body with a radius of half a metre, and a world in development
    mode. *)
Definition halfMetreBody : value :=
  VObj [("query", VStr "pizza"); ("radius", VNum (1 # 2))].

Definition devWorld : World :=
  mkWorld (mkEnv (Some "KEY") (Some "development")) quietClient (fun _ => "n").

(* ------------------------------------------------------------------------- *)
(** ** Properties of the inbound mapping *)
(* ------------------------------------------------------------------------- *)

Section StringFacts.

Lemma truthy_str_true (s : string) : s <> "" -> truthy_str s = true.
Proof.
  intros H. unfold truthy_str. apply negb_true_iff. now apply String.eqb_neq.
Qed.

Lemma truthy_str_empty : truthy_str "" = false.
Proof. reflexivity. Qed.

Lemma truthy_str_inv (s : string) : truthy_str s = true -> s <> "".
Proof.
  unfold truthy_str. intros H. apply negb_true_iff in H.
  now apply String.eqb_neq.
Qed.


Lemma pop_cons {A} (x : A) (l : list A) : exists y, pop (x :: l) = Some y.
Proof.
  revert x. induction l as [|z l IH]; intros x.
  - now exists x.
  - destruct (IH z) as [y Hy]. exists y. exact Hy.
Qed.





End StringFacts.

Section Decoding.

Lemma includes_percent_cons (c : ascii) (s : string) :
  includes (String c s) "%" = false ->
  Ascii.eqb c "%" = false /\ includes s "%" = false.
Proof.
  cbn [includes]. intros H. apply orb_false_iff in H. destruct H as [Hp Hs].
  split; [|exact Hs]. cbn [String.prefix] in Hp.
  destruct (ascii_dec "%" c) as [E|E].
  - now destruct s.
  - apply Ascii.eqb_neq. congruence.
Qed.

(** A component without any escape is its own decoding. *)
Lemma decodeURIComponent_plain (s : string) :
  includes s "%" = false -> decodeURIComponent s = Some s.
Proof.
  unfold decodeURIComponent.
  induction s as [|c rest IH]; [reflexivity|].
  intros H. apply includes_percent_cons in H. destruct H as [Hc Hr].
  specialize (IH Hr). cbn [escapes]. rewrite Hc.
  destruct (escapes rest) as [units|]; [|discriminate IH].
  cbn [option_map opt_chain unescape] in *. now rewrite IH.
Qed.

Lemma decode_param_decoded (seg v : string) :
  decodeURIComponent seg = Some v -> decode_param seg = Return v.
Proof. unfold decode_param. now intros ->. Qed.

Lemma decode_param_undecodable (seg : string) :
  decodeURIComponent seg = None ->
  decode_param seg = Throw (URIError ("Failed to decode param '" ++ seg ++ "'")).
Proof. unfold decode_param. now intros ->. Qed.

(** Only the empty component decodes to the empty string. *)
Lemma decoded_empty (seg v : string) :
  decodeURIComponent seg = Some v -> v <> "" -> seg <> "".
Proof. intros H Hv ->. now injection H as <-. Qed.

End Decoding.

Section InboundMapping.

Import PlacesService.

Lemma formatSearchResults_length (places : list ProviderPlace.t) :
  List.length (formatSearchResults places) = List.length places.
Proof. unfold formatSearchResults. apply length_map. Qed.

Lemma nth_error_map_slice0 {A B} (f : A -> B) (n i : nat) (l : list A) (x : A) :
  (i < n)%nat -> nth_error l i = Some x ->
  nth_error (map f (slice0 n l)) i = Some (f x).
Proof.
  intros Hi Hx. unfold slice0.
  rewrite nth_error_map, nth_error_firstn.
  apply Nat.ltb_lt in Hi. now rewrite Hi, Hx.
Qed.

Lemma length_map_slice0 {A B} (f : A -> B) (n : nat) (l : list A) :
  List.length (map f (slice0 n l)) = Nat.min n (List.length l).
Proof. unfold slice0. now rewrite length_map, length_firstn. Qed.

Lemma or_default_filled (s : option string) (d t : string) :
  s = Some t -> t <> "" -> or_default truthy_str s d = t.
Proof. intros -> H. simpl. now rewrite truthy_str_true. Qed.

Lemma or_default_missing (s : option string) (d : string) :
  missing s -> or_default truthy_str s d = d.
Proof. now intros [-> | ->]. Qed.







(** The reviews and the photos a place is normalised to, whichever members
    the provider sent. *)
Lemma formatPlaceDetails_members (env : Env) (place : ProviderPlace.t) :
  PlaceDetails.reviews (formatPlaceDetails env place)
    = Some (map formatReview (slice0 5 (sent (ProviderPlace.reviews place))))
  /\ PlaceDetails.photos (formatPlaceDetails env place)
    = Some (map (formatPhoto env) (slice0 5 (sent (ProviderPlace.photos place)))).
Proof.
  unfold formatPlaceDetails; cbn [PlaceDetails.reviews PlaceDetails.photos].
  now destruct (ProviderPlace.reviews place), (ProviderPlace.photos place).
Qed.

Lemma eager_formatPlaceDetails_members (env : Env) (place : ProviderPlace.t) :
  PlaceDetails.reviews (EagerPlacesService.formatPlaceDetails env place)
    = Some (map formatReview (slice0 5 (sent (ProviderPlace.reviews place))))
  /\ PlaceDetails.photos (EagerPlacesService.formatPlaceDetails env place)
    = Some (map (EagerPlacesService.formatPhoto env)
              (slice0 5 (sent (ProviderPlace.photos place)))).
Proof.
  unfold EagerPlacesService.formatPlaceDetails;
    cbn [PlaceDetails.reviews PlaceDetails.photos].
  now destruct (ProviderPlace.reviews place), (ProviderPlace.photos place).
Qed.

(** A kept review, re-shaped. *)
Lemma formatReview_shape (r : ProviderReview.t) :
  Review.rating (formatReview r) = ProviderReview.rating r
  /\ Review.time (formatReview r) = ProviderReview.publishTime r
  /\ Review.text (formatReview r) =
       match opt_chain (ProviderReview.text r) LocalizedText.text with
       | Some t => t
       | None => ""
       end
  /\ (forall a,
        opt_chain (ProviderReview.authorAttribution r)
          AuthorAttribution.displayName = Some a ->
        a <> "" -> Review.author (formatReview r) = a)
  /\ (missing (opt_chain (ProviderReview.authorAttribution r)
                 AuthorAttribution.displayName) ->
      Review.author (formatReview r) = "Anonymous").
Proof.
  unfold formatReview; cbn [Review.rating Review.time Review.text Review.author].
  repeat split.
  - destruct (opt_chain (ProviderReview.text r) LocalizedText.text) as [t|];
      [|reflexivity].
    simpl. destruct (truthy_str t) eqn:E; [reflexivity|].
    unfold truthy_str in E. apply negb_false_iff in E.
    now apply String.eqb_eq in E.
  - intros a Ha Hne. now apply or_default_filled.
  - apply or_default_missing.
Qed.

Lemma formatPlaceDetails_keeps_first_five :
  keeps_first_five PlacesService.formatPlaceDetails.
Proof.
  intros env place rs ps.
  destruct (formatPlaceDetails_members env place) as [Hr Hp].
  exists (map formatReview (slice0 5 rs)), (map (formatPhoto env) (slice0 5 ps)).
  split; [exact Hr|]. split; [exact Hp|].
  split; [apply length_map_slice0|]. split; [apply length_map_slice0|].
  split.
  - intros i r Hi Hnth. exists (formatReview r).
    split; [now apply nth_error_map_slice0|]. apply formatReview_shape.
  - intros i ph nm key Hi Hph Hnm Hne Hkey.
    rewrite (nth_error_map_slice0 _ _ _ _ _ Hi Hph).
    unfold formatPhoto, mediaUrl. rewrite Hnm, Hkey. simpl or_else.
    now rewrite (truthy_str_true _ Hne).
Qed.

Lemma eager_formatPlaceDetails_keeps_first_five :
  keeps_first_five EagerPlacesService.formatPlaceDetails.
Proof.
  intros env place rs ps.
  destruct (eager_formatPlaceDetails_members env place) as [Hr Hp].
  exists (map formatReview (slice0 5 rs)),
         (map (EagerPlacesService.formatPhoto env) (slice0 5 ps)).
  split; [exact Hr|]. split; [exact Hp|].
  split; [apply length_map_slice0|]. split; [apply length_map_slice0|].
  split.
  - intros i r Hi Hnth. exists (formatReview r).
    split; [now apply nth_error_map_slice0|]. apply formatReview_shape.
  - intros i ph nm key Hi Hph Hnm Hne Hkey.
    rewrite (nth_error_map_slice0 _ _ _ _ _ Hi Hph).
    unfold EagerPlacesService.formatPhoto, mediaUrl. now rewrite Hnm, Hkey.
Qed.

Lemma formatPlaceDetails_always_arrays :
  always_arrays PlacesService.formatPlaceDetails.
Proof.
  intros env place.
  unfold formatPlaceDetails;
    cbn [PlaceDetails.openingHours PlaceDetails.reviews PlaceDetails.photos].
  destruct (opt_chain (ProviderPlace.currentOpeningHours place)
              OpeningHours.weekdayDescriptions) as [h|];
    destruct (ProviderPlace.reviews place) as [rs|];
    destruct (ProviderPlace.photos place) as [ps|];
    cbn [opt_chain or_else always];
    eexists; eexists; eexists;
    (split; [reflexivity|]); (split; [reflexivity|]); (split; [reflexivity|]);
    repeat split; intros; congruence.
Qed.

Lemma eager_formatPlaceDetails_always_arrays :
  always_arrays EagerPlacesService.formatPlaceDetails.
Proof.
  intros env place.
  unfold EagerPlacesService.formatPlaceDetails;
    cbn [PlaceDetails.openingHours PlaceDetails.reviews PlaceDetails.photos].
  destruct (opt_chain (ProviderPlace.currentOpeningHours place)
              OpeningHours.weekdayDescriptions) as [h|];
    destruct (ProviderPlace.reviews place) as [rs|];
    destruct (ProviderPlace.photos place) as [ps|];
    cbn [opt_chain or_else always];
    eexists; eexists; eexists;
    (split; [reflexivity|]); (split; [reflexivity|]); (split; [reflexivity|]);
    repeat split; intros; congruence.
Qed.

(** C5: in both revisions of the service, and for every place the provider
    answers with, detail normalisation keeps the first [min 5 n] of its [n]
    reviews and the first [min 5 m] of its [m] photos in provider order,
    whichever of the two members the provider sent; a kept review carries the
    provider's rating and time, its text or the empty string, its author or
    "Anonymous"; a kept photo is the media URL made of the photo resource
    name, the 400-pixel bounds and the service credential. *)
Theorem formatPlaceDetails_truncates :
  keeps_first_five PlacesService.formatPlaceDetails
  /\ keeps_first_five EagerPlacesService.formatPlaceDetails.
Proof.
  split.
  - exact formatPlaceDetails_keeps_first_five.
  - exact eager_formatPlaceDetails_keeps_first_five.
Qed.

(** Eight reviews and nine photos come out as five and five; nine photos
    without reviews come out as five photos and no review. *)
Lemma formatPlaceDetails_truncates_witness :
  (exists reviews photos,
      PlaceDetails.reviews (PlacesService.formatPlaceDetails sampleEnv samplePlace)
        = Some reviews
      /\ PlaceDetails.photos (PlacesService.formatPlaceDetails sampleEnv samplePlace)
        = Some photos
      /\ List.length reviews = 5%nat
      /\ List.length photos = 5%nat
      /\ nth_error photos 0
         = Some "https://places.googleapis.com/v1/p1/media?maxHeightPx=400&maxWidthPx=400&key=KEY")
  /\ (exists reviews photos,
        PlaceDetails.reviews
          (PlacesService.formatPlaceDetails sampleEnv photosOnlyPlace) = Some reviews
        /\ PlaceDetails.photos
             (PlacesService.formatPlaceDetails sampleEnv photosOnlyPlace) = Some photos
        /\ List.length reviews = 0%nat
        /\ List.length photos = 5%nat
        /\ nth_error photos 4
           = Some "https://places.googleapis.com/v1/p5/media?maxHeightPx=400&maxWidthPx=400&key=KEY").
Proof.
  split.
  - destruct (proj1 formatPlaceDetails_truncates sampleEnv samplePlace)
      as (reviews & photos & Hr & Hp & Hlr & Hlp & _ & Hurl).
    exists reviews, photos.
    split; [exact Hr|]. split; [exact Hp|].
    split; [exact Hlr|]. split; [exact Hlp|].
    apply (Hurl 0%nat (samplePhoto "p1") "p1" "KEY").
    + lia.
    + reflexivity.
    + reflexivity.
    + discriminate.
    + reflexivity.
  - destruct (proj1 formatPlaceDetails_truncates sampleEnv photosOnlyPlace)
      as (reviews & photos & Hr & Hp & Hlr & Hlp & _ & Hurl).
    exists reviews, photos.
    split; [exact Hr|]. split; [exact Hp|].
    split; [exact Hlr|]. split; [exact Hlp|].
    apply (Hurl 4%nat (samplePhoto "p5") "p5" "KEY").
    + lia.
    + reflexivity.
    + reflexivity.
    + discriminate.
    + reflexivity.
Defined.

(** C10: in both revisions, [openingHours], [reviews] and [photos] of the
    normalised details are always defined, and are empty sequences when the
    provider sent no hours, reviews or photos. *)
Theorem formatPlaceDetails_defines_arrays :
  always_arrays PlacesService.formatPlaceDetails
  /\ always_arrays EagerPlacesService.formatPlaceDetails.
Proof.
  split.
  - exact formatPlaceDetails_always_arrays.
  - exact eager_formatPlaceDetails_always_arrays.
Qed.

(** A place without any field gets three empty sequences. *)
Lemma formatPlaceDetails_defines_arrays_witness :
  exists hours reviews photos,
    PlaceDetails.openingHours
      (PlacesService.formatPlaceDetails sampleEnv ProviderPlace.empty) = Some hours
    /\ PlaceDetails.reviews
         (PlacesService.formatPlaceDetails sampleEnv ProviderPlace.empty) = Some reviews
    /\ PlaceDetails.photos
         (PlacesService.formatPlaceDetails sampleEnv ProviderPlace.empty) = Some photos
    /\ hours = [] /\ reviews = [] /\ photos = [].
Proof.
  destruct (proj1 formatPlaceDetails_defines_arrays sampleEnv ProviderPlace.empty)
    as (hours & reviews & photos & Hh & Hr & Hp & Eh & Er & Ep).
  exists hours, reviews, photos.
  split; [exact Hh|]. split; [exact Hr|]. split; [exact Hp|].
  split; [apply Eh; reflexivity|].
  split; [apply Er; reflexivity|apply Ep; reflexivity].
Defined.

End InboundMapping.

(* ------------------------------------------------------------------------- *)
(** ** Properties of the outbound mapping *)
(* ------------------------------------------------------------------------- *)

Section OutboundMapping.

Lemma get_strict_ok (v : value) (k : string) :
  nullish v = false -> get_strict v k = Return (get v k).
Proof. now destruct v. Qed.

Lemma get_strict_nullish (v : value) (k : string) :
  nullish v = true -> exists e, get_strict v k = Throw e.
Proof. destruct v; try discriminate; intros _; eexists; reflexivity. Qed.

(** One run of [searchPlaces] on an object: one provider call, carrying the
    request object; the answer is formatted, a failure is replaced. *)
Lemma searchPlaces_run (this : PlacesService.t) (params : value) :
  nullish params = false ->
  run (PlacesService.searchPlaces this params)
  = ( [ SearchText (PlacesService.textSearchRequest params)
          (Some PlacesService.searchFieldMask) ],
      match PlacesClient.searchText (PlacesService.placesClient this)
              (PlacesService.textSearchRequest params)
              (Some PlacesService.searchFieldMask) with
      | Return response =>
          Return (PlacesService.formatSearchResults
                    (or_default always (SearchResponse.places response) []))
      | Throw _ => Throw (Error "Failed to search places")
      end ).
Proof.
  intros Hp.
  unfold run, PlacesService.searchPlaces, try_catch, bind, lift, perform, ret,
    throw.
  rewrite !(get_strict_ok _ _ Hp). cbn [List.app].
  now destruct (PlacesClient.searchText _ _ _).
Qed.

Lemma eager_searchPlaces_run (this : PlacesService.t) (params : value) :
  nullish params = false ->
  fst (run (EagerPlacesService.searchPlaces this params))
  = [ SearchText (PlacesService.textSearchRequest params) None ].
Proof.
  intros Hp.
  unfold run, EagerPlacesService.searchPlaces, try_catch, bind, lift, perform,
    ret, throw.
  rewrite (get_strict_ok _ _ Hp). cbn [List.app].
  now destruct (PlacesClient.searchText _ _ _).
Qed.

(** C6: [searchPlaces] (both revisions) makes one text-search call whose
    request carries the query and [maxResultCount] 10; without a location
    it has no location bias; with a location it has a bias circle centred
    on it, of the given radius, or 5000 when the radius is omitted; with a
    type it has the type filter. *)
Theorem searchPlaces_request (this : PlacesService.t) (params : value) :
  nullish params = false ->
  let request := PlacesService.textSearchRequest params in
  fst (run (PlacesService.searchPlaces this params))
    = [ SearchText request (Some PlacesService.searchFieldMask) ]
  /\ fst (run (EagerPlacesService.searchPlaces this params))
    = [ SearchText request None ]
  /\ TextSearchRequest.textQuery request = get params "query"
  /\ TextSearchRequest.maxResultCount request = 10%Z
  /\ (get params "location" = VUndefined ->
      TextSearchRequest.locationBias request = None)
  /\ (forall fields, get params "location" = VObj fields ->
      exists c,
        TextSearchRequest.locationBias request = Some (Area.mk c)
        /\ Center.latitude (Circle.center c) = assoc "lat" fields
        /\ Center.longitude (Circle.center c) = assoc "lng" fields
        /\ (get params "radius" = VUndefined -> Circle.radius c = VNum 5000)
        /\ (forall r, get params "radius" = VNum r -> Circle.radius c = VNum r))
  /\ (forall t, get params "type" = VStr t -> t <> "" ->
      TextSearchRequest.includedType request = Some (VStr t)).
Proof.
  intros Hp request.
  split; [unfold request; now rewrite searchPlaces_run|].
  split; [now apply eager_searchPlaces_run|].
  split; [reflexivity|]. split; [reflexivity|].
  unfold request, PlacesService.textSearchRequest;
    cbn [TextSearchRequest.locationBias TextSearchRequest.includedType].
  split; [|split].
  - now intros ->.
  - intros fields ->. cbn [truthy]. eexists. split; [reflexivity|].
    cbn [Circle.center Circle.radius Center.latitude Center.longitude get].
    split; [reflexivity|]. split; [reflexivity|].
    split; [now intros ->|now intros r ->].
  - intros t -> Hne. cbn [truthy]. now rewrite truthy_str_true.
Qed.

(** A query around a point, without a radius, with a type. *)
Lemma searchPlaces_request_witness :
  fst (run (PlacesService.searchPlaces (PlacesService.mk quietClient) pizzaParams))
  = [ SearchText
        {| TextSearchRequest.textQuery := VStr "pizza";
           TextSearchRequest.maxResultCount := 10;
           TextSearchRequest.locationBias :=
             Some (Area.mk (Circle.mk (Center.mk (VNum 40) (VNum (-74)))
                              (VNum 5000)));
           TextSearchRequest.includedType := Some (VStr "restaurant") |}
        (Some PlacesService.searchFieldMask) ].
Proof.
  exact (proj1 (searchPlaces_request (PlacesService.mk quietClient) pizzaParams
                  eq_refl)).
Defined.

End OutboundMapping.

(* ------------------------------------------------------------------------- *)
(** ** Properties of nearby search on the three surfaces *)
(* ------------------------------------------------------------------------- *)

Section NearbySearch.

Lemma get_object (v : value) (k : string) :
  nullish (get v k) = false -> exists fields, v = VObj fields.
Proof. destruct v; try discriminate. intros _. now eexists. Qed.

Lemma truthy_not_nullish (v : value) : truthy v = true -> nullish v = false.
Proof. now destruct v. Qed.

Lemma default_5000_idem (radius : value) :
  PlacesService.default_5000 (PlacesService.default_5000 radius)
  = PlacesService.default_5000 radius.
Proof. now destruct radius. Qed.

Lemma default_5000_or (radius : value) :
  PlacesService.default_5000 (or radius (VNum 5000)) = or radius (VNum 5000).
Proof.
  unfold or. destruct (truthy radius) eqn:E; [|reflexivity].
  now destruct radius.
Qed.

(** One run of [findNearbyPlaces] on a location that is not null or
    undefined: one provider call with the restriction circle. *)
Lemma findNearbyPlaces_run (this : PlacesService.t) (location type radius : value) :
  nullish location = false ->
  exists request,
    PlacesService.nearbyRequest location type (PlacesService.default_5000 radius)
      = Return request
    /\ Circle.radius (Area.circle (NearbyRequest.locationRestriction request))
       = PlacesService.default_5000 radius
    /\ run (PlacesService.findNearbyPlaces this location type radius)
       = ( [ SearchNearby request (Some PlacesService.searchFieldMask) ],
           match PlacesClient.searchNearby (PlacesService.placesClient this)
                   request (Some PlacesService.searchFieldMask) with
           | Return response =>
               Return (PlacesService.formatSearchResults
                         (or_default always (SearchResponse.places response) []))
           | Throw _ => Throw (Error "Failed to find nearby places")
           end ).
Proof.
  intros Hl.
  unfold run, PlacesService.findNearbyPlaces, PlacesService.nearbyRequest,
    try_catch, bind, lift, perform, ret, throw.
  rewrite !(get_strict_ok _ _ Hl).
  eexists. split; [reflexivity|]. split; [reflexivity|].
  cbn [List.app]. now destruct (PlacesClient.searchNearby _ _ _).
Qed.

Lemma findNearbyPlaces_calls (this : PlacesService.t) (location type radius : value) :
  nullish location = false ->
  map nearby_radius
    (fst (run (PlacesService.findNearbyPlaces this location type radius)))
  = [ Some (PlacesService.default_5000 radius) ].
Proof.
  intros Hl.
  destruct (findNearbyPlaces_run this location type radius Hl)
    as (request & _ & Hr & ->).
  cbn [fst map nearby_radius]. now rewrite Hr.
Qed.

(** The exported method is the instance method once the instance exists. *)
Lemma proxy_findNearbyPlaces (w : World) (this : PlacesService.t)
  (location type radius : value) :
  PlacesService.constructor w = Return this ->
  run (placesService.findNearbyPlaces w location type radius)
  = run (PlacesService.findNearbyPlaces this location type radius).
Proof.
  intros Hc.
  unfold run, placesService.findNearbyPlaces, placesService.instance, bind, lift.
  rewrite Hc. unfold PlacesService.findNearbyPlaces.
  now rewrite default_5000_idem.
Qed.

Lemma app_nearby (w : World) (body : value) :
  app w (mkRequest POST nearbyPath body)
  = serve w (Routes.nearby w (mkRequest POST nearbyPath body)).
Proof. reflexivity. Qed.

Lemma validateLocationParams_location (body : value) :
  validateLocationParams body = None ->
  isValidLocation (get body "location") = true.
Proof.
  unfold validateLocationParams.
  destruct (isValidLocation (get body "location")); [reflexivity|].
  now rewrite orb_true_r.
Qed.

Lemma isValidLocation_truthy (location : value) :
  isValidLocation location = true -> truthy location = true.
Proof.
  unfold isValidLocation. intros H.
  repeat (apply andb_true_iff in H; destruct H as [H _]). exact H.
Qed.

(** A nearby request that passed validation makes the adapter call with
    the validated members. *)
Lemma nearby_route_calls (w : World) (this : PlacesService.t) (b : value) :
  PlacesService.constructor w = Return this ->
  validateLocationParams b = None ->
  map nearby_radius (fst (app w (mkRequest POST nearbyPath b)))
  = [ Some (PlacesService.default_5000 (get b "radius")) ].
Proof.
  intros Hc Hv. rewrite app_nearby.
  pose proof (truthy_not_nullish _
                (isValidLocation_truthy _ (validateLocationParams_location _ Hv)))
    as Hl.
  pose proof (findNearbyPlaces_calls this (get b "location") (get b "type")
                (PlacesService.default_5000 (get b "radius")) Hl) as Hcalls.
  rewrite default_5000_idem in Hcalls.
  rewrite <- (proxy_findNearbyPlaces w this _ _ _ Hc) in Hcalls.
  unfold serve, Routes.nearby. cbn [body]. rewrite Hv.
  unfold run, bind in *.
  destruct (placesService.findNearbyPlaces w _ _ _ [])
    as [calls [results|e]]; cbn [fst] in Hcalls.
  - unfold lift, ret.
    destruct (ToString (Number_toString w) (get b "type")); exact Hcalls.
  - exact Hcalls.
Qed.

Lemma tool_nearby_calls (w : World) (this : PlacesService.t) (args : value) :
  PlacesService.constructor w = Return this ->
  nullish (get args "location") = false ->
  map nearby_radius
    (fst (run (TalkForceMCPServer.callTool w "find_nearby_places" args)))
  = [ Some (or (get args "radius") (VNum 5000)) ].
Proof.
  intros Hc Hl.
  destruct (get_object _ _ Hl) as [fields ->].
  pose proof (findNearbyPlaces_calls this (get (VObj fields) "location")
                (get (VObj fields) "type")
                (or (get (VObj fields) "radius") (VNum 5000)) Hl) as Hcalls.
  rewrite default_5000_or in Hcalls.
  rewrite <- (proxy_findNearbyPlaces w this _ _ _ Hc) in Hcalls.
  change (TalkForceMCPServer.callTool w "find_nearby_places" (VObj fields))
    with (try_catch (TalkForceMCPServer.handleFindNearbyPlaces w (VObj fields))
            (fun error =>
               ret {| content :=
                        [ {| item_type := "text";
                             item_text :=
                               Plain ("Error executing " ++ "find_nearby_places"
                                        ++ ": " ++ err_message error) |} ];
                      isError := Some true |})).
  unfold run, try_catch, TalkForceMCPServer.handleFindNearbyPlaces, bind, lift in *.
  cbn [get_strict].
  destruct (placesService.findNearbyPlaces w _ _ _ [])
    as [calls [results|e]]; cbn [fst] in Hcalls.
  - unfold ret.
    destruct (ToString (Number_toString w) (get (VObj fields) "type"));
      exact Hcalls.
  - exact Hcalls.
Qed.

(** C7: with the radius omitted, nearby search sends a restriction circle
    of radius exactly 5000 from the adapter method, from the exported
    service, from [POST /api/places/nearby] and from the
    [find_nearby_places] tool. *)
Theorem nearby_radius_defaults_to_5000 (w : World) (this : PlacesService.t) :
  PlacesService.constructor w = Return this ->
  (forall location type,
      nullish location = false ->
      map nearby_radius
        (fst (run (PlacesService.findNearbyPlaces this location type VUndefined)))
      = [ Some (VNum 5000) ])
  /\ (forall location type,
      nullish location = false ->
      map nearby_radius
        (fst (run (placesService.findNearbyPlaces w location type VUndefined)))
      = [ Some (VNum 5000) ])
  /\ (forall body,
      validateLocationParams body = None ->
      get body "radius" = VUndefined ->
      map nearby_radius (fst (app w (mkRequest POST nearbyPath body)))
      = [ Some (VNum 5000) ])
  /\ (forall args,
      nullish (get args "location") = false ->
      get args "radius" = VUndefined ->
      map nearby_radius
        (fst (run (TalkForceMCPServer.callTool w "find_nearby_places" args)))
      = [ Some (VNum 5000) ]).
Proof.
  intros Hc. repeat split.
  - intros location type Hl. now rewrite findNearbyPlaces_calls.
  - intros location type Hl.
    rewrite (proxy_findNearbyPlaces w this _ _ _ Hc).
    now rewrite findNearbyPlaces_calls.
  - intros body Hv Hr. rewrite (nearby_route_calls w this body Hc Hv).
    now rewrite Hr.
  - intros args Hl Hr. rewrite (tool_nearby_calls w this args Hc Hl).
    now rewrite Hr.
Qed.

(** A nearby request without radius, over HTTP. *)
Lemma nearby_radius_defaults_to_5000_witness :
  map nearby_radius
    (fst (app (sampleWorld quietClient) (mkRequest POST nearbyPath nearbyBody)))
  = [ Some (VNum 5000) ].
Proof.
  apply (proj1 (proj2 (proj2
           (nearby_radius_defaults_to_5000 (sampleWorld quietClient)
              (PlacesService.mk quietClient) eq_refl)))).
  - reflexivity.
  - reflexivity.
Defined.

(** One coordinate that is a number out of its range is enough for
    [isValidLocation] to fail, whatever the other coordinate is. *)
Lemma isValidLocation_out_of_range (location : value) (x : Q) :
  (get location "lat" = VNum x /\ (x < -90 \/ 90 < x)%Q)
  \/ (get location "lng" = VNum x /\ (x < -180 \/ 180 < x)%Q) ->
  isValidLocation location = false.
Proof.
  intros Hout. unfold isValidLocation.
  assert (Hb : (Qle_bool (-90) (num_of (get location "lat"))
                && Qle_bool (num_of (get location "lat")) 90
                && Qle_bool (-180) (num_of (get location "lng"))
                && Qle_bool (num_of (get location "lng")) 180)%bool = false).
  { destruct Hout as [[-> [H|H]]|[-> [H|H]]]; cbn [num_of];
      apply Qlt_not_le in H; rewrite <- Qle_bool_iff in H;
      apply not_true_is_false in H; rewrite H;
      repeat (rewrite ?andb_false_r, ?andb_false_l); reflexivity. }
  rewrite <- !andb_assoc in Hb. rewrite <- !andb_assoc.
  rewrite Hb. now rewrite !andb_false_r.
Qed.

(** C8: a [POST /api/places/nearby] whose location has a latitude outside
    [-90, 90] or a longitude outside [-180, 180], whatever its other
    coordinate and the rest of the body are, is answered 400 with the message
    naming the location, and no provider call is made. *)
Theorem nearby_out_of_range_rejected (w : World) (b : value) (x : Q) :
  (get (get b "location") "lat" = VNum x /\ (x < -90 \/ 90 < x)%Q)
  \/ (get (get b "location") "lng" = VNum x /\ (x < -180 \/ 180 < x)%Q) ->
  app w (mkRequest POST nearbyPath b)
  = ( [],
      failure 400 "Valid location with lat and lng properties is required"
        None None ).
Proof.
  intros Hout. rewrite app_nearby.
  unfold serve, Routes.nearby, validateLocationParams. cbn [body].
  rewrite (isValidLocation_out_of_range _ _ Hout).
  now rewrite orb_true_r.
Qed.

(** The scenario, latitude 200; and a latitude of 200 sent without any
    longitude. *)
Lemma nearby_out_of_range_rejected_witness :
  app (sampleWorld quietClient) (mkRequest POST nearbyPath farBody)
  = ( [],
      failure 400 "Valid location with lat and lng properties is required"
        None None )
  /\ app (sampleWorld quietClient) (mkRequest POST nearbyPath latitudeOnlyBody)
     = ( [],
         failure 400 "Valid location with lat and lng properties is required"
           None None ).
Proof.
  split.
  - apply (nearby_out_of_range_rejected (sampleWorld quietClient) farBody 200).
    left. split; [reflexivity|]. right. reflexivity.
  - apply (nearby_out_of_range_rejected (sampleWorld quietClient)
             latitudeOnlyBody 200).
    left. split; [reflexivity|]. right. reflexivity.
Defined.

End NearbySearch.

(* ------------------------------------------------------------------------- *)
(** ** Properties of the tool dispatcher *)
(* ------------------------------------------------------------------------- *)

Section ToolDispatcher.

Import TalkForceMCPServer.

Lemma copyPlace_id (place : PlaceSearchResult.t) : copyPlace place = place.
Proof. now destruct place. Qed.

Lemma map_copyPlace (results : list PlaceSearchResult.t) :
  map copyPlace results = results.
Proof.
  induction results as [|r rest IH]; [reflexivity|].
  cbn [map]. now rewrite copyPlace_id, IH.
Qed.











Lemma handler_unknown w name args :
  known_tool name = false ->
  run (handler w name args) = ([], Throw (Error ("Unknown tool: " ++ name))).
Proof.
  unfold known_tool, handler. intros H.
  repeat (apply orb_false_iff in H; destruct H as [H ?]).
  now repeat match goal with E : _ = false |- _ => rewrite E; clear E end.
Qed.



End ToolDispatcher.

(* ------------------------------------------------------------------------- *)
(** ** Properties of the HTTP router and of error classification *)
(* ------------------------------------------------------------------------- *)

Section HttpShell.

Lemma split_no_sep (s : string) :
  includes s "/" = false -> split "/" s = [s].
Proof.
  induction s as [|c rest IH]; [reflexivity|].
  cbn [includes]. intros H. apply orb_false_iff in H. destruct H as [Hp Hr].
  cbn [split]. destruct (Ascii.eqb c "/") eqn:Hc.
  - apply Ascii.eqb_eq in Hc. subst c. cbn [String.prefix] in Hp.
    destruct (ascii_dec "/" "/"); [now destruct rest|congruence].
  - now rewrite (IH Hr).
Qed.

Lemma segments_detailPath (placeId : string) :
  includes placeId "/" = false ->
  segments (detailPath placeId) = ["api"; "places"; placeId].
Proof.
  intros Hfree. unfold segments, detailPath.
  cbn [append split Ascii.eqb Bool.eqb]. now rewrite (split_no_sep _ Hfree).
Qed.

Lemma not_health (rest : list string) :
  match_path [Lit "health"] ("api" :: rest) = Differs.
Proof. reflexivity. Qed.

Lemma under_mount_places (seg : string) :
  under_mount ["api"; "places"; seg] = Some [seg].
Proof. now destruct seg. Qed.

(** The first route, [POST /search], never takes a [GET]. *)
Lemma search_route_skipped (w : World) (req : Request) (seg : string)
  (rest : list Route) :
  method req = GET ->
  dispatch (mkRoute POST [Lit "search"] (fun w _ req => Routes.search w req)
              :: rest) w req [seg]
  = dispatch rest w req [seg].
Proof.
  intros Hm. cbn [dispatch route_path route_method match_path]. rewrite Hm.
  now destruct (lower seg =? lower "search").
Qed.

Lemma match_placeId (seg : string) :
  seg <> "" ->
  match_path [Param "placeId"] [seg]
  = match decode_param seg with
    | Return v => Matches [("placeId", v)]
    | Throw e => Undecodable e
    end.
Proof.
  intros Hne. apply String.eqb_neq in Hne.
  cbn [match_path]. now rewrite Hne.
Qed.

Lemma dispatch_placeById (w : World) (req : Request) (seg placeId : string) :
  method req = GET ->
  placeId <> "" ->
  decodeURIComponent seg = Some placeId ->
  dispatch placesRouter w req [seg] = Some (Routes.placeById w placeId).
Proof.
  intros Hm Hne Hdec. unfold placesRouter.
  rewrite (search_route_skipped w req seg _ Hm).
  cbn [dispatch route_method route_path route_handler].
  rewrite (match_placeId seg (decoded_empty _ _ Hdec Hne)).
  rewrite (decode_param_decoded _ _ Hdec), Hm. reflexivity.
Qed.

(** A [GET] below the mount point with one non-empty segment is served by
    the parameterised route, whatever the segment is, with the decoded
    segment as the place id. *)
Lemma app_placeById (w : World) (seg placeId : string) (b : value) :
  placeId <> "" ->
  includes seg "/" = false ->
  decodeURIComponent seg = Some placeId ->
  app w (mkRequest GET (detailPath seg) b)
  = serve w (Routes.placeById w placeId).
Proof.
  intros Hne Hfree Hdec.
  unfold app. cbn [path method]. rewrite (segments_detailPath _ Hfree).
  rewrite not_health, under_mount_places.
  now rewrite (dispatch_placeById w (mkRequest GET (detailPath seg) b)
                 seg placeId eq_refl Hne Hdec).
Qed.

Lemma app_search (w : World) (b : value) :
  app w (mkRequest POST searchPath b)
  = serve w (Routes.search w (mkRequest POST searchPath b)).
Proof. reflexivity. Qed.

(** One run of [getPlaceDetails] through the exported service. *)
Lemma getPlaceDetails_run (w : World) (this : PlacesService.t) (placeId : string) :
  PlacesService.constructor w = Return this ->
  run (placesService.getPlaceDetails w (VStr placeId))
  = ( [ GetPlace (GetPlaceRequest.mk ("places/" ++ placeId))
          (Some PlacesService.detailsFieldMask) ],
      match PlacesClient.getPlace (PlacesService.placesClient this)
              (GetPlaceRequest.mk ("places/" ++ placeId))
              (Some PlacesService.detailsFieldMask) with
      | Return place => Return (PlacesService.formatPlaceDetails (env w) place)
      | Throw _ => Throw (Error "Failed to get place details")
      end ).
Proof.
  intros Hc.
  unfold run, placesService.getPlaceDetails, placesService.instance,
    PlacesService.getPlaceDetails, try_catch, bind, lift, perform, ret, throw.
  rewrite Hc. cbn [ToString List.app].
  now destruct (PlacesClient.getPlace _ _ _).
Qed.

Lemma constructor_throws (w : World) :
  (exists this, PlacesService.constructor w = Return this)
  \/ PlacesService.constructor w
     = Throw (Error "GOOGLE_PLACES_API_KEY environment variable is required").
Proof.
  unfold PlacesService.constructor.
  destruct (GOOGLE_PLACES_API_KEY (env w)) as [k|]; [|now right].
  destruct (truthy_str k); [left; now eexists|now right].
Qed.

(** What [GET /:placeId] can answer for a non-empty id: details, or one of
    the failures of [errorHandler]. *)
Lemma placeById_answers (w : World) (placeId : string) :
  placeId <> "" ->
  (exists d msg, snd (serve w (Routes.placeById w placeId))
                 = ok (Details d) None msg)
  \/ (exists s msg c d, snd (serve w (Routes.placeById w placeId))
                        = failure s msg c d).
Proof.
  intros Hne. unfold serve, Routes.placeById.
  rewrite (truthy_str_true _ Hne). cbn [negb].
  destruct (constructor_throws w) as [[this Hc]|Hc].
  - unfold run, bind. pose proof (getPlaceDetails_run w this placeId Hc) as Hr.
    unfold run in Hr. rewrite Hr.
    destruct (PlacesClient.getPlace _ _ _) as [place|e].
    + left. now eexists _, _.
    + right. unfold errorHandler. cbn.
      now eexists _, _, _, _.
  - right.
    unfold run, bind, placesService.getPlaceDetails, placesService.instance, lift.
    rewrite Hc. unfold errorHandler. cbn.
    now eexists _, _, _, _.
Qed.

(** C1 (defect of the router): [GET /api/places/types] is served by the
    parameterised route registered before the types route, with
    [placeId = "types"]: the provider is asked for the place "types", and
    the answer never carries the type enumeration. *)
Theorem types_request_reaches_detail_route (w : World) (b : value) :
  app w (mkRequest GET typesPath b) = serve w (Routes.placeById w "types")
  /\ (forall this,
        PlacesService.constructor w = Return this ->
        fst (app w (mkRequest GET typesPath b))
        = [ GetPlace (GetPlaceRequest.mk "places/types")
              (Some PlacesService.detailsFieldMask) ])
  /\ (forall e,
        json (snd (app w (mkRequest GET typesPath b))) = Json e ->
        data e <> Some (TypeList commonTypes)).
Proof.
  assert (Happ : app w (mkRequest GET typesPath b)
                 = serve w (Routes.placeById w "types")) by reflexivity.
  split; [exact Happ|]. rewrite Happ. split.
  - intros this Hc. unfold serve, Routes.placeById. cbn [truthy_str negb
      String.eqb Ascii.eqb Bool.eqb].
    unfold run, bind. pose proof (getPlaceDetails_run w this "types" Hc) as Hr.
    unfold run in Hr. rewrite Hr.
    now destruct (PlacesClient.getPlace _ _ _).
  - intros e He.
    destruct (placeById_answers w "types") as [(d & msg & H)|(s & msg & c & d & H)];
      [discriminate| |]; rewrite H in He; cbn in He; injection He as <-;
      discriminate.
Qed.

(** The request at a provider that knows a place: the provider is called
    for "places/types" and the details of that place are sent. *)
Lemma types_request_reaches_detail_route_witness :
  fst (app (sampleWorld (detailClient samplePlace))
         (mkRequest GET typesPath (VObj [])))
  = [ GetPlace (GetPlaceRequest.mk "places/types")
        (Some PlacesService.detailsFieldMask) ]
  /\ snd (app (sampleWorld (detailClient samplePlace))
            (mkRequest GET typesPath (VObj [])))
     = ok (Details (PlacesService.formatPlaceDetails sampleEnv samplePlace)) None
         "Details for Cafe".
Proof.
  destruct (types_request_reaches_detail_route
              (sampleWorld (detailClient samplePlace)) (VObj []))
    as (Happ & Hcalls & _).
  split.
  - apply (Hcalls (PlacesService.mk (detailClient samplePlace))). reflexivity.
  - rewrite Happ. reflexivity.
Defined.

Lemma errorHandler_generic (w : World) (msg : string) :
  includes msg "quota" = false ->
  includes msg "API key" = false ->
  is_internal_error (errorHandler w (Error msg)).
Proof.
  intros Hq Hk. unfold errorHandler, is_internal_error.
  cbn [err_message err_code err_name Error]. rewrite Hq, Hk.
  cbn [orb String.eqb Ascii.eqb Bool.eqb].
  split; [reflexivity|]. eexists. now split.
Qed.

(** The first branch of [errorHandler] does classify an error that still
    carries a quota signal. *)
Lemma errorHandler_quota (w : World) (e : JS.error) :
  includes (err_message e) "quota" = true
  \/ err_code e = Some "OVER_QUERY_LIMIT" ->
  errorHandler w e
  = failure 429 "API quota exceeded. Please try again later."
      (Some "QUOTA_EXCEEDED") None.
Proof.
  unfold errorHandler. intros [-> | ->]; [reflexivity|].
  now rewrite orb_true_r.
Qed.

Lemma proxy_searchPlaces (w : World) (this : PlacesService.t) (params : value) :
  PlacesService.constructor w = Return this ->
  run (placesService.searchPlaces w params)
  = run (PlacesService.searchPlaces this params).
Proof.
  intros Hc.
  unfold run, placesService.searchPlaces, placesService.instance, bind, lift.
  now rewrite Hc.
Qed.

Lemma validateSearchParams_object (b : value) :
  validateSearchParams b = None -> nullish b = false.
Proof.
  destruct b; try reflexivity; discriminate.
Qed.

Lemma serve_throw (w : World) {A} (m : M A) (k : A -> M Response)
  (calls : list Call) (e : JS.error) :
  run m = (calls, Throw e) ->
  serve w (bind m k) = (calls, errorHandler w e).
Proof.
  unfold serve, run, bind. now intros ->.
Qed.

(** C2 (defect of the error path): when the provider call of an adapter
    operation fails, with a quota signal or with anything else, the adapter
    replaces the error by its generic one, which carries neither signal, and
    the HTTP answer is 500 with code "INTERNAL_ERROR", never 429. The detail
    route is taken on a place id that stands in the path as it is, without
    escapes. *)
Theorem provider_failure_is_internal_error
  (w : World) (this : PlacesService.t) (e : JS.error) :
  PlacesService.constructor w = Return this ->
  (forall b,
      validateSearchParams b = None ->
      PlacesClient.searchText (PlacesService.placesClient this)
        (PlacesService.textSearchRequest b)
        (Some PlacesService.searchFieldMask) = Throw e ->
      is_internal_error (snd (app w (mkRequest POST searchPath b))))
  /\ (forall placeId b,
      placeId <> "" ->
      includes placeId "/" = false ->
      includes placeId "%" = false ->
      PlacesClient.getPlace (PlacesService.placesClient this)
        (GetPlaceRequest.mk ("places/" ++ placeId))
        (Some PlacesService.detailsFieldMask) = Throw e ->
      is_internal_error (snd (app w (mkRequest GET (detailPath placeId) b))))
  /\ (forall b request,
      validateLocationParams b = None ->
      PlacesService.nearbyRequest (get b "location") (get b "type")
        (PlacesService.default_5000 (get b "radius")) = Return request ->
      PlacesClient.searchNearby (PlacesService.placesClient this) request
        (Some PlacesService.searchFieldMask) = Throw e ->
      is_internal_error (snd (app w (mkRequest POST nearbyPath b)))).
Proof.
  intros Hc. split; [|split].
  - intros b Hv He. rewrite app_search.
    unfold Routes.search. cbn [body]. rewrite Hv.
    pose proof (searchPlaces_run this b (validateSearchParams_object _ Hv)) as Hr.
    rewrite He in Hr. rewrite <- (proxy_searchPlaces w this b Hc) in Hr.
    rewrite (serve_throw w _ _ _ _ Hr). now apply errorHandler_generic.
  - intros placeId b Hne Hfree Hplain He.
    rewrite (app_placeById w _ placeId b Hne Hfree
               (decodeURIComponent_plain _ Hplain)).
    unfold Routes.placeById. rewrite (truthy_str_true _ Hne). cbn [negb].
    pose proof (getPlaceDetails_run w this placeId Hc) as Hr.
    rewrite He in Hr.
    rewrite (serve_throw w _ _ _ _ Hr). now apply errorHandler_generic.
  - intros b request Hv Hreq He. rewrite app_nearby.
    unfold Routes.nearby. cbn [body]. rewrite Hv.
    pose proof (truthy_not_nullish _
                  (isValidLocation_truthy _ (validateLocationParams_location _ Hv)))
      as Hl.
    destruct (findNearbyPlaces_run this (get b "location") (get b "type")
                (PlacesService.default_5000 (get b "radius")) Hl)
      as (request' & Hreq' & _ & Hr).
    rewrite default_5000_idem in Hreq'. rewrite Hreq in Hreq'.
    injection Hreq' as <-. rewrite He in Hr.
    rewrite <- (proxy_findNearbyPlaces w this _ _ _ Hc) in Hr.
    rewrite (serve_throw w _ _ _ _ Hr). now apply errorHandler_generic.
Qed.

(** A text search at a provider that fails with both quota signals. *)
Lemma provider_failure_is_internal_error_witness :
  includes (err_message quotaError) "quota" = true
  /\ err_code quotaError = Some "OVER_QUERY_LIMIT"
  /\ is_internal_error
       (snd (app (sampleWorld (failingClient quotaError))
               (mkRequest POST searchPath pizzaParams))).
Proof.
  split; [reflexivity|]. split; [reflexivity|].
  apply (proj1 (provider_failure_is_internal_error
                  (sampleWorld (failingClient quotaError))
                  (PlacesService.mk (failingClient quotaError))
                  quotaError eq_refl)).
  - reflexivity.
  - reflexivity.
Defined.

End HttpShell.

(* ------------------------------------------------------------------------- *)
(** ** The two shells compared *)
(* ------------------------------------------------------------------------- *)

Section ShellEquivalence.

Import TalkForceMCPServer.

Lemma errorHandler_failure (w : World) (e : JS.error) :
  exists s msg c d, errorHandler w e = failure s msg c d.
Proof.
  unfold errorHandler.
  repeat match goal with
         | |- context [if ?b then _ else _] => destruct b
         end; now eexists _, _, _, _.
Qed.

Lemma http_places_error (w : World) (e : JS.error) :
  http_places (errorHandler w e) = None.
Proof. destruct (errorHandler_failure w e) as (s & m & c & d & ->). reflexivity. Qed.

Lemma http_details_error (w : World) (e : JS.error) :
  http_details (errorHandler w e) = None.
Proof. destruct (errorHandler_failure w e) as (s & m & c & d & ->). reflexivity. Qed.

(** A radius that passed either validator is missing or is a number
    above zero: it is truthy unless it is missing. *)
Lemma good_radius_truthy (radius : value) :
  (negb (is_undefined radius) && bad_radius radius)%bool = false ->
  truthy radius = false -> radius = VUndefined.
Proof.
  destruct radius; try reflexivity; try discriminate.
  unfold bad_radius. cbn [is_undefined negb andb is_number num_of orb truthy].
  intros Hb Ht. apply orb_false_iff in Hb. destruct Hb as [Hle _].
  unfold truthy_num in Ht. apply negb_false_iff in Ht.
  apply Qeq_bool_iff in Ht.
  assert (Hq : (q <= 0)%Q) by (rewrite Ht; apply Qle_refl).
  apply Qle_bool_iff in Hq. congruence.
Qed.

Lemma validateSearchParams_radius (b : value) :
  validateSearchParams b = None ->
  (negb (is_undefined (get b "radius")) && bad_radius (get b "radius"))%bool
  = false.
Proof.
  unfold validateSearchParams.
  destruct (not_a_filled_string (get b "query")); [discriminate|].
  destruct (truthy (get b "location") && negb (isValidLocation (get b "location")));
    [discriminate|].
  now destruct (negb (is_undefined (get b "radius")) && bad_radius (get b "radius")).
Qed.

Lemma validateLocationParams_radius (b : value) :
  validateLocationParams b = None ->
  (negb (is_undefined (get b "radius")) && bad_radius (get b "radius"))%bool
  = false.
Proof.
  unfold validateLocationParams.
  destruct (negb (truthy (get b "location"))
            || negb (isValidLocation (get b "location"))); [discriminate|].
  destruct (not_a_filled_string (get b "type")); [discriminate|].
  now destruct (negb (is_undefined (get b "radius")) && bad_radius (get b "radius")).
Qed.

(** The parameters the search tool rebuilds lead to the request the raw
    body leads to. *)
Lemma rebuilt_params_request (fields : list (string * value)) :
  validateSearchParams (VObj fields) = None ->
  PlacesService.textSearchRequest
    (VObj ((("query", assoc "query" fields)
              :: spread_if "location" (assoc "location" fields))
             ++ spread_if "radius" (assoc "radius" fields)
             ++ spread_if "type" (assoc "type" fields))%list)
  = PlacesService.textSearchRequest (VObj fields).
Proof.
  intros Hv.
  assert (Hr : truthy (assoc "radius" fields) = false ->
               assoc "radius" fields = VUndefined).
  { exact (good_radius_truthy _ (validateSearchParams_radius _ Hv)). }
  unfold PlacesService.textSearchRequest, spread_if. cbn [get].
  destruct (truthy (assoc "location" fields)) eqn:Hl;
    destruct (truthy (assoc "radius" fields)) eqn:Hrad;
    destruct (truthy (assoc "type" fields)) eqn:Ht;
    cbn [List.app assoc String.eqb Ascii.eqb Bool.eqb truthy];
    rewrite ?Hl, ?Ht; try rewrite (Hr eq_refl); reflexivity.
Qed.

Lemma searchPlaces_same_request (w : World) (p p' : value) :
  nullish p = false -> nullish p' = false ->
  PlacesService.textSearchRequest p = PlacesService.textSearchRequest p' ->
  run (placesService.searchPlaces w p) = run (placesService.searchPlaces w p').
Proof.
  intros Hp Hp' Heq.
  destruct (constructor_throws w) as [[this Hc]|Hc].
  - rewrite !(proxy_searchPlaces w this _ Hc).
    rewrite (searchPlaces_run this p Hp), (searchPlaces_run this p' Hp').
    now rewrite Heq.
  - unfold run, placesService.searchPlaces, placesService.instance, bind, lift.
    now rewrite Hc.
Qed.

Lemma search_shells_agree (w : World) (b : value) :
  validateSearchParams b = None ->
  tool_places (snd (run (callTool w "search_places" b)))
    = http_places (snd (app w (mkRequest POST searchPath b)))
  /\ fst (run (callTool w "search_places" b))
    = fst (app w (mkRequest POST searchPath b)).
Proof.
  intros Hv. rewrite app_search.
  pose proof (validateSearchParams_object _ Hv) as Hobj.
  destruct b as [| | | | | |fields]; try discriminate.
  pose proof (searchPlaces_same_request w
                (VObj ((("query", assoc "query" fields)
                          :: spread_if "location" (assoc "location" fields))
                         ++ spread_if "radius" (assoc "radius" fields)
                         ++ spread_if "type" (assoc "type" fields))%list)
                (VObj fields) eq_refl eq_refl
                (rebuilt_params_request fields Hv)) as Hsame.
  change (callTool w "search_places" (VObj fields))
    with (try_catch (handleSearchPlaces w (VObj fields))
            (fun error => ret (errorResponse "search_places" (err_message error)))).
  unfold serve, Routes.search. cbn [body]. rewrite Hv.
  unfold run, try_catch, handleSearchPlaces, bind, lift in *.
  cbn [get_strict get] in *. rewrite Hsame.
  destruct (placesService.searchPlaces w (VObj fields) [])
    as [calls [results|e]].
  - destruct (ToString (Number_toString w) (assoc "query" fields)) as [q|e].
    + cbn. now rewrite map_copyPlace.
    + cbn. now rewrite http_places_error.
  - cbn. now rewrite http_places_error.
Qed.

Lemma nearby_shells_agree (w : World) (b : value) :
  validateLocationParams b = None ->
  tool_places (snd (run (callTool w "find_nearby_places" b)))
    = http_places (snd (app w (mkRequest POST nearbyPath b)))
  /\ fst (run (callTool w "find_nearby_places" b))
    = fst (app w (mkRequest POST nearbyPath b)).
Proof.
  intros Hv. rewrite app_nearby.
  pose proof (truthy_not_nullish _
                (isValidLocation_truthy _ (validateLocationParams_location _ Hv)))
    as Hl.
  destruct (get_object _ _ Hl) as [fields ->].
  assert (Hrad : or (get (VObj fields) "radius") (VNum 5000)
                 = PlacesService.default_5000 (get (VObj fields) "radius")).
  { pose proof (good_radius_truthy _ (validateLocationParams_radius _ Hv)) as Hr.
    unfold or. destruct (truthy (get (VObj fields) "radius")) eqn:Ht.
    - now destruct (get (VObj fields) "radius").
    - now rewrite (Hr eq_refl). }
  change (callTool w "find_nearby_places" (VObj fields))
    with (try_catch (handleFindNearbyPlaces w (VObj fields))
            (fun error =>
               ret (errorResponse "find_nearby_places" (err_message error)))).
  unfold serve, Routes.nearby. cbn [body]. rewrite Hv.
  unfold run, try_catch, handleFindNearbyPlaces, bind, lift.
  cbn [get_strict]. rewrite Hrad.
  destruct (placesService.findNearbyPlaces w _ _ _ []) as [calls [results|e]].
  - destruct (ToString (Number_toString w) (get (VObj fields) "type")) as [t|e].
    + cbn. now rewrite map_copyPlace.
    + cbn. now rewrite http_places_error.
  - cbn. now rewrite http_places_error.
Qed.

Lemma getPlaceDetails_returns (w : World) (placeId : value)
  (calls : list Call) (d : PlaceDetails.t) :
  run (placesService.getPlaceDetails w placeId) = (calls, Return d) ->
  exists place, d = PlacesService.formatPlaceDetails (env w) place.
Proof.
  unfold run, placesService.getPlaceDetails, placesService.instance,
    PlacesService.getPlaceDetails, try_catch, bind, lift, perform, ret, throw.
  destruct (PlacesService.constructor w) as [this|e]; [|discriminate].
  destruct (ToString (Number_toString w) placeId) as [id|e]; [|discriminate].
  destruct (PlacesClient.getPlace _ _ _) as [place|e]; [|discriminate].
  intros [= _ <-]. now exists place.
Qed.

(** The tool's copy of normalised details differs from them in the photos
    only: normalisation has already cut the reviews to five. *)
Lemma copyDetails_formatted (env : Env) (place : ProviderPlace.t) :
  copyDetails (PlacesService.formatPlaceDetails env place)
  = first_three_photos (PlacesService.formatPlaceDetails env place).
Proof.
  unfold copyDetails, first_three_photos. f_equal.
  unfold PlacesService.formatPlaceDetails; cbn [PlaceDetails.reviews].
  destruct (ProviderPlace.reviews place) as [rs|]; [|reflexivity].
  cbn [opt_chain or_else always]. f_equal. unfold slice0.
  apply firstn_all2. rewrite length_map, length_firstn. apply Nat.le_min_l.
Qed.

Lemma details_shells_agree (w : World) (seg placeId : string) (b : value) :
  placeId <> "" ->
  includes seg "/" = false ->
  decodeURIComponent seg = Some placeId ->
  tool_details (snd (run (callTool w "get_place_details" (detailArgs placeId))))
    = option_map first_three_photos
        (http_details (snd (app w (mkRequest GET (detailPath seg) b))))
  /\ fst (run (callTool w "get_place_details" (detailArgs placeId)))
    = fst (app w (mkRequest GET (detailPath seg) b)).
Proof.
  intros Hne Hfree Hdec. rewrite (app_placeById w _ _ b Hne Hfree Hdec).
  change (callTool w "get_place_details" (detailArgs placeId))
    with (try_catch (handleGetPlaceDetails w (detailArgs placeId))
            (fun error =>
               ret (errorResponse "get_place_details" (err_message error)))).
  unfold serve, Routes.placeById. rewrite (truthy_str_true _ Hne). cbn [negb].
  unfold run, try_catch, handleGetPlaceDetails, bind, lift, detailArgs.
  cbn [get_strict get assoc String.eqb Ascii.eqb Bool.eqb].
  destruct (placesService.getPlaceDetails w (VStr placeId) [])
    as [calls [d|e]] eqn:Hrun.
  - destruct (getPlaceDetails_returns w _ _ _ Hrun) as [place ->].
    cbn. now rewrite copyDetails_formatted.
  - cbn. now rewrite http_details_error.
Qed.

(** C3, as amended: on every input the HTTP validators accept, text
    search and nearby search deliver the same normalised results through
    both shells, from the same provider calls; for the same place id, which
    the HTTP route reads from the path segment by decoding its escapes, the
    detail tool delivers the details the HTTP route delivers, field for field
    and with the same reviews, except that it keeps only the first three of
    the photos. *)
Theorem shells_agree_except_photos (w : World) :
  (forall b,
      validateSearchParams b = None ->
      tool_places (snd (run (callTool w "search_places" b)))
        = http_places (snd (app w (mkRequest POST searchPath b)))
      /\ fst (run (callTool w "search_places" b))
        = fst (app w (mkRequest POST searchPath b)))
  /\ (forall b,
      validateLocationParams b = None ->
      tool_places (snd (run (callTool w "find_nearby_places" b)))
        = http_places (snd (app w (mkRequest POST nearbyPath b)))
      /\ fst (run (callTool w "find_nearby_places" b))
        = fst (app w (mkRequest POST nearbyPath b)))
  /\ (forall seg placeId b,
      placeId <> "" ->
      includes seg "/" = false ->
      decodeURIComponent seg = Some placeId ->
      tool_details
        (snd (run (callTool w "get_place_details" (detailArgs placeId))))
        = option_map first_three_photos
            (http_details (snd (app w (mkRequest GET (detailPath seg) b))))
      /\ fst (run (callTool w "get_place_details" (detailArgs placeId)))
        = fst (app w (mkRequest GET (detailPath seg) b))).
Proof.
  split; [|split].
  - intros b Hv. now apply search_shells_agree.
  - intros b Hv. now apply nearby_shells_agree.
  - intros seg placeId b Hne Hfree Hdec. now apply details_shells_agree.
Qed.

(** The details of a place with nine photos, through both shells; and the
    place id "a b", which is the segment "a%20b" of the path. *)
Lemma shells_agree_except_photos_witness :
  tool_details
    (snd (run (callTool (sampleWorld (detailClient samplePlace))
                 "get_place_details" (detailArgs "ChIJ123"))))
  = option_map first_three_photos
      (http_details
         (snd (app (sampleWorld (detailClient samplePlace))
                 (mkRequest GET (detailPath "ChIJ123") (VObj [])))))
  /\ fst (run (callTool (sampleWorld (detailClient samplePlace))
                 "get_place_details" (detailArgs "a b")))
     = fst (app (sampleWorld (detailClient samplePlace))
              (mkRequest GET (detailPath "a%20b") (VObj []))).
Proof.
  split.
  - apply (proj2 (proj2 (shells_agree_except_photos
                           (sampleWorld (detailClient samplePlace))))
             "ChIJ123" "ChIJ123" (VObj [])).
    + discriminate.
    + reflexivity.
    + reflexivity.
  - apply (proj2 (proj2 (shells_agree_except_photos
                           (sampleWorld (detailClient samplePlace))))
             "a%20b" "a b" (VObj [])).
    + discriminate.
    + reflexivity.
    + reflexivity.
Defined.

(** C3 as stated fails: for the same place id and the same provider
    response with nine photos, the HTTP route delivers five photo URLs and
    the detail tool three. *)
Lemma shells_differ_on_photos :
  let w := sampleWorld (detailClient samplePlace) in
  let http :=
    http_details (snd (app w (mkRequest GET (detailPath "ChIJ123") (VObj [])))) in
  let tool :=
    tool_details
      (snd (run (callTool w "get_place_details" (detailArgs "ChIJ123")))) in
  opt_chain http (fun d => option_map (@List.length string) (PlaceDetails.photos d))
    = Some 5%nat
  /\ opt_chain tool (fun d => option_map (@List.length string) (PlaceDetails.photos d))
    = Some 3%nat
  /\ tool <> http.
Proof.
  cbv zeta. split; [reflexivity|]. split; [reflexivity|].
  intros H.
  apply (f_equal (fun o =>
           opt_chain o (fun d =>
             option_map (@List.length string) (PlaceDetails.photos d)))) in H.
  vm_compute in H. discriminate H.
Qed.

End ShellEquivalence.

(* ------------------------------------------------------------------------- *)
(** ** The request validators *)
(* ------------------------------------------------------------------------- *)

Section Validators.

Lemma trim_length_zero (s : string) :
  (String.length (trim s) =? 0)%nat = false <-> trim s <> "".
Proof.
  destruct (trim s) as [|c rest]; cbn; split; intros H; congruence.
Qed.

Lemma not_a_filled_string_false (v : value) :
  not_a_filled_string v = false <-> filled_string v.
Proof.
  unfold not_a_filled_string, filled_string. split.
  - intros H. apply orb_false_iff in H. destruct H as [H Hlen].
    apply orb_false_iff in H. destruct H as [_ Hstr].
    destruct v; try discriminate. exists s. split; [reflexivity|].
    now apply trim_length_zero.
  - intros (s & -> & Hs). cbn [is_string negb orb trim_length truthy].
    pose proof Hs as Hlen. apply trim_length_zero in Hlen.
    rewrite Hlen, !orb_false_r.
    apply negb_false_iff. apply truthy_str_true. intros ->. now apply Hs.
Qed.

(** The type check of the search validator: [type] is missing or a filled
    string. *)
Lemma optional_type_ok (v : value) :
  (negb (is_undefined v) && (negb (is_string v) || (trim_length v =? 0)%nat))%bool
    = false
  <-> v = VUndefined \/ filled_string v.
Proof.
  split.
  - intros H. destruct v; try discriminate; [now left|right].
    cbn in H. exists s. split; [reflexivity|]. now apply trim_length_zero.
  - intros [-> | (s & -> & Hs)]; [reflexivity|].
    cbn. now apply trim_length_zero.
Qed.

Lemma bad_radius_false (r : Q) :
  bad_radius (VNum r) = false <-> (0 < r)%Q /\ (r <= 50000)%Q.
Proof.
  unfold bad_radius. cbn [is_number negb orb num_of]. split.
  - intros H. apply orb_false_iff in H. destruct H as [H0 Hmax].
    apply negb_false_iff in Hmax. apply Qle_bool_iff in Hmax.
    split; [|exact Hmax]. apply Qnot_le_lt. intros Hle.
    apply Qle_bool_iff in Hle. congruence.
  - intros [H0 Hmax]. apply Qle_bool_iff in Hmax. rewrite Hmax.
    cbn [negb]. rewrite orb_false_r. apply not_true_is_false. intros Hle.
    apply Qle_bool_iff in Hle. now apply Qlt_not_le in H0.
Qed.

Lemma optional_radius_ok (v : value) :
  (negb (is_undefined v) && bad_radius v)%bool = false <-> radius_in_range v.
Proof.
  unfold radius_in_range. split.
  - intros H. destruct v; try discriminate; [now left|right].
    exists q. split; [reflexivity|]. now apply bad_radius_false.
  - intros [-> | (r & -> & Hr)]; [reflexivity|].
    cbn [is_undefined negb andb]. now apply bad_radius_false.
Qed.

Lemma isValidLocation_in_range (location : value) :
  isValidLocation location = true <-> location_in_range location.
Proof.
  unfold isValidLocation, location_in_range. split.
  - intros H.
    repeat match type of H with
           | (_ && _)%bool = true =>
               let H' := fresh "H" in
               apply andb_true_iff in H; destruct H as [H H']
           end.
    destruct (get location "lat") as [| | |lat| | |] eqn:Elat; try discriminate.
    destruct (get location "lng") as [| | |lng| | |] eqn:Elng; try discriminate.
    exists lat, lng. cbn [num_of] in *.
    repeat split; try reflexivity; now apply Qle_bool_iff.
  - intros (lat & lng & Hlat & Hlng & H1 & H2 & H3 & H4).
    destruct location; try discriminate Hlat.
    rewrite Hlat, Hlng. cbn [truthy is_object typeof is_number num_of andb].
    apply Qle_bool_iff in H1, H2, H3, H4. now rewrite H1, H2, H3, H4.
Qed.

(** X1: [isValidLocation] holds exactly of the values that have a numeric
    [lat] within [-90, 90] and a numeric [lng] within [-180, 180]. So it
    holds of objects only: null, numbers, strings and arrays are refused, and
    so is an object whose coordinate is missing or is a numeric string. *)
Theorem isValidLocation_iff (location : value) :
  (isValidLocation location = true <-> location_in_range location)
  /\ (isValidLocation location = true -> exists fields, location = VObj fields)
  /\ (forall lat lng,
        get location "lat" = VStr lat \/ get location "lng" = VStr lng ->
        isValidLocation location = false).
Proof.
  split; [apply isValidLocation_in_range|]. split.
  - intros H. apply isValidLocation_in_range in H.
    destruct H as (lat & lng & Hlat & _).
    destruct location; try discriminate Hlat. now eexists.
  - intros lat lng [H|H]; apply not_true_is_false; intros Hv;
      apply isValidLocation_in_range in Hv;
      destruct Hv as (la & ln & Hla & Hln & _); congruence.
Qed.

(** Coordinates sent as strings are refused. *)
Lemma isValidLocation_iff_witness :
  isValidLocation (VObj [("lat", VStr "40.7"); ("lng", VNum (-74))]) = false.
Proof.
  apply (proj2 (proj2 (isValidLocation_iff
                         (VObj [("lat", VStr "40.7"); ("lng", VNum (-74))])))
           "40.7" "").
  left. reflexivity.
Defined.

(** X2: [validateSearchParams] lets a body through exactly when its query
    is a string with something else than white space in it, its location is
    falsy or in range, its radius is missing or a number in (0, 50000], and
    its type is missing or a filled string. *)
Theorem validateSearchParams_accepts_iff (b : value) :
  validateSearchParams b = None
  <-> filled_string (get b "query")
      /\ (truthy (get b "location") = false
          \/ location_in_range (get b "location"))
      /\ radius_in_range (get b "radius")
      /\ (get b "type" = VUndefined \/ filled_string (get b "type")).
Proof.
  unfold validateSearchParams.
  rewrite <- not_a_filled_string_false, <- optional_radius_ok,
    <- optional_type_ok, <- isValidLocation_in_range.
  destruct (not_a_filled_string (get b "query"));
    [split; [discriminate|intros [H _]; discriminate]|].
  destruct (truthy (get b "location")) eqn:Hl; cbn [andb].
  - destruct (isValidLocation (get b "location")); cbn [negb].
    + destruct (negb (is_undefined (get b "radius")) && bad_radius (get b "radius"));
        [split; [discriminate|intros (_ & _ & H & _); discriminate]|].
      destruct (negb (is_undefined (get b "type"))
                && (negb (is_string (get b "type"))
                    || (trim_length (get b "type") =? 0)%nat));
        [split; [discriminate|intros (_ & _ & _ & H); discriminate]|].
      split; [|reflexivity]. intros _. repeat split. now right.
    + split; [discriminate|]. intros (_ & [H|H] & _); discriminate.
  - destruct (negb (is_undefined (get b "radius")) && bad_radius (get b "radius"));
      [split; [discriminate|intros (_ & _ & H & _); discriminate]|].
    destruct (negb (is_undefined (get b "type"))
              && (negb (is_string (get b "type"))
                  || (trim_length (get b "type") =? 0)%nat));
      [split; [discriminate|intros (_ & _ & _ & H); discriminate]|].
    split; [|reflexivity]. intros _. repeat split. now left.
Qed.

(** A radius of half a metre passes, whatever the rejection text says; a
    query that is one no-break space does not. *)
Lemma validateSearchParams_accepts_iff_witness :
  validateSearchParams halfMetreBody = None
  /\ validateSearchParams (VObj [("query", VStr nbsp)]) <> None.
Proof.
  split.
  - apply (proj2 (validateSearchParams_accepts_iff halfMetreBody)).
    split; [|split; [|split]].
    + exists "pizza". split; [reflexivity|discriminate].
    + left. reflexivity.
    + right. exists (1 # 2). split; [reflexivity|].
      split; reflexivity || discriminate.
    + left. reflexivity.
  - intros H.
    apply (proj1 (validateSearchParams_accepts_iff (VObj [("query", VStr nbsp)])))
      in H.
    destruct H as ((q & Hq & Hfilled) & _).
    injection Hq as <-. now apply Hfilled.
Defined.

(** X3: [validateLocationParams] lets a body through exactly when its
    location is in range, its type is a filled string, and its radius is
    missing or a number in (0, 50000]. *)
Theorem validateLocationParams_accepts_iff (b : value) :
  validateLocationParams b = None
  <-> location_in_range (get b "location")
      /\ filled_string (get b "type")
      /\ radius_in_range (get b "radius").
Proof.
  unfold validateLocationParams.
  rewrite <- not_a_filled_string_false, <- optional_radius_ok,
    <- isValidLocation_in_range.
  destruct (isValidLocation (get b "location")) eqn:Hv.
  - rewrite (isValidLocation_truthy _ Hv). cbn [negb orb].
    destruct (not_a_filled_string (get b "type"));
      [split; [discriminate|intros (_ & H & _); discriminate]|].
    destruct (negb (is_undefined (get b "radius")) && bad_radius (get b "radius"));
      [split; [discriminate|intros (_ & _ & H); discriminate]|].
    now split.
  - rewrite orb_true_r. split; [discriminate|intros (H & _); discriminate].
Qed.

(** The sample nearby body is in range. *)
Lemma validateLocationParams_accepts_iff_witness :
  location_in_range (get nearbyBody "location")
  /\ filled_string (get nearbyBody "type")
  /\ radius_in_range (get nearbyBody "radius").
Proof.
  apply (proj1 (validateLocationParams_accepts_iff nearbyBody)).
  reflexivity.
Defined.

Lemma validateSearchParams_rejection (b : value) (r : Response) :
  validateSearchParams b = Some r -> is_rejection r.
Proof.
  unfold validateSearchParams, is_rejection.
  repeat match goal with
         | |- context [if ?c then _ else _] => destruct c
         end; intros [= <-]; now eexists.
Qed.

Lemma validateLocationParams_rejection (b : value) (r : Response) :
  validateLocationParams b = Some r -> is_rejection r.
Proof.
  unfold validateLocationParams, is_rejection.
  repeat match goal with
         | |- context [if ?c then _ else _] => destruct c
         end; intros [= <-]; now eexists.
Qed.

(** X4: whatever a validator refuses, on either [POST] route, is answered
    with that refusal, a 400 with [success: false] and no code, and no
    provider call is made. *)
Theorem rejected_before_any_call (w : World) (b : value) (r : Response) :
  (validateSearchParams b = Some r ->
   app w (mkRequest POST searchPath b) = ([], r) /\ is_rejection r)
  /\ (validateLocationParams b = Some r ->
      app w (mkRequest POST nearbyPath b) = ([], r) /\ is_rejection r).
Proof.
  split; intros Hv.
  - split; [|now apply (validateSearchParams_rejection b)].
    rewrite app_search. unfold serve, Routes.search. cbn [body]. now rewrite Hv.
  - split; [|now apply (validateLocationParams_rejection b)].
    rewrite app_nearby. unfold serve, Routes.nearby. cbn [body]. now rewrite Hv.
Qed.

(** A search without a query, and a nearby search with a radius of 0. *)
Lemma rejected_before_any_call_witness :
  app (sampleWorld quietClient) (mkRequest POST searchPath (VObj []))
  = ( [],
      failure 400 "Query parameter is required and must be a non-empty string"
        None None )
  /\ app (sampleWorld quietClient)
       (mkRequest POST nearbyPath
          (VObj [ ("location", VObj [("lat", VNum 40); ("lng", VNum (-74))]);
                  ("type", VStr "restaurant"); ("radius", VNum 0) ]))
     = ( [],
         failure 400 "Radius must be a number between 1 and 50000 meters"
           None None ).
Proof.
  split.
  - apply (proj1 (rejected_before_any_call (sampleWorld quietClient) (VObj [])
                    (failure 400
                       "Query parameter is required and must be a non-empty string"
                       None None))).
    reflexivity.
  - apply (proj2 (rejected_before_any_call (sampleWorld quietClient)
                    (VObj [ ("location",
                             VObj [("lat", VNum 40); ("lng", VNum (-74))]);
                            ("type", VStr "restaurant"); ("radius", VNum 0) ])
                    (failure 400
                       "Radius must be a number between 1 and 50000 meters"
                       None None))).
    reflexivity.
Defined.

End Validators.

(* ------------------------------------------------------------------------- *)
(** ** The routes on their success path, and what is not routed *)
(* ------------------------------------------------------------------------- *)

Section RouteAnswers.

Lemma serve_bind_return (w : World) {A} (m : M A) (k : A -> M Response)
  (calls : list Call) (a : A) :
  run m = (calls, Return a) ->
  serve w (bind m k)
  = match k a calls with
    | (calls', Return response) => (calls', response)
    | (calls', Throw e) => (calls', errorHandler w e)
    end.
Proof. unfold serve, run, bind. now intros ->. Qed.

Lemma filled_string_query (b : value) :
  validateSearchParams b = None -> exists q, get b "query" = VStr q.
Proof.
  unfold validateSearchParams.
  destruct (not_a_filled_string (get b "query")) eqn:Hq; [discriminate|].
  intros _. apply not_a_filled_string_false in Hq.
  destruct Hq as (q & Hq & _). now exists q.
Qed.


(** X5: a text search that passes validation and that the provider answers
    makes one provider call and is answered 200 with the normalised places
    in provider order, their number as [count], and the message quoting the
    query; a provider answer without [places] counts as no place. *)
Theorem search_answer (w : World) (this : PlacesService.t) (b : value)
  (response : SearchResponse.t) :
  PlacesService.constructor w = Return this ->
  validateSearchParams b = None ->
  PlacesClient.searchText (PlacesService.placesClient this)
    (PlacesService.textSearchRequest b) (Some PlacesService.searchFieldMask)
    = Return response ->
  let places := or_default always (SearchResponse.places response) [] in
  exists q,
    get b "query" = VStr q
    /\ app w (mkRequest POST searchPath b)
       = ( [ SearchText (PlacesService.textSearchRequest b)
               (Some PlacesService.searchFieldMask) ],
           ok (PlaceList (PlacesService.formatSearchResults places))
             (Some (List.length places))
             ("Found " ++ Number_toString w (inject_Z (Z.of_nat (List.length places)))
                ++ " places for " ++ dquote ++ q ++ dquote) ).
Proof.
  intros Hc Hv Hresp places.
  destruct (filled_string_query b Hv) as [q Hq]. exists q. split; [exact Hq|].
  rewrite app_search. unfold Routes.search. cbn [body]. rewrite Hv.
  pose proof (searchPlaces_run this b (validateSearchParams_object _ Hv)) as Hr.
  rewrite Hresp in Hr. rewrite <- (proxy_searchPlaces w this b Hc) in Hr.
  rewrite (serve_bind_return w _ _ _ _ Hr).
  unfold bind, lift, ret, show_length. rewrite Hq. cbn [ToString].
  now rewrite formatSearchResults_length.
Qed.

(** Three places found for "pizza". *)
Lemma search_answer_witness :
  exists msg,
    snd (app (sampleWorld
                (PlacesClient.mk
                   (fun _ _ =>
                      Return (SearchResponse.mk
                                (Some [samplePlace; ProviderPlace.empty; samplePlace])))
                   (fun _ _ => Return (SearchResponse.mk None))
                   (fun _ _ => Return ProviderPlace.empty)))
           (mkRequest POST searchPath pizzaParams))
    = ok (PlaceList
            (PlacesService.formatSearchResults
               [samplePlace; ProviderPlace.empty; samplePlace]))
        (Some 3%nat) msg.
Proof.
  pose (c := PlacesClient.mk
               (fun _ _ =>
                  Return (SearchResponse.mk
                            (Some [samplePlace; ProviderPlace.empty; samplePlace])))
               (fun _ _ => Return (SearchResponse.mk None))
               (fun _ _ => Return ProviderPlace.empty)).
  destruct (search_answer (sampleWorld c) (PlacesService.mk c) pizzaParams
              (SearchResponse.mk
                 (Some [samplePlace; ProviderPlace.empty; samplePlace]))
              eq_refl eq_refl eq_refl) as (q & _ & Happ).
  eexists. unfold c in Happ. rewrite Happ. reflexivity.
Defined.



(** X7: a detail lookup that the provider answers makes one provider call,
    for the resource ["places/<placeId>"] with the twelve-field mask, where
    the place id is the segment of the path after the mount point with its
    escapes decoded; it is answered 200 with the normalised details, without
    [count], and the message naming the place by its normalised name. *)
Theorem details_answer (w : World) (this : PlacesService.t)
  (seg placeId : string) (b : value) (place : ProviderPlace.t) :
  PlacesService.constructor w = Return this ->
  placeId <> "" ->
  includes seg "/" = false ->
  decodeURIComponent seg = Some placeId ->
  PlacesClient.getPlace (PlacesService.placesClient this)
    (GetPlaceRequest.mk ("places/" ++ placeId))
    (Some "id,displayName,formattedAddress,location,rating,priceLevel,types,currentOpeningHours,nationalPhoneNumber,websiteUri,reviews,photos")
    = Return place ->
  app w (mkRequest GET (detailPath seg) b)
  = ( [ GetPlace (GetPlaceRequest.mk ("places/" ++ placeId))
          (Some "id,displayName,formattedAddress,location,rating,priceLevel,types,currentOpeningHours,nationalPhoneNumber,websiteUri,reviews,photos") ],
      ok (Details (PlacesService.formatPlaceDetails (env w) place)) None
        ("Details for "
           ++ or_default truthy_str
                (opt_chain (ProviderPlace.displayName place) LocalizedText.text)
                "Unknown") ).
Proof.
  intros Hc Hne Hfree Hdec Hplace. rewrite (app_placeById w _ _ b Hne Hfree Hdec).
  unfold Routes.placeById. rewrite (truthy_str_true _ Hne). cbn [negb].
  pose proof (getPlaceDetails_run w this placeId Hc) as Hr.
  change PlacesService.detailsFieldMask
    with "id,displayName,formattedAddress,location,rating,priceLevel,types,currentOpeningHours,nationalPhoneNumber,websiteUri,reviews,photos"
    in Hr.
  rewrite Hplace in Hr.
  now rewrite (serve_bind_return w _ _ _ _ Hr).
Qed.

(** The details of the sample place, asked for with an escaped letter in
    the path: the provider is asked for "places/ChIJ123". *)
Lemma details_answer_witness :
  app (sampleWorld (detailClient samplePlace))
    (mkRequest GET (detailPath "ChI%4A123") (VObj []))
  = ( [ GetPlace (GetPlaceRequest.mk "places/ChIJ123")
          (Some PlacesService.detailsFieldMask) ],
      ok (Details (PlacesService.formatPlaceDetails sampleEnv samplePlace)) None
        "Details for Cafe" ).
Proof.
  rewrite (details_answer (sampleWorld (detailClient samplePlace))
             (PlacesService.mk (detailClient samplePlace)) "ChI%4A123" "ChIJ123"
             (VObj []) samplePlace eq_refl).
  - reflexivity.
  - discriminate.
  - reflexivity.
  - reflexivity.
  - reflexivity.
Defined.

Lemma constructor_missing_key (w : World) :
  missing (GOOGLE_PLACES_API_KEY (env w)) ->
  PlacesService.constructor w = Throw (Error missingKeyMessage).
Proof.
  unfold PlacesService.constructor. now intros [-> | ->].
Qed.

Lemma serve_no_instance (w : World) {A} (k : PlacesService.t -> M A)
  (k' : A -> M Response) :
  missing (GOOGLE_PLACES_API_KEY (env w)) ->
  serve w (bind (bind (placesService.instance w) k) k')
  = ([], errorHandler w (Error missingKeyMessage)).
Proof.
  intros Hk. unfold serve, run, bind, placesService.instance, lift.
  now rewrite (constructor_missing_key w Hk).
Qed.

(** X8: while the credential variable is unset or empty, every
    adapter-backed route that passes validation, and the detail route on
    every segment that decodes to a place id, is answered 500 with code
    "INTERNAL_ERROR", not 401: the constructor's message does not hold the
    text the key branch of [errorHandler] looks for. No provider call is
    made. *)
Theorem missing_key_is_internal_error (w : World) :
  missing (GOOGLE_PLACES_API_KEY (env w)) ->
  (forall b,
      validateSearchParams b = None ->
      fst (app w (mkRequest POST searchPath b)) = []
      /\ is_internal_error (snd (app w (mkRequest POST searchPath b))))
  /\ (forall b,
      validateLocationParams b = None ->
      fst (app w (mkRequest POST nearbyPath b)) = []
      /\ is_internal_error (snd (app w (mkRequest POST nearbyPath b))))
  /\ (forall seg placeId b,
      placeId <> "" ->
      includes seg "/" = false ->
      decodeURIComponent seg = Some placeId ->
      fst (app w (mkRequest GET (detailPath seg) b)) = []
      /\ is_internal_error (snd (app w (mkRequest GET (detailPath seg) b)))).
Proof.
  intros Hk. split; [|split].
  - intros b Hv. rewrite app_search. unfold Routes.search. cbn [body].
    rewrite Hv. unfold placesService.searchPlaces.
    rewrite (serve_no_instance w _ _ Hk). split; [reflexivity|].
    now apply errorHandler_generic.
  - intros b Hv. rewrite app_nearby. unfold Routes.nearby. cbn [body].
    rewrite Hv. unfold placesService.findNearbyPlaces.
    rewrite (serve_no_instance w _ _ Hk). split; [reflexivity|].
    now apply errorHandler_generic.
  - intros seg placeId b Hne Hfree Hdec.
    rewrite (app_placeById w _ _ b Hne Hfree Hdec).
    unfold Routes.placeById. rewrite (truthy_str_true _ Hne). cbn [negb].
    unfold placesService.getPlaceDetails.
    rewrite (serve_no_instance w _ _ Hk). split; [reflexivity|].
    now apply errorHandler_generic.
Qed.

(** A text search on a server started without the variable. *)
Lemma missing_key_is_internal_error_witness :
  fst (app (mkWorld (mkEnv None None) quietClient (fun _ => "n"))
         (mkRequest POST searchPath pizzaParams)) = []
  /\ is_internal_error
       (snd (app (mkWorld (mkEnv None None) quietClient (fun _ => "n"))
               (mkRequest POST searchPath pizzaParams))).
Proof.
  apply (proj1 (missing_key_is_internal_error
                  (mkWorld (mkEnv None None) quietClient (fun _ => "n"))
                  (or_introl eq_refl)) pizzaParams).
  reflexivity.
Defined.

(** X9: below the mount point a [POST] is routed only to [search] and
    [nearby] (compared without case): on any other single segment, the empty
    one included, it gets the 404 of the framework when the segment decodes,
    and no provider call is made. When the segment does not decode, the
    layer of the detail route, which matches paths before methods, throws
    while decoding it, and the [POST] is answered by [errorHandler] with that
    error instead. *)
Theorem unrouted_post_is_404 (w : World) (seg : string) (b : value) :
  includes seg "/" = false ->
  lower seg <> "search" ->
  lower seg <> "nearby" ->
  (decodeURIComponent seg <> None ->
   app w (mkRequest POST (detailPath seg) b) = ([], mkResponse 404 NotFound))
  /\ (decodeURIComponent seg = None ->
      app w (mkRequest POST (detailPath seg) b)
      = ([], errorHandler w
               (URIError ("Failed to decode param '" ++ seg ++ "'")))).
Proof.
  intros Hfree Hs Hn.
  assert (Happ :
    app w (mkRequest POST (detailPath seg) b)
    = match (if seg =? "" then Differs else
             match decode_param seg with
             | Return v => Matches [("placeId", v)]
             | Throw e => Undecodable e
             end) with
      | Undecodable e => serve w (throw e)
      | _ => ([], mkResponse 404 NotFound)
      end).
  { unfold app. cbn [path method].
    rewrite (segments_detailPath _ Hfree), under_mount_places.
    apply String.eqb_neq in Hs, Hn.
    unfold placesRouter, dispatch.
    cbn [route_method route_path route_handler Method_eqb method match_path].
    change (lower "search") with "search". change (lower "nearby") with "nearby".
    rewrite Hs, Hn.
    destruct (seg =? ""); [now destruct (lower seg =? lower "types")|].
    destruct (decode_param seg); [|reflexivity].
    now destruct (lower seg =? lower "types"). }
  rewrite Happ. split; intros Hdec.
  - destruct (seg =? ""); [reflexivity|].
    unfold decode_param. now destruct (decodeURIComponent seg).
  - destruct (seg =? "") eqn:E.
    + apply String.eqb_eq in E. subst seg. discriminate Hdec.
    + now rewrite (decode_param_undecodable _ Hdec).
Qed.

(** There is no [POST /api/places/types]; and a [POST] on a segment cut
    short in an escape, with the word the quota branch looks for in it, is
    answered 429. *)
Lemma unrouted_post_is_404_witness :
  app (sampleWorld quietClient) (mkRequest POST typesPath nearbyBody)
  = ([], mkResponse 404 NotFound)
  /\ app (sampleWorld quietClient)
       (mkRequest POST (detailPath "%quota") nearbyBody)
     = ( [],
         failure 429 "API quota exceeded. Please try again later."
           (Some "QUOTA_EXCEEDED") None ).
Proof.
  split.
  - apply (proj1 (unrouted_post_is_404 (sampleWorld quietClient) "types"
                    nearbyBody eq_refl ltac:(discriminate) ltac:(discriminate))).
    discriminate.
  - rewrite (proj2 (unrouted_post_is_404 (sampleWorld quietClient) "%quota"
                      nearbyBody eq_refl ltac:(discriminate) ltac:(discriminate))
               eq_refl).
    reflexivity.
Defined.

End RouteAnswers.

(* ------------------------------------------------------------------------- *)
(** ** Error classification *)
(* ------------------------------------------------------------------------- *)

Section ErrorClassification.

Lemma quota_signal_dec (e : JS.error) :
  (includes (err_message e) "quota"
   || match err_code e with
      | Some c => c =? "OVER_QUERY_LIMIT"
      | None => false
      end)%bool = true
  <-> quota_signal e.
Proof.
  unfold quota_signal. rewrite orb_true_iff.
  destruct (err_code e) as [c|].
  - rewrite String.eqb_eq. split; intros [H|H]; auto; [right|right]; congruence.
  - split; intros [H|H]; auto; discriminate.
Qed.

Lemma key_signal_dec (e : JS.error) :
  (includes (err_message e) "API key"
   || match err_code e with
      | Some c => c =? "REQUEST_DENIED"
      | None => false
      end)%bool = true
  <-> key_signal e.
Proof.
  unfold key_signal. rewrite orb_true_iff.
  destruct (err_code e) as [c|].
  - rewrite String.eqb_eq. split; intros [H|H]; auto; [right|right]; congruence.
  - split; intros [H|H]; auto; discriminate.
Qed.

(** X10: [errorHandler] tests the quota signal first, the key signal
    second, the error name third: an error with a quota signal is answered 429
    whatever else it carries; without it, a key signal gives 401; without
    both, a [ValidationError] gives 400 with the error's own message; anything
    else gives 500. *)
Theorem errorHandler_classifies (w : World) (e : JS.error) :
  (quota_signal e ->
   errorHandler w e
   = failure 429 "API quota exceeded. Please try again later."
       (Some "QUOTA_EXCEEDED") None)
  /\ (~ quota_signal e -> key_signal e ->
      errorHandler w e
      = failure 401 "Invalid API key configuration." (Some "INVALID_API_KEY") None)
  /\ (~ quota_signal e -> ~ key_signal e -> err_name e = "ValidationError" ->
      errorHandler w e
      = failure 400 (err_message e) (Some "VALIDATION_ERROR") None)
  /\ (~ quota_signal e -> ~ key_signal e -> err_name e <> "ValidationError" ->
      is_internal_error (errorHandler w e)).
Proof.
  unfold errorHandler.
  destruct (includes (err_message e) "quota"
            || match err_code e with
               | Some c => c =? "OVER_QUERY_LIMIT"
               | None => false
               end)%bool eqn:Hq.
  - apply quota_signal_dec in Hq. repeat split; intros; try reflexivity;
      contradiction.
  - assert (Hnq : ~ quota_signal e).
    { intros H. apply quota_signal_dec in H. congruence. }
    destruct (includes (err_message e) "API key"
              || match err_code e with
                 | Some c => c =? "REQUEST_DENIED"
                 | None => false
                 end)%bool eqn:Hk.
    + apply key_signal_dec in Hk. repeat split; intros; try reflexivity;
        contradiction.
    + assert (Hnk : ~ key_signal e).
      { intros H. apply key_signal_dec in H. congruence. }
      split; [intros; contradiction|]. split; [intros; contradiction|].
      split.
      * intros _ _ Hn. apply String.eqb_eq in Hn. now rewrite Hn.
      * intros _ _ Hn. apply String.eqb_neq in Hn. rewrite Hn.
        split; [reflexivity|]. eexists. now split.
Qed.

(** An error with both signals is a quota error. *)
Lemma errorHandler_classifies_witness :
  errorHandler (sampleWorld quietClient)
    (mkError "ValidationError" "API key quota exhausted" (Some "REQUEST_DENIED"))
  = failure 429 "API quota exceeded. Please try again later."
      (Some "QUOTA_EXCEEDED") None.
Proof.
  apply (proj1 (errorHandler_classifies (sampleWorld quietClient)
                  (mkError "ValidationError" "API key quota exhausted"
                     (Some "REQUEST_DENIED")))).
  left. reflexivity.
Defined.

(** X11: the answer of [errorHandler] carries a [details] member exactly
    when it is the 500 answer and [NODE_ENV] is "development"; the member is
    then the message of the error. *)
Theorem errorHandler_details (w : World) (e : JS.error) (d : string) :
  response_details (errorHandler w e) = Some d
  <-> status (errorHandler w e) = 500%nat
      /\ NODE_ENV (env w) = Some "development"
      /\ d = err_message e.
Proof.
  unfold errorHandler.
  repeat match goal with
         | |- context [if ?c then _ else _] =>
             lazymatch c with
             | (_ =? "development") => fail
             | _ => destruct c
             end
         end; cbn [response_details failure json details status];
    try (split; [discriminate|intros [H _]; discriminate]).
  destruct (NODE_ENV (env w)) as [mode|];
    [|split; [discriminate|intros (_ & H & _); discriminate]].
  destruct (mode =? "development") eqn:Hm.
  - apply String.eqb_eq in Hm. subst mode. split.
    + intros [= <-]. now repeat split.
    + intros (_ & _ & ->). reflexivity.
  - apply String.eqb_neq in Hm. split; [discriminate|].
    intros (_ & [= H] & _). congruence.
Qed.

(** In development the message of an unclassified error is sent along. *)
Lemma errorHandler_details_witness :
  response_details (errorHandler devWorld (Error "boom")) = Some "boom".
Proof.
  apply (proj2 (errorHandler_details devWorld (Error "boom") "boom")).
  repeat split.
Defined.

End ErrorClassification.

(* ------------------------------------------------------------------------- *)
(** ** The adapter: errors, requests, identifiers, revisions *)
(* ------------------------------------------------------------------------- *)

Section Adapter.

Lemma try_catch_rethrows {A} (m : M A) (e0 e : JS.error) (log log' : list Call) :
  try_catch m (fun _ => throw e0) log = (log', Throw e) -> e = e0.
Proof.
  unfold try_catch, throw. destruct (m log) as [l [a|e1]]; intros [= _ H];
    congruence.
Qed.

Lemma bind_throws {A B} (m : M A) (k : A -> M B)
  (log log' : list Call) (e : JS.error) :
  bind m k log = (log', Throw e) ->
  m log = (log', Throw e)
  \/ exists a log1, m log = (log1, Return a) /\ k a log1 = (log', Throw e).
Proof.
  unfold bind. destruct (m log) as [log1 [a|e1]]; intros H.
  - right. now exists a, log1.
  - left. injection H as -> ->. reflexivity.
Qed.

Lemma instance_throws (w : World) (log log' : list Call) (e : JS.error) :
  placesService.instance w log = (log', Throw e) -> e = Error missingKeyMessage.
Proof.
  unfold placesService.instance, lift, PlacesService.constructor.
  destruct (GOOGLE_PLACES_API_KEY (env w)) as [k|];
    [destruct (truthy_str k)|]; intros [= _ <-]; reflexivity.
Qed.

Lemma try_catch_throws_only {A} (m : M A) (e0 : JS.error) (log : list Call) :
  throws_only [e0] (snd (try_catch m (fun _ => throw e0) log)).
Proof.
  destruct (try_catch m (fun _ => throw e0) log) as [log' [a|e]] eqn:H;
    cbn [snd throws_only]; [exact I|].
  left. symmetry. now apply try_catch_rethrows in H.
Qed.

Lemma proxy_throws_only {A} (w : World) (k : PlacesService.t -> M A)
  (e0 : JS.error) :
  (forall this log, throws_only [e0] (snd (k this log))) ->
  throws_only [e0; Error missingKeyMessage]
    (snd (run (bind (placesService.instance w) k))).
Proof.
  intros Hk. unfold run.
  destruct (bind (placesService.instance w) k []) as [log' [a|e]] eqn:H;
    cbn [snd throws_only]; [exact I|].
  apply bind_throws in H. destruct H as [H|(this & l & _ & H)].
  - right. left. symmetry. now apply instance_throws in H.
  - left. pose proof (Hk this l) as Ht. rewrite H in Ht.
    cbn [snd throws_only] in Ht. now destruct Ht.
Qed.

(** On parameters that are not null or undefined, the [catch] of
    [searchPlaces] reads its two members and throws the generic error. *)
Lemma searchPlaces_throws_only (this : PlacesService.t) (params : value)
  (log : list Call) :
  nullish params = false ->
  throws_only [Error "Failed to search places"]
    (snd (PlacesService.searchPlaces this params log)).
Proof.
  intros Hp. unfold PlacesService.searchPlaces, try_catch.
  match goal with
  | |- context [match ?m log with _ => _ end] => destruct (m log) as [l [a|e]]
  end; cbn [snd throws_only]; [exact I|].
  unfold bind, lift, throw. rewrite !(get_strict_ok _ _ Hp).
  cbn [snd throws_only]. now left.
Qed.

(** X12: whatever goes wrong inside an adapter method, the provider's error
    included, what the method throws is its one fixed error, which carries no
    code and nothing of the cause; through the exported service the only
    other error is the one of the constructor. There is one exception:
    [searchPlaces] of the later revision, called with null or undefined,
    throws a [TypeError] and makes no call, because its [catch] reads
    [params.query] for its log line; the earlier revision throws its generic
    error there too. *)
Theorem adapter_errors_are_generic (w : World) (this : PlacesService.t) :
  (forall params,
      nullish params = false ->
      throws_only [Error "Failed to search places"]
        (snd (run (PlacesService.searchPlaces this params))))
  /\ (forall params,
      nullish params = true ->
      exists e,
        get_strict params "query" = Throw e
        /\ err_name e = "TypeError"
        /\ run (PlacesService.searchPlaces this params) = ([], Throw e)
        /\ run (EagerPlacesService.searchPlaces this params)
           = ([], Throw (Error "Failed to search places")))
  /\ (forall params,
      throws_only [Error "Failed to search places"]
        (snd (run (EagerPlacesService.searchPlaces this params))))
  /\ (forall placeId,
      throws_only [Error "Failed to get place details"]
        (snd (run (PlacesService.getPlaceDetails w this placeId))))
  /\ (forall location type radius,
      throws_only [Error "Failed to find nearby places"]
        (snd (run (PlacesService.findNearbyPlaces this location type radius))))
  /\ (forall params,
      nullish params = false ->
      throws_only [Error "Failed to search places"; Error missingKeyMessage]
        (snd (run (placesService.searchPlaces w params))))
  /\ (forall placeId,
      throws_only [Error "Failed to get place details"; Error missingKeyMessage]
        (snd (run (placesService.getPlaceDetails w placeId))))
  /\ (forall location type radius,
      throws_only [Error "Failed to find nearby places"; Error missingKeyMessage]
        (snd (run (placesService.findNearbyPlaces w location type radius)))).
Proof.
  split; [|split; [|split; [|split; [|split; [|split; [|split]]]]]].
  - intros params Hp. now apply searchPlaces_throws_only.
  - intros params Hp. destruct params; try discriminate Hp;
      eexists; (split; [reflexivity|]); now repeat split.
  - intros params. apply try_catch_throws_only.
  - intros placeId. apply try_catch_throws_only.
  - intros location type radius. apply try_catch_throws_only.
  - intros params Hp. apply proxy_throws_only.
    intros this' log. now apply searchPlaces_throws_only.
  - intros placeId. apply proxy_throws_only.
    intros this' log. apply try_catch_throws_only.
  - intros location type radius. apply proxy_throws_only.
    intros this' log. apply try_catch_throws_only.
Qed.

(** [searchPlaces(undefined)] in the two revisions. *)
Lemma adapter_errors_are_generic_witness :
  exists e,
    run (PlacesService.searchPlaces (PlacesService.mk quietClient) VUndefined)
    = ([], Throw e)
    /\ err_name e = "TypeError"
    /\ run (EagerPlacesService.searchPlaces (PlacesService.mk quietClient)
              VUndefined)
       = ([], Throw (Error "Failed to search places")).
Proof.
  destruct (proj1 (proj2 (adapter_errors_are_generic (sampleWorld quietClient)
                            (PlacesService.mk quietClient)))
              VUndefined eq_refl) as (e & _ & Hname & Hlater & Hearlier).
  exists e. now repeat split.
Defined.








Lemma In_slice0 {A} (n : nat) (l : list A) (x : A) :
  In x (slice0 n l) -> In x l.
Proof.
  unfold slice0. revert l. induction n as [|n IH]; intros [|y l] H;
    try contradiction.
  destruct H as [->|H]; [now left|right; now apply IH].
Qed.

Lemma formatPhoto_named (env0 : Env) (photo : ProviderPhoto.t) (nm : string) :
  ProviderPhoto.name photo = Some nm -> nm <> "" ->
  EagerPlacesService.formatPhoto env0 photo = PlacesService.formatPhoto env0 photo.
Proof.
  intros Hn Hne. unfold EagerPlacesService.formatPhoto, PlacesService.formatPhoto.
  rewrite Hn. cbn [or_else]. now rewrite (truthy_str_true _ Hne).
Qed.

(** X15: the two revisions of [formatPlaceDetails] differ in the photos at
    most. They agree altogether on a place whose every photo has a non-empty
    name; for a photo that only has a [photoReference], the later revision
    builds the URL from the reference where the earlier one builds it from
    "undefined". *)
Theorem revisions_differ_in_photos_only (env0 : Env) (place : ProviderPlace.t) :
  without_photos (EagerPlacesService.formatPlaceDetails env0 place)
    = without_photos (PlacesService.formatPlaceDetails env0 place)
  /\ ((forall photos photo,
          ProviderPlace.photos place = Some photos -> In photo photos ->
          exists nm, ProviderPhoto.name photo = Some nm /\ nm <> "") ->
      EagerPlacesService.formatPlaceDetails env0 place
        = PlacesService.formatPlaceDetails env0 place)
  /\ (forall ref,
        ref <> "" ->
        PlacesService.formatPhoto env0 (ProviderPhoto.mk None (Some ref))
          = PlacesService.mediaUrl env0 (Some ref)
        /\ EagerPlacesService.formatPhoto env0 (ProviderPhoto.mk None (Some ref))
          = PlacesService.mediaUrl env0 None).
Proof.
  split; [reflexivity|]. split.
  - intros Hnamed.
    unfold EagerPlacesService.formatPlaceDetails, PlacesService.formatPlaceDetails.
    f_equal. destruct (ProviderPlace.photos place) as [photos|]; [|reflexivity].
    cbn [opt_chain or_else always]. f_equal.
    apply map_ext_in. intros photo Hin. apply In_slice0 in Hin.
    destruct (Hnamed photos photo eq_refl Hin) as (nm & Hn & Hne).
    now apply (formatPhoto_named env0 photo nm).
  - intros ref Hne. split; [|reflexivity].
    unfold PlacesService.formatPhoto. cbn [ProviderPhoto.name
      ProviderPhoto.photoReference or_else]. reflexivity.
Qed.

(** The sample place, whose photos are all named. *)
Lemma revisions_differ_in_photos_only_witness :
  EagerPlacesService.formatPlaceDetails sampleEnv samplePlace
  = PlacesService.formatPlaceDetails sampleEnv samplePlace.
Proof.
  apply (proj1 (proj2 (revisions_differ_in_photos_only sampleEnv samplePlace))).
  intros photos photo [= <-] Hin.
  cbn [map In samplePhoto] in Hin.
  repeat (destruct Hin as [<- | Hin];
          [eexists; split; [reflexivity|discriminate]|]).
  contradiction.
Defined.



End Adapter.

(* ------------------------------------------------------------------------- *)
(** ** The tool shell: listing, arguments, absence of validation *)
(* ------------------------------------------------------------------------- *)

Section ToolShell.

Import TalkForceMCPServer.

(** X17: the tools the listing advertises are the tools the call handler
    dispatches: each of the four listed names goes to its handler, any other
    name is answered by the "Unknown tool" error, and no name is listed
    twice. *)
Theorem listed_tools_are_dispatched (w : World) (name : string) (args : value) :
  (In name (map Tool.name listTools) ->
   (name = "search_places" /\ handler w name args = handleSearchPlaces w args)
   \/ (name = "find_nearby_places"
       /\ handler w name args = handleFindNearbyPlaces w args)
   \/ (name = "get_place_details"
       /\ handler w name args = handleGetPlaceDetails w args)
   \/ (name = "get_place_types" /\ handler w name args = handleGetPlaceTypes))
  /\ (~ In name (map Tool.name listTools) ->
      run (callTool w name args)
      = ([], Return (errorResponse name ("Unknown tool: " ++ name))))
  /\ NoDup (map Tool.name listTools).
Proof.
  split; [|split].
  - cbn [map listTools Tool.name In].
    intros [H|[H|[H|[H|H]]]];
      [left|right; left|right; right; left|right; right; right|contradiction];
      subst name; now split.
  - cbn [map listTools Tool.name In]. intros Hn.
    assert (Hk : known_tool name = false).
    { unfold known_tool. repeat (apply orb_false_iff; split);
        apply String.eqb_neq; intros ->; apply Hn; tauto. }
    unfold callTool, run, try_catch.
    pose proof (handler_unknown w name args Hk) as Hu. unfold run in Hu.
    now rewrite Hu.
  - cbn [map listTools Tool.name].
    repeat constructor; cbn [In]; intros H;
      repeat (destruct H as [H|H]; [discriminate H|]); exact H.
Qed.

(** A name that is not listed. *)
Lemma listed_tools_are_dispatched_witness :
  run (callTool (sampleWorld quietClient) "Search_Places" pizzaParams)
  = ([], Return (errorResponse "Search_Places" "Unknown tool: Search_Places")).
Proof.
  apply (proj1 (proj2 (listed_tools_are_dispatched (sampleWorld quietClient)
                         "Search_Places" pizzaParams))).
  cbn [map listTools Tool.name In]. intros H.
  repeat (destruct H as [H|H]; [discriminate H|]). exact H.
Defined.

Lemma callTool_calls (w : World) (name : string) (args : value) :
  fst (run (callTool w name args)) = fst (run (handler w name args)).
Proof.
  unfold callTool, run, try_catch.
  now destruct (handler w name args []) as [calls [r|e]].
Qed.

Lemma bind_calls {A B} (m : M A) (k : A -> M B) (calls : list Call)
  (o : outcome A) :
  run m = (calls, o) ->
  (forall a, fst (k a calls) = calls) ->
  fst (run (bind m k)) = calls.
Proof.
  unfold run, bind. intros -> Hk. destruct o as [a|e]; [apply Hk|reflexivity].
Qed.

Lemma rebuilt_request (args : value) :
  PlacesService.textSearchRequest
    (VObj ((("query", get args "query")
              :: spread_if "location" (get args "location"))
             ++ spread_if "radius" (get args "radius")
             ++ spread_if "type" (get args "type"))%list)
  = toolSearchRequest args.
Proof.
  unfold PlacesService.textSearchRequest, toolSearchRequest, spread_if,
    restriction, or, PlacesService.default_5000.
  cbn [get].
  destruct (truthy (get args "location")) eqn:Hl;
    destruct (truthy (get args "radius")) eqn:Hr;
    destruct (truthy (get args "type")) eqn:Ht;
    cbn [List.app assoc String.eqb Ascii.eqb Bool.eqb truthy is_undefined];
    rewrite ?Hl, ?Ht; try reflexivity;
    destruct (get args "radius"); try discriminate Hr; reflexivity.
Qed.

(** X18: the search tool validates nothing. Called with anything but null
    or undefined, it makes one provider call: the query as given, even when
    missing or not a string; a bias circle whenever the location is truthy,
    with the radius when that is truthy and 5000 otherwise; the type filter
    whenever the type is truthy. *)
Theorem search_tool_forwards_unvalidated (w : World) (this : PlacesService.t)
  (args : value) :
  PlacesService.constructor w = Return this ->
  nullish args = false ->
  fst (run (callTool w "search_places" args))
  = [ SearchText (toolSearchRequest args) (Some PlacesService.searchFieldMask) ].
Proof.
  intros Hc Hn. rewrite callTool_calls.
  change (handler w "search_places" args) with (handleSearchPlaces w args).
  pose proof (searchPlaces_run this
                (VObj ((("query", get args "query")
                          :: spread_if "location" (get args "location"))
                         ++ spread_if "radius" (get args "radius")
                         ++ spread_if "type" (get args "type"))%list)
                eq_refl) as Hr.
  rewrite rebuilt_request in Hr.
  rewrite <- (proxy_searchPlaces w this _ Hc) in Hr.
  unfold handleSearchPlaces, run, bind, lift in *.
  rewrite (get_strict_ok _ _ Hn). rewrite Hr.
  destruct (PlacesClient.searchText _ _ _) as [response|e]; [|reflexivity].
  now destruct (ToString (Number_toString w) (get args "query")).
Qed.

(** A search tool call without a query and with a radius of 0. *)
Lemma search_tool_forwards_unvalidated_witness :
  fst (run (callTool (sampleWorld quietClient) "search_places"
              (VObj [ ("location", VObj [("lat", VNum 200); ("lng", VNum 0)]);
                      ("radius", VNum 0) ])))
  = [ SearchText
        {| TextSearchRequest.textQuery := VUndefined;
           TextSearchRequest.maxResultCount := 10;
           TextSearchRequest.locationBias :=
             Some (Area.mk (Circle.mk (Center.mk (VNum 200) (VNum 0)) (VNum 5000)));
           TextSearchRequest.includedType := None |}
        (Some PlacesService.searchFieldMask) ].
Proof.
  exact (search_tool_forwards_unvalidated (sampleWorld quietClient)
           (PlacesService.mk quietClient)
           (VObj [ ("location", VObj [("lat", VNum 200); ("lng", VNum 0)]);
                   ("radius", VNum 0) ])
           eq_refl eq_refl).
Defined.

(** X19: the nearby tool validates nothing either. With a location that is
    not null or undefined it makes one provider call, for the type as given
    and the circle around the coordinates as given, out of range or not, with
    the radius when that is truthy and 5000 otherwise. With a null or missing
    location it makes no call and answers with the error variant. *)
Theorem nearby_tool_forwards_unvalidated (w : World) (this : PlacesService.t)
  (args : value) :
  PlacesService.constructor w = Return this ->
  nullish args = false ->
  (nullish (get args "location") = false ->
   fst (run (callTool w "find_nearby_places" args))
   = [ SearchNearby
         {| NearbyRequest.includedTypes := [get args "type"];
            NearbyRequest.maxResultCount := 10;
            NearbyRequest.locationRestriction :=
              restriction (get args "location")
                (or (get args "radius") (VNum 5000)) |}
         (Some PlacesService.searchFieldMask) ])
  /\ (nullish (get args "location") = true ->
      run (callTool w "find_nearby_places" args)
      = ( [],
          Return (errorResponse "find_nearby_places"
                    "Failed to find nearby places") )).
Proof.
  intros Hc Hn. split; intros Hl.
  - rewrite callTool_calls.
    change (handler w "find_nearby_places" args)
      with (handleFindNearbyPlaces w args).
    destruct (findNearbyPlaces_run this (get args "location") (get args "type")
                (or (get args "radius") (VNum 5000)) Hl)
      as (request & Hreq & _ & Hr).
    rewrite default_5000_or in Hreq.
    unfold PlacesService.nearbyRequest in Hreq.
    rewrite !(get_strict_ok _ _ Hl) in Hreq. injection Hreq as <-.
    rewrite <- (proxy_findNearbyPlaces w this _ _ _ Hc) in Hr.
    unfold handleFindNearbyPlaces, run, bind, lift in *.
    rewrite (get_strict_ok _ _ Hn). rewrite Hr.
    destruct (PlacesClient.searchNearby _ _ _) as [response|e]; [|reflexivity].
    now destruct (ToString (Number_toString w) (get args "type")).
  - change (callTool w "find_nearby_places" args)
      with (try_catch (handleFindNearbyPlaces w args)
              (fun error =>
                 ret (errorResponse "find_nearby_places" (err_message error)))).
    unfold handleFindNearbyPlaces, run, try_catch, bind, lift,
      placesService.findNearbyPlaces, placesService.instance.
    rewrite (get_strict_ok _ _ Hn), Hc.
    destruct (get args "location"); try discriminate Hl; reflexivity.
Qed.

(** The body the HTTP route refuses for its latitude of 200 reaches the
    provider through the tool. *)
Lemma nearby_tool_forwards_unvalidated_witness :
  fst (run (callTool (sampleWorld quietClient) "find_nearby_places" farBody))
  = [ SearchNearby
        {| NearbyRequest.includedTypes := [VStr "restaurant"];
           NearbyRequest.maxResultCount := 10;
           NearbyRequest.locationRestriction :=
             Area.mk (Circle.mk (Center.mk (VNum 200) (VNum 0)) (VNum 5000)) |}
        (Some PlacesService.searchFieldMask) ].
Proof.
  exact (proj1 (nearby_tool_forwards_unvalidated (sampleWorld quietClient)
                  (PlacesService.mk quietClient) farBody eq_refl eq_refl)
           eq_refl).
Defined.

(** X20: a call without arguments (null or undefined) is answered with the
    error variant, without a provider call, by the three tools that read
    their arguments; the type tool reads nothing: whatever its arguments and
    the environment, it answers with the 29 types and their count. *)
Theorem tools_without_arguments (w : World) (args : value) :
  (nullish args = true ->
   forall name,
     name = "search_places" \/ name = "find_nearby_places"
     \/ name = "get_place_details" ->
     exists msg,
       run (callTool w name args) = ([], Return (errorResponse name msg)))
  /\ run (callTool w "get_place_types" args) = ([], Return (respond typesEnvelope)).
Proof.
  split; [|reflexivity].
  intros Hn name [-> | [-> | ->]];
    destruct args; try discriminate Hn; eexists; lazy; reflexivity.
Qed.

(** A detail lookup without arguments. *)
Lemma tools_without_arguments_witness :
  exists msg,
    run (callTool (sampleWorld quietClient) "get_place_details" VUndefined)
    = ([], Return (errorResponse "get_place_details" msg)).
Proof.
  exact (proj1 (tools_without_arguments (sampleWorld quietClient) VUndefined)
           eq_refl "get_place_details" (or_intror (or_intror eq_refl))).
Defined.

End ToolShell.

(* ------------------------------------------------------------------------- *)
(** ** The browser client *)
(* ------------------------------------------------------------------------- *)

Section ClientLabels.

Import Client.

Ltac by_cases_on c := destruct c as [[] [] [] [] [] [] [] []]; reflexivity.

Lemma upper_is_word (c : ascii) : is_word (upper_ascii c) = is_word c.
Proof. by_cases_on c. Qed.

Lemma upper_idem (c : ascii) : upper_ascii (upper_ascii c) = upper_ascii c.
Proof. by_cases_on c. Qed.

(** The character [formatPlaceType] writes for [c] is never an underscore. *)
Lemma label_char_no_underscore (c : ascii) (b : bool) :
  let c0 := if Ascii.eqb c "_" then " "%char else c in
  Ascii.eqb (if is_word c0 && b then upper_ascii c0 else c0) "_" = false.
Proof. destruct b; by_cases_on c. Qed.

Lemma includes_underscore_cons (c : ascii) (s : string) :
  includes (String c s) "_" = (Ascii.eqb c "_" || includes s "_")%bool.
Proof.
  cbn [includes String.prefix].
  destruct (ascii_dec "_" c) as [<-|Hne].
  - now destruct s.
  - destruct (Ascii.eqb c "_") eqn:E; [|reflexivity].
    apply Ascii.eqb_eq in E. congruence.
Qed.

Lemma capitalize_length (b : bool) (s : string) :
  String.length (capitalize_words b s) = String.length s.
Proof.
  revert b. induction s as [|c rest IH]; intros b; [reflexivity|].
  cbn [capitalize_words String.length]. now rewrite IH.
Qed.

Lemma replace_length (s : string) :
  String.length (replace_underscores s) = String.length s.
Proof.
  induction s as [|c rest IH]; [reflexivity|].
  cbn [replace_underscores String.length]. now rewrite IH.
Qed.

Lemma label_no_underscore (b : bool) (s : string) :
  includes (capitalize_words b (replace_underscores s)) "_" = false.
Proof.
  revert b. induction s as [|c rest IH]; intros b; [reflexivity|].
  cbn [replace_underscores capitalize_words].
  rewrite includes_underscore_cons, IH, orb_false_r.
  apply (label_char_no_underscore c (negb b)).
Qed.

Lemma replace_label (b : bool) (s : string) :
  replace_underscores (capitalize_words b (replace_underscores s))
  = capitalize_words b (replace_underscores s).
Proof.
  revert b. induction s as [|c rest IH]; intros b; [reflexivity|].
  cbn [replace_underscores capitalize_words].
  rewrite (label_char_no_underscore c (negb b)). now rewrite IH.
Qed.

Lemma capitalize_idem (b : bool) (s : string) :
  capitalize_words b (capitalize_words b s) = capitalize_words b s.
Proof.
  revert b. induction s as [|c rest IH]; intros b; [reflexivity|].
  cbn [capitalize_words].
  destruct (is_word c && negb b)%bool eqn:E.
  - rewrite upper_is_word. rewrite E, upper_idem. f_equal.
    apply andb_true_iff in E. destruct E as [-> _]. apply IH.
  - rewrite E. f_equal. apply IH.
Qed.

(** X21: the label [formatPlaceType] makes of a type has the length of the
    type and no underscore, and is a fixed point of [formatPlaceType]:
    labelling a label changes nothing. *)
Theorem formatPlaceType_label (type : string) :
  String.length (formatPlaceType type) = String.length type
  /\ includes (formatPlaceType type) "_" = false
  /\ formatPlaceType (formatPlaceType type) = formatPlaceType type.
Proof.
  unfold formatPlaceType. split; [|split].
  - now rewrite capitalize_length, replace_length.
  - apply label_no_underscore.
  - rewrite replace_label. apply capitalize_idem.
Qed.

End ClientLabels.

Section ClientForms.

Import Client.

(** [blank] and [ltrim] take one white-space character at a time. *)
Lemma blank_after (s : string) :
  blank s
  = match after_white s with
    | Some r => blank r
    | None => match s with EmptyString => true | _ => false end
    end.
Proof.
  destruct s as [|a r1]; [reflexivity|]. cbn [blank after_white].
  destruct (is_ws a); [reflexivity|].
  destruct r1 as [|b r2]; [reflexivity|].
  destruct (is_ws2 a b); [reflexivity|].
  destruct r2 as [|c r3]; [reflexivity|].
  now destruct (is_ws3 a b c).
Qed.

Lemma ltrim_after (s : string) :
  ltrim s = match after_white s with Some r => ltrim r | None => s end.
Proof.
  destruct s as [|a r1]; [reflexivity|]. cbn [ltrim after_white].
  destruct (is_ws a); [reflexivity|].
  destruct r1 as [|b r2]; [reflexivity|].
  destruct (is_ws2 a b); [reflexivity|].
  destruct r2 as [|c r3]; [reflexivity|].
  now destruct (is_ws3 a b c).
Qed.

Lemma after_white_shorter (s r : string) :
  after_white s = Some r -> (String.length r < String.length s)%nat.
Proof.
  destruct s as [|a r1]; [discriminate|]. cbn [after_white String.length].
  destruct (is_ws a); [intros [= <-]; lia|].
  destruct r1 as [|b r2]; [discriminate|]. cbn [String.length].
  destruct (is_ws2 a b); [intros [= <-]; lia|].
  destruct r2 as [|c r3]; [discriminate|]. cbn [String.length].
  destruct (is_ws3 a b c); [intros [= <-]; lia|discriminate].
Qed.

Lemma after_white_app (s r t : string) :
  after_white s = Some r -> after_white (s ++ t) = Some (r ++ t).
Proof.
  destruct s as [|a r1]; [discriminate|]. cbn [after_white append].
  destruct (is_ws a); [now intros [= <-]|].
  destruct r1 as [|b r2]; [discriminate|]. cbn [append].
  destruct (is_ws2 a b); [now intros [= <-]|].
  destruct r2 as [|c r3]; [discriminate|]. cbn [append].
  destruct (is_ws3 a b c); [now intros [= <-]|discriminate].
Qed.

Lemma blank_ltrim (s : string) : blank (ltrim s) = blank s.
Proof.
  remember (String.length s) as n eqn:Hn. revert s Hn.
  induction n as [n IH] using lt_wf_ind. intros s ->.
  rewrite (ltrim_after s), (blank_after s).
  destruct (after_white s) as [r|] eqn:E.
  - exact (IH _ (after_white_shorter _ _ E) r eq_refl).
  - rewrite (blank_after s), E. reflexivity.
Qed.

(** White space in front of a string does not change whether it is blank. *)
Lemma blank_app (s t : string) : blank s = true -> blank (s ++ t) = blank t.
Proof.
  remember (String.length s) as n eqn:Hn. revert s Hn.
  induction n as [n IH] using lt_wf_ind. intros s -> Hs.
  rewrite (blank_after s) in Hs.
  destruct (after_white s) as [r|] eqn:E.
  - rewrite (blank_after (s ++ t)), (after_white_app _ _ t E).
    exact (IH _ (after_white_shorter _ _ E) r eq_refl Hs).
  - destruct s; [reflexivity|discriminate Hs].
Qed.

Lemma rtrim_cons (c : ascii) (s : string) :
  rtrim (String c s)
  = if blank (String c s) then EmptyString else String c (rtrim s).
Proof. reflexivity. Qed.

(** What [rtrim] cuts off is blank. *)
Lemma rtrim_split (s : string) :
  exists tail, s = rtrim s ++ tail /\ blank tail = true.
Proof.
  induction s as [|c rest IH]; [now exists ""|].
  rewrite rtrim_cons. destruct (blank (String c rest)) eqn:E.
  - now exists (String c rest).
  - destruct IH as (tail & Hs & Ht). exists tail. split; [|exact Ht].
    cbn [append]. now rewrite <- Hs.
Qed.

Lemma blank_rtrim (s : string) : blank (rtrim s) = blank s.
Proof.
  destruct s as [|c rest]; [reflexivity|].
  rewrite rtrim_cons. destruct (blank (String c rest)) eqn:E; [reflexivity|].
  destruct (blank (String c (rtrim rest))) eqn:F; [|reflexivity].
  destruct (rtrim_split rest) as (tail & Hs & Ht).
  pose proof (blank_app (String c (rtrim rest)) tail F) as H.
  cbn [append] in H. rewrite <- Hs, Ht in H. congruence.
Qed.

Lemma rtrim_empty (s : string) : rtrim s = "" <-> blank s = true.
Proof.
  destruct s as [|c rest]; [now split|].
  rewrite rtrim_cons. destruct (blank (String c rest)); split;
    congruence || discriminate.
Qed.

(** [trim] leaves nothing exactly of blank strings, and what it leaves of
    another string is not blank. *)
Lemma trim_empty (s : string) : trim s = "" <-> blank s = true.
Proof. unfold trim. now rewrite rtrim_empty, blank_ltrim. Qed.

Lemma blank_trim (s : string) : blank (trim s) = blank s.
Proof. unfold trim. now rewrite blank_rtrim, blank_ltrim. Qed.

Lemma trim_filled (s : string) : trim s <> "" -> trim (trim s) <> "".
Proof.
  intros H Ht. apply H. apply trim_empty.
  rewrite <- blank_trim. now apply trim_empty.
Qed.

Lemma or_null_unusable (parsed : option Q) :
  unusable parsed -> or_null parsed = None.
Proof.
  intros [->|(q & -> & Hq)]; [reflexivity|].
  unfold or_null, truthy_num. apply Qeq_bool_iff in Hq. now rewrite Hq.
Qed.

Lemma or_null_usable (q : Q) : ~ (q == 0)%Q -> or_null (Some q) = Some q.
Proof.
  intros Hq. unfold or_null, truthy_num.
  destruct (Qeq_bool q 0) eqn:E; [|reflexivity].
  apply Qeq_bool_iff in E. contradiction.
Qed.

Lemma or_null_nonzero (parsed : option Q) (q : Q) :
  or_null parsed = Some q -> ~ (q == 0)%Q.
Proof.
  unfold or_null, truthy_num. destruct parsed as [r|]; [|discriminate].
  destruct (Qeq_bool r 0) eqn:E; [discriminate|]. intros [= <-] Hq.
  apply Qeq_bool_iff in Hq. congruence.
Qed.

(** The members of a search body the form sends. *)
Lemma searchBody_members (queryField : string) (lat lng radius : option Q)
  (typeField : string) (b : value) :
  searchBody queryField lat lng radius typeField = Some b ->
  trim queryField <> ""
  /\ get b "query" = VStr (trim queryField)
  /\ get b "location"
     = match or_null lat, or_null lng with
       | Some la, Some ln => VObj [("lat", VNum la); ("lng", VNum ln)]
       | _, _ => VUndefined
       end
  /\ get b "radius"
     = match or_null radius with Some r => VNum r | None => VUndefined end
  /\ get b "type" = (if truthy_str typeField then VStr typeField else VUndefined).
Proof.
  unfold searchBody.
  destruct (truthy_str (trim queryField)) eqn:Hq; cbn [negb]; [|discriminate].
  intros [= <-]. split; [now apply truthy_str_inv|].
  destruct (or_null lat), (or_null lng), (or_null radius),
    (truthy_str typeField); repeat split.
Qed.

(** X22: the search form sends nothing exactly when its query field is
    blank. What it sends always passes the server's query check. It carries
    no location as soon as either coordinate field is empty, unparsable or
    equal to 0, so a search around a point on the equator or on the prime
    meridian is sent without bias; it carries both coordinates otherwise. It
    carries no radius when that field is empty, unparsable or 0, and no type
    when none is selected. *)
Theorem searchBody_sent (queryField : string) (lat lng radius : option Q)
  (typeField : string) :
  (searchBody queryField lat lng radius typeField = None
   <-> trim queryField = "")
  /\ forall b,
      searchBody queryField lat lng radius typeField = Some b ->
      filled_string (get b "query")
      /\ (unusable lat \/ unusable lng -> get b "location" = VUndefined)
      /\ (forall la ln,
            lat = Some la -> lng = Some ln -> ~ (la == 0)%Q -> ~ (ln == 0)%Q ->
            get b "location" = VObj [("lat", VNum la); ("lng", VNum ln)])
      /\ (unusable radius -> get b "radius" = VUndefined)
      /\ (typeField = "" -> get b "type" = VUndefined).
Proof.
  split.
  - unfold searchBody, truthy_str.
    destruct (trim queryField =? "") eqn:E; cbn [negb].
    + apply String.eqb_eq in E. now split.
    + apply String.eqb_neq in E. split; [discriminate|contradiction].
  - intros b Hb.
    destruct (searchBody_members _ _ _ _ _ _ Hb) as (Hq & Eq & El & Er & Et).
    split; [|split; [|split; [|split]]].
    + exists (trim queryField). split; [exact Eq|]. now apply trim_filled.
    + intros [H|H]; rewrite El, (or_null_unusable _ H);
        [reflexivity|now destruct (or_null lat)].
    + intros la ln -> -> Hla Hln.
      now rewrite El, (or_null_usable _ Hla), (or_null_usable _ Hln).
    + intros H. now rewrite Er, (or_null_unusable _ H).
    + intros ->. now rewrite Et.
Qed.

(** A search for cafes around latitude 0: the location is not sent. A
    query field holding a no-break space: nothing is sent. *)
Lemma searchBody_sent_witness :
  (exists b,
      searchBody " cafes " (Some 0) (Some 32) None "" = Some b
      /\ get b "location" = VUndefined)
  /\ searchBody nbsp None None None "" = None.
Proof.
  split.
  - exists (VObj [("query", VStr "cafes")]). split; [reflexivity|].
    destruct (proj2 (searchBody_sent " cafes " (Some 0) (Some 32) None "")
                (VObj [("query", VStr "cafes")]) eq_refl) as (_ & Hloc & _).
    apply Hloc. left. right. exists 0. split; reflexivity.
  - apply (proj1 (searchBody_sent nbsp None None None "")). reflexivity.
Defined.

Lemma nearby_body_accepted (la ln r : Q) (t : string) :
  validateLocationParams
    (VObj [ ("location", VObj [("lat", VNum la); ("lng", VNum ln)]);
            ("type", VStr t); ("radius", VNum r) ]) = None
  <-> ((-90 <= la)%Q /\ (la <= 90)%Q /\ (-180 <= ln)%Q /\ (ln <= 180)%Q)
      /\ trim t <> ""
      /\ (0 < r)%Q /\ (r <= 50000)%Q.
Proof.
  unfold validateLocationParams.
  cbn [get assoc String.eqb Ascii.eqb Bool.eqb is_undefined negb andb].
  rewrite <- bad_radius_false.
  split.
  - destruct (isValidLocation (VObj [("lat", VNum la); ("lng", VNum ln)])) eqn:Hv;
      [|rewrite orb_true_r; discriminate].
    cbn [truthy negb orb].
    destruct (not_a_filled_string (VStr t)) eqn:Ht; [discriminate|].
    destruct (bad_radius (VNum r)); [discriminate|]. intros _.
    apply isValidLocation_in_range in Hv.
    destruct Hv as (la' & ln' & [= <-] & [= <-] & H).
    apply not_a_filled_string_false in Ht. destruct Ht as (t' & [= <-] & Ht).
    now repeat split.
  - intros ((H1 & H2 & H3 & H4) & Ht & Hr).
    assert (Hv : isValidLocation (VObj [("lat", VNum la); ("lng", VNum ln)]) = true).
    { apply isValidLocation_in_range. exists la, ln. now repeat split. }
    rewrite Hv. cbn [truthy negb orb].
    assert (Hf : not_a_filled_string (VStr t) = false).
    { apply not_a_filled_string_false. now exists t. }
    now rewrite Hf, Hr.
Qed.

(** X23: the nearby form sends nothing when a coordinate field is empty or
    unparsable or no type is selected. What it sends always carries the two
    coordinates as parsed, 0 included, and a radius that is never 0: the 5000
    of the form itself when the field is empty, unparsable or 0. The server
    accepts it exactly when the coordinates are in range, the type is not
    blank and the radius is above 0 and at most 50000. *)
Theorem nearbyBody_sent (lat lng : option Q) (typeField : string)
  (radius : option Q) (b : value) :
  nearbyBody lat lng typeField radius = Some b ->
  exists la ln r,
    lat = Some la /\ lng = Some ln /\ typeField <> ""
    /\ b = VObj [ ("location", VObj [("lat", VNum la); ("lng", VNum ln)]);
                  ("type", VStr typeField); ("radius", VNum r) ]
    /\ ~ (r == 0)%Q
    /\ (unusable radius -> r = 5000)
    /\ (validateLocationParams b = None
        <-> ((-90 <= la)%Q /\ (la <= 90)%Q /\ (-180 <= ln)%Q /\ (ln <= 180)%Q)
            /\ trim typeField <> ""
            /\ (0 < r)%Q /\ (r <= 50000)%Q).
Proof.
  unfold nearbyBody.
  destruct lat as [la|]; [|discriminate]. destruct lng as [ln|]; [|discriminate].
  destruct (truthy_str typeField) eqn:Ht; cbn [negb]; [|discriminate].
  intros [= <-].
  exists la, ln, (match or_null radius with Some r => r | None => 5000 end).
  split; [reflexivity|]. split; [reflexivity|].
  split; [now apply truthy_str_inv|]. split; [reflexivity|].
  split; [|split].
  - destruct (or_null radius) as [r|] eqn:Er.
    + now apply (or_null_nonzero radius).
    + discriminate.
  - intros H. now rewrite (or_null_unusable _ H).
  - apply nearby_body_accepted.
Qed.

(** A nearby search around latitude 0 with an empty radius field. *)
Lemma nearbyBody_sent_witness :
  exists ln r,
    nearbyBody (Some 0) (Some 32) "cafe" None
    = Some (VObj [ ("location", VObj [("lat", VNum 0); ("lng", VNum ln)]);
                   ("type", VStr "cafe"); ("radius", VNum r) ])
    /\ r = 5000.
Proof.
  destruct (nearbyBody_sent (Some 0) (Some 32) "cafe" None _ eq_refl)
    as (la & ln & r & [= <-] & _ & _ & Hb & _ & Hr & _).
  exists ln, r. split.
  - now rewrite <- Hb.
  - apply Hr. now left.
Defined.

End ClientForms.

Section ClientPanes.

Import Client.

(** X24: on a page that shows the pane of its current view, the toggle
    switches to the other pane and back. A request made from the formatted
    view ends with its results visible. A request made from the JSON view
    does not: [showResults] hides the raw pane and leaves the result pane
    hidden, so once the request is over neither pane is visible; the next
    toggle shows the raw pane with the new answer, and only the one after it
    the results. *)
Theorem result_panes (p : Page) (text html : string) :
  coherent p ->
  coherent (toggleResultView p)
  /\ toggleResultView (toggleResultView p) = p
  /\ (currentView p = formatted ->
      coherent (requestCycle text html p)
      /\ resultsMarkup (requestCycle text html p) = Html html
      /\ coherent (clearResults p))
  /\ (currentView p = json ->
      let p' := requestCycle text html p in
      resultsHidden p' = true /\ rawHidden p' = true /\ loadingHidden p' = true
      /\ resultsHidden (toggleResultView p') = true
      /\ rawHidden (toggleResultView p') = false
      /\ rawText (toggleResultView p') = text
      /\ coherent (toggleResultView (toggleResultView p'))
      /\ resultsMarkup (toggleResultView (toggleResultView p')) = Html html).
Proof.
  destruct p as [v rh wh lh m t l i]. unfold coherent. cbn [currentView
    resultsHidden rawHidden toggleLabel toggleIcon].
  destruct v; intros (-> & -> & -> & ->); repeat split; try discriminate;
    reflexivity.
Qed.

(** A new search while the raw JSON is shown. *)
Lemma result_panes_witness :
  resultsHidden (requestCycle "{}" "<p>3 places</p>" jsonPage) = true
  /\ rawHidden (requestCycle "{}" "<p>3 places</p>" jsonPage) = true.
Proof.
  destruct (result_panes jsonPage "{}" "<p>3 places</p>") as (_ & _ & _ & H).
  - cbn. now repeat split.
  - destruct (H eq_refl) as (H1 & H2 & _). now split.
Defined.

End ClientPanes.

(* ------------------------------------------------------------------------- *)
(** ** The application revision with the front end *)
(* ------------------------------------------------------------------------- *)

Section Frontend.

Lemma failure_is_json (s : nat) (msg : string) (c d : option string) :
  exists e, json (failure s msg c d) = Json e.
Proof. now eexists. Qed.

Lemma served_bind_json (w : World) {A B} (m : M A) (o : A -> outcome B)
  (f : A -> B -> Response) :
  (forall a b, exists e, json (f a b) = Json e) ->
  exists e, json (snd (serve w (bind m (fun a => bind (lift (o a))
                                              (fun b => ret (f a b)))))) = Json e.
Proof.
  intros Hf. unfold serve, run, bind, lift, ret.
  destruct (m []) as [calls [a|err]].
  - destruct (o a) as [b|err]; cbn [snd].
    + apply Hf.
    + destruct (errorHandler_failure w err) as (s & msg & c & d & ->).
      apply failure_is_json.
  - cbn [snd]. destruct (errorHandler_failure w err) as (s & msg & c & d & ->).
    apply failure_is_json.
Qed.

Lemma placeById_json (w : World) (placeId : string) :
  exists e, json (snd (serve w (Routes.placeById w placeId))) = Json e.
Proof.
  unfold Routes.placeById.
  destruct (negb (truthy_str placeId));
    [unfold serve, run, ret; cbn; now eexists|].
  unfold serve, run, bind, ret.
  destruct (placesService.getPlaceDetails w (VStr placeId) [])
    as [calls [d|err]]; cbn [snd]; [now eexists|].
  destruct (errorHandler_failure w err) as (s & msg & c & d & ->).
  apply failure_is_json.
Qed.

Lemma search_json (w : World) (req : Request) :
  exists e, json (snd (serve w (Routes.search w req))) = Json e.
Proof.
  unfold Routes.search.
  destruct (validateSearchParams (body req)) as [r|] eqn:Hv.
  - apply validateSearchParams_rejection in Hv. destruct Hv as [msg ->].
    unfold serve, run, ret; cbn; now eexists.
  - apply served_bind_json; intros; now eexists.
Qed.

Lemma nearby_json (w : World) (req : Request) :
  exists e, json (snd (serve w (Routes.nearby w req))) = Json e.
Proof.
  unfold Routes.nearby.
  destruct (validateLocationParams (body req)) as [r|] eqn:Hv.
  - apply validateLocationParams_rejection in Hv. destruct Hv as [msg ->].
    unfold serve, run, ret; cbn; now eexists.
  - apply served_bind_json; intros; now eexists.
Qed.

Lemma thrown_json (w : World) (e : JS.error) :
  exists env, json (snd (serve w (throw e))) = Json env.
Proof.
  unfold serve, run, throw. cbn [snd].
  destruct (errorHandler_failure w e) as (s & msg & c & d & ->).
  apply failure_is_json.
Qed.

(** Whatever the router answers, through a route or through the error it
    ends with, is a JSON envelope. *)
Lemma routed_answers_json (w : World) (req : Request) (segs : list string)
  (handler : M Response) :
  dispatch placesRouter w req segs = Some handler ->
  exists e, json (snd (serve w handler)) = Json e.
Proof.
  unfold placesRouter, dispatch.
  cbn [route_method route_path route_handler].
  repeat match goal with
         | |- context [match match_path ?p ?s with _ => _ end] =>
             destruct (match_path p s)
         | |- context [if ?c then _ else _] => destruct c
         end; try discriminate; intros [= <-];
    first [ apply search_json | apply nearby_json | apply placeById_json
          | apply thrown_json
          | unfold Routes.types, serve, run, ret; cbn; now eexists ].
Qed.

(** X25: the revision that also serves the front end answers like
    [server.ts] except in three ways. A file that [express.static] finds for
    a [GET] is sent instead of anything else, API routes and health check
    included. Where [server.ts] answers a [GET] with the 404 of the framework,
    this revision sends [index.html]; a [POST] that nothing routes still gets
    the 404. And either of the two, when nothing routes it and its path does
    not decode, gets the 400 of the framework: the last route decodes the
    whole path before it looks at the method. *)
Theorem frontend_revision (static : string -> option string) (w : World)
  (req : Request) :
  (forall file,
      method req = GET -> static (path req) = Some file ->
      appWithFrontend static w req = ([], StaticFile file))
  /\ (method req = POST \/ static (path req) = None ->
      (snd (app w req) <> mkResponse 404 NotFound ->
       appWithFrontend static w req = (fst (app w req), Api (snd (app w req))))
      /\ (snd (app w req) = mkResponse 404 NotFound ->
          appWithFrontend static w req
          = ([], match decodeURIComponent (path req), method req with
                 | None, _ => BadRequest
                 | Some _, GET => IndexHtml
                 | Some _, POST => Api (mkResponse 404 NotFound)
                 end))).
Proof.
  split.
  - intros file Hm Hs. unfold appWithFrontend. now rewrite Hm, Hs.
  - intros Hns.
    assert (Hskip :
      appWithFrontend static w req
      = match method req, match_path [Lit "health"] (segments (path req)) with
        | GET, Matches _ => ([], Api (mkResponse 200 Health))
        | _, _ =>
            match opt_chain (under_mount (segments (path req)))
                    (dispatch placesRouter w req) with
            | Some handler =>
                let (calls, response) := serve w handler in (calls, Api response)
            | None =>
                ([], match decodeURIComponent (path req), method req with
                     | None, _ => BadRequest
                     | Some _, GET => IndexHtml
                     | Some _, POST => Api (mkResponse 404 NotFound)
                     end)
            end
        end).
    { unfold appWithFrontend, decode_param.
      destruct (method req) eqn:Hm, (static (path req)) eqn:Hs;
        [exfalso; destruct Hns; discriminate| | |];
        destruct (decodeURIComponent (path req)); reflexivity. }
    rewrite Hskip. clear Hskip Hns. unfold app.
    destruct (method req) eqn:Hm;
      [destruct (match_path [Lit "health"] (segments (path req)));
       [split; [reflexivity|discriminate]| |]|].
    all: destruct (under_mount (segments (path req))) as [rest|];
      cbn [opt_chain]; [|split; [intros H; now contradiction H|reflexivity]].
    all: destruct (dispatch placesRouter w req rest) as [handler|] eqn:Hd;
      [|split; [intros H; now contradiction H|reflexivity]].
    all: destruct (routed_answers_json w req rest handler Hd) as [envl He];
      destruct (serve w handler) as [calls response]; cbn [fst snd] in *;
      split; [reflexivity|intros ->; discriminate He].
Qed.

(** A front-end file named like the types route is sent instead of it; a
    [GET] of a path cut short in an escape gets the 400 where [server.ts]
    answers 404. *)
Lemma frontend_revision_witness :
  appWithFrontend
    (fun p => if p =? typesPath then Some "public/api/places/types" else None)
    (sampleWorld quietClient) (mkRequest GET typesPath (VObj []))
  = ([], StaticFile "public/api/places/types")
  /\ app (sampleWorld quietClient) (mkRequest GET "/%" (VObj []))
     = ([], mkResponse 404 NotFound)
  /\ appWithFrontend (fun _ => None) (sampleWorld quietClient)
       (mkRequest GET "/%" (VObj []))
     = ([], BadRequest).
Proof.
  split; [|split].
  - apply (proj1 (frontend_revision
                    (fun p => if p =? typesPath
                              then Some "public/api/places/types" else None)
                    (sampleWorld quietClient) (mkRequest GET typesPath (VObj [])))).
    + reflexivity.
    + reflexivity.
  - reflexivity.
  - apply (proj2 (proj2 (frontend_revision (fun _ => None)
                           (sampleWorld quietClient)
                           (mkRequest GET "/%" (VObj [])))
                    (or_intror eq_refl))).
    reflexivity.
Defined.

End Frontend.

(* ------------------------------------------------------------------------- *)
(** ** The tools on their success path *)
(* ------------------------------------------------------------------------- *)

Section ToolAnswers.

Import TalkForceMCPServer.



(** X27: a nearby tool call with a string type that the provider answers
    returns the success variant: the normalised places, their number, the
    message naming the type, and an echo of the search parameters whose
    radius is the radius sent to the provider, 5000 when none was given. *)
Theorem nearby_tool_answer (w : World) (this : PlacesService.t) (args : value)
  (t : string) (response : SearchResponse.t) :
  PlacesService.constructor w = Return this ->
  nullish (get args "location") = false ->
  get args "type" = VStr t ->
  PlacesClient.searchNearby (PlacesService.placesClient this)
    {| NearbyRequest.includedTypes := [VStr t];
       NearbyRequest.maxResultCount := 10;
       NearbyRequest.locationRestriction :=
         restriction (get args "location") (or (get args "radius") (VNum 5000)) |}
    (Some PlacesService.searchFieldMask) = Return response ->
  let places := or_default always (SearchResponse.places response) [] in
  snd (run (callTool w "find_nearby_places" args))
  = Return
      (respond
         {| tool_success := true;
            tool_message :=
              "Found " ++ Number_toString w (inject_Z (Z.of_nat (List.length places)))
                ++ " " ++ t ++ " places nearby";
            tool_count := Some (List.length places);
            tool_searchParams :=
              Some {| echo_location := get args "location";
                      echo_type := VStr t;
                      echo_radius := or (get args "radius") (VNum 5000) |};
            tool_results := Some (PlacesService.formatSearchResults places);
            tool_placeDetails := None;
            tool_placeTypes := None;
            tool_usage := None |}).
Proof.
  intros Hc Hl Ht Hresp places.
  destruct (get_object _ _ Hl) as [fields ->].
  change (callTool w "find_nearby_places" (VObj fields))
    with (try_catch (handleFindNearbyPlaces w (VObj fields))
            (fun error =>
               ret (errorResponse "find_nearby_places" (err_message error)))).
  destruct (findNearbyPlaces_run this (get (VObj fields) "location")
              (get (VObj fields) "type")
              (or (get (VObj fields) "radius") (VNum 5000)) Hl)
    as (request & Hreq & _ & Hr).
  rewrite default_5000_or in Hreq.
  unfold PlacesService.nearbyRequest in Hreq.
  rewrite !(get_strict_ok _ _ Hl) in Hreq. injection Hreq as <-.
  rewrite <- (proxy_findNearbyPlaces w this _ _ _ Hc) in Hr.
  unfold restriction in Hresp.
  unfold handleFindNearbyPlaces, run, try_catch, bind, lift, ret, show_length in *.
  cbn [get_strict]. cbn [get] in Ht, Hresp, Hr |- *.
  rewrite Ht in Hr |- *. rewrite Hresp in Hr. rewrite Hr. cbn [ToString snd].
  now rewrite map_copyPlace, formatSearchResults_length.
Qed.

(** Nothing found near the sample point; the echo carries the default. *)
Lemma nearby_tool_answer_witness :
  opt_chain
    (tool_envelope
       (snd (run (callTool (sampleWorld quietClient) "find_nearby_places"
                    nearbyBody))))
    (fun o => option_map echo_radius (tool_searchParams o))
  = Some (VNum 5000).
Proof.
  rewrite (nearby_tool_answer (sampleWorld quietClient)
             (PlacesService.mk quietClient) nearbyBody "restaurant"
             (SearchResponse.mk None) eq_refl eq_refl eq_refl eq_refl).
  reflexivity.
Defined.

End ToolAnswers.
